(** * DB-GPT authentication core: schema, seed data and client-side gates

    A shallow embedding of
    - [assets/schema/upgrade/v0_8_0/auth_tables_up.sql] and
      [auth_tables_down.sql] (the migration scripts, as statements of a small
      SQL fragment with an executable semantics),
    - [web/pages/admin/users.tsx] ([checkAdminAccess], [loadUsers],
      [loadDatabases], and the handlers of the database-access modal),
    - [web/pages/_app.tsx] ([handleAuth], the theme effect of [CssWrapper])
      and the login page ([handleLogin], [handleRegister]),
    - [web/utils/constants.ts] ([getModelIcon], [getModelLabel]),
    together with the server-side operations of the authentication service,
    which act on the tables the migration creates. *)

From Stdlib Require Import ZArith Ascii String List Lia.
From stdpp Require Import base tactics option strings list gmap fin_maps.

Local Open Scope string_scope.
Local Open Scope Z_scope.

(** ** A fragment of SQL, sufficient for the two migration scripts

    The scripts are written for SQLite ([AUTOINCREMENT], [INSERT OR
    IGNORE]) and are run as they stand. Declared lengths such as
    [VARCHAR(64)] are recorded and, as in SQLite, not enforced; text
    compares byte by byte; [CURRENT_TIMESTAMP] is the time [now] at which a
    statement runs. SQLite enforces FOREIGN KEY clauses only on a connection
    that has issued [PRAGMA foreign_keys = ON]; neither script does, so the
    clauses are kept in the table definitions and are not enforced: a row
    may name a parent that does not exist, and a table may be dropped while
    others refer to it. *)

Module Sql.

(** Storage classes that occur in the auth tables. BOOLEAN and DATETIME
    columns hold integers (0/1 and an epoch time). *)
Inductive value :=
| VNull
| VInt (n : Z)
| VText (s : string).

#[global] Instance value_eq_dec : EqDecision value.
Proof. solve_decision. Defined.

Inductive sqltype :=
| TInteger
| TVarchar (n : nat)
| TText
| TBoolean
| TDatetime.

Inductive default_expr :=
| DInt (n : Z)
| DCurrentTimestamp.

Inductive col_constraint :=
| PrimaryKeyAutoincrement
| NotNull
| Unique
| Default (d : default_expr).

#[global] Instance default_expr_eq_dec : EqDecision default_expr.
Proof. solve_decision. Defined.

#[global] Instance col_constraint_eq_dec : EqDecision col_constraint.
Proof. solve_decision. Defined.

Record column := Column {
  col_name : string;
  col_type : sqltype;
  col_constraints : list col_constraint
}.

Inductive table_constraint :=
| ConstraintUnique (name : string) (cols : list string)
| ForeignKey (col : string) (ref_table : string) (ref_col : string).

Record table_def := TableDef {
  td_name : string;
  td_columns : list column;
  td_constraints : list table_constraint
}.

(** A row lists its columns in the order of the table definition. *)
Definition row := list (string * value).

Fixpoint row_get (r : row) (c : string) : value :=
  match r with
  | [] => VNull
  | (k, v) :: r' => if bool_decide (k = c) then v else row_get r' c
  end.

Fixpoint row_set (r : row) (c : string) (v : value) : row :=
  match r with
  | [] => []
  | (k, w) :: r' =>
      if bool_decide (k = c) then (k, v) :: r' else (k, w) :: row_set r' c v
  end.

Record table := Table {
  tbl_def : table_def;
  tbl_rows : list row;
  tbl_seq : Z            (* last AUTOINCREMENT value handed out *)
}.

Record index_def := IndexDef {
  ix_table : string;
  ix_column : string
}.

Record database := Database {
  db_tables : gmap string table;
  db_indexes : gmap string index_def
}.

Definition empty_db : database := Database ∅ ∅.

(** Scalar expressions of a VALUES list: a literal, or the scalar subquery
    [(SELECT col FROM tbl WHERE wcol = wval)]. *)
Inductive expr :=
| ELit (v : value)
| ESelect (col tbl wcol : string) (wval : value).

Inductive stmt :=
| CreateTableIfNotExists (td : table_def)
| CreateIndexIfNotExists (name tbl col : string)
| InsertOrIgnore (tbl : string) (cols : list string) (rows : list (list expr))
| DropIndexIfExists (name : string)
| DropTableIfExists (name : string).

(** *** Constraints of a table definition *)

Definition has_constraint (k : col_constraint) (c : column) : bool :=
  bool_decide (k ∈ col_constraints c).

Fixpoint first_default (ks : list col_constraint) : option default_expr :=
  match ks with
  | [] => None
  | Default d :: _ => Some d
  | _ :: ks' => first_default ks'
  end.

Definition column_default (c : column) : option default_expr :=
  first_default (col_constraints c).

Definition has_column (td : table_def) (c : string) : bool :=
  bool_decide (c ∈ map col_name (td_columns td)).

(** The UNIQUE keys of a table: the primary key, every column declared
    UNIQUE, and every table-level [CONSTRAINT .. UNIQUE (..)]. *)
Definition column_keys (td : table_def) : list (list string) :=
  map (λ c, [col_name c])
      (List.filter (λ c, has_constraint PrimaryKeyAutoincrement c
                         || has_constraint Unique c) (td_columns td)).

Fixpoint constraint_keys (ks : list table_constraint) : list (list string) :=
  match ks with
  | [] => []
  | ConstraintUnique _ cols :: ks' => cols :: constraint_keys ks'
  | ForeignKey _ _ _ :: ks' => constraint_keys ks'
  end.

Definition unique_keys (td : table_def) : list (list string) :=
  column_keys td ++ constraint_keys (td_constraints td).

Fixpoint foreign_keys (ks : list table_constraint)
  : list (string * string * string) :=
  match ks with
  | [] => []
  | ForeignKey c t rc :: ks' => (c, t, rc) :: foreign_keys ks'
  | ConstraintUnique _ _ :: ks' => foreign_keys ks'
  end.

Definition not_null_columns (td : table_def) : list string :=
  map col_name
      (List.filter (λ c, has_constraint NotNull c
                         || has_constraint PrimaryKeyAutoincrement c)
                   (td_columns td)).

(** Two rows collide on a key when they agree on each of its columns and
    none of these is NULL (NULLs are pairwise distinct for UNIQUE). *)
Definition agree_on (key : list string) (r1 r2 : row) : bool :=
  forallb (λ c, bool_decide (row_get r1 c ≠ VNull)
                && bool_decide (row_get r1 c = row_get r2 c)) key.

Definition violates_unique (td : table_def) (rows : list row) (r : row) : bool :=
  existsb (λ key, existsb (agree_on key r) rows) (unique_keys td).

Definition violates_not_null (td : table_def) (r : row) : bool :=
  existsb (λ c, bool_decide (row_get r c = VNull)) (not_null_columns td).

Definition references (name : string) (td : table_def) : bool :=
  existsb (λ fk, bool_decide (fk.1.2 = name)) (foreign_keys (td_constraints td)).

(** *** Inserting one row *)

Inductive insert_result :=
| Inserted (db : database) (r : row)
| UniqueViolation
| NotNullViolation
| NoSuchTable.

(** The stored row: a supplied value where the column is listed, the next
    AUTOINCREMENT value for the primary key, the DEFAULT otherwise. *)
Definition fill_column (now : Z) (seq : Z) (given : row) (c : column) : string * value :=
  (col_name c,
   if bool_decide (col_name c ∈ map fst given) then row_get given (col_name c)
   else if has_constraint PrimaryKeyAutoincrement c then VInt (seq + 1)
   else match column_default c with
        | Some (DInt n) => VInt n
        | Some DCurrentTimestamp => VInt now
        | None => VNull
        end).

Definition fill_row (now : Z) (tb : table) (given : row) : row :=
  map (fill_column now (tbl_seq tb) given) (td_columns (tbl_def tb)).

Definition insert_row (now : Z) (tbl : string) (given : row) (db : database)
  : insert_result :=
  match db_tables db !! tbl with
  | None => NoSuchTable
  | Some tb =>
      let r := fill_row now tb given in
      if violates_not_null (tbl_def tb) r then NotNullViolation
      else if violates_unique (tbl_def tb) (tbl_rows tb) r then UniqueViolation
      else
        let tb' := Table (tbl_def tb) (tbl_rows tb ++ [r]) (tbl_seq tb + 1) in
        Inserted (Database (<[tbl := tb']> (db_tables db)) (db_indexes db)) r
  end.

(** *** Statements *)

Definition eval_expr (db : database) (e : expr) : option value :=
  match e with
  | ELit v => Some v
  | ESelect c t wc wv =>
      tb ← db_tables db !! t;
      Some match List.find (λ r, bool_decide (row_get r wc = wv)) (tbl_rows tb) with
           | Some r => row_get r c
           | None => VNull
           end
  end.

(** The AUTOINCREMENT counter of [tbl] moved on by [k]. *)
Definition advance_seq (tbl : string) (k : Z) (db : database) : database :=
  match db_tables db !! tbl with
  | Some tb =>
      Database (<[tbl := Table (tbl_def tb) (tbl_rows tb) (tbl_seq tb + k)]> (db_tables db))
               (db_indexes db)
  | None => db
  end.

(** INSERT OR IGNORE skips a row that violates UNIQUE or NOT NULL; a
    missing table or a failing subquery aborts. The row has been given its
    AUTOINCREMENT value before the constraints are checked: a skipped row
    uses the value up, and the counter of the table moves on by one. *)
Fixpoint insert_or_ignore (now : Z) (tbl : string) (cols : list string)
    (rows : list (list expr)) (db : database) : option database :=
  match rows with
  | [] => Some db
  | es :: rows' =>
      vs ← mapM (eval_expr db) es;
      if negb (bool_decide (length vs = length cols)) then None
      else match insert_row now tbl (zip cols vs) db with
           | Inserted db' _ => insert_or_ignore now tbl cols rows' db'
           | UniqueViolation | NotNullViolation =>
               insert_or_ignore now tbl cols rows' (advance_seq tbl 1 db)
           | NoSuchTable => None
           end
  end.

(** DROP TABLE takes the table's rows, its counter and its indexes with
    it. *)
Definition exec_stmt (now : Z) (s : stmt) (db : database) : option database :=
  match s with
  | CreateTableIfNotExists td =>
      match db_tables db !! td_name td with
      | Some _ => Some db
      | None => Some (Database (<[td_name td := Table td [] 0]> (db_tables db))
                               (db_indexes db))
      end
  | CreateIndexIfNotExists name tbl col =>
      match db_indexes db !! name with
      | Some _ => Some db
      | None =>
          tb ← db_tables db !! tbl;
          if has_column (tbl_def tb) col
          then Some (Database (db_tables db)
                              (<[name := IndexDef tbl col]> (db_indexes db)))
          else None
      end
  | InsertOrIgnore tbl cols rows => insert_or_ignore now tbl cols rows db
  | DropIndexIfExists name =>
      Some (Database (db_tables db) (delete name (db_indexes db)))
  | DropTableIfExists name =>
      match db_tables db !! name with
      | None => Some db
      | Some _ =>
          Some (Database (delete name (db_tables db))
                         (filter (λ kv, ix_table kv.2 ≠ name) (db_indexes db)))
      end
  end.

Fixpoint exec_script (now : Z) (script : list stmt) (db : database)
  : option database :=
  match script with
  | [] => Some db
  | s :: script' => db' ← exec_stmt now s db; exec_script now script' db'
  end.

(** What a script creates and what it drops, by name. *)
Fixpoint created_tables (script : list stmt) : list string :=
  match script with
  | [] => []
  | CreateTableIfNotExists td :: k => td_name td :: created_tables k
  | _ :: k => created_tables k
  end.

Fixpoint created_indexes (script : list stmt) : list string :=
  match script with
  | [] => []
  | CreateIndexIfNotExists n _ _ :: k => n :: created_indexes k
  | _ :: k => created_indexes k
  end.



Definition rows_of (db : database) (tbl : string) : list row :=
  match db_tables db !! tbl with
  | Some tb => tbl_rows tb
  | None => []
  end.

(** *** What the constraints maintain on a stored table *)

Definition row_shaped (td : table_def) (r : row) : bool :=
  bool_decide (map fst r = map col_name (td_columns td)).

Definition autoincrement_columns (td : table_def) : list string :=
  map col_name (List.filter (has_constraint PrimaryKeyAutoincrement) (td_columns td)).

Definition id_bounded (td : table_def) (seq : Z) (r : row) : bool :=
  forallb (λ c, match row_get r c with
                | VInt n => bool_decide (n ≤ seq)
                | _ => false
                end) (autoincrement_columns td).

Fixpoint no_collision (key : list string) (rows : list row) : bool :=
  match rows with
  | [] => true
  | r :: rows' => forallb (λ r', negb (agree_on key r r')) rows' && no_collision key rows'
  end.

(** Every row has the table's columns, no AUTOINCREMENT value lies beyond
    the sequence, and no two rows collide on a UNIQUE key. *)
Definition table_ok (tb : table) : bool :=
  forallb (row_shaped (tbl_def tb)) (tbl_rows tb)
  && forallb (id_bounded (tbl_def tb) (tbl_seq tb)) (tbl_rows tb)
  && forallb (λ key, no_collision key (tbl_rows tb)) (unique_keys (tbl_def tb)).

End Sql.

(** ** The v0.8.0 migration: [auth_tables_up.sql] and [auth_tables_down.sql] *)

Module Schema.
Import Sql.

Definition roles_table := "dbgpt_serve_auth_roles".
Definition users_table := "dbgpt_serve_auth_users".
Definition user_db_access_table := "dbgpt_serve_auth_user_db_access".
Definition sessions_table := "dbgpt_serve_auth_sessions".

Definition gmt_columns : list column :=
  [ Column "gmt_created" TDatetime [Default DCurrentTimestamp];
    Column "gmt_modified" TDatetime [Default DCurrentTimestamp] ].

Definition roles_def : table_def :=
  TableDef roles_table
    ([ Column "id" TInteger [PrimaryKeyAutoincrement];
       Column "name" (TVarchar 64) [NotNull; Unique];
       Column "description" (TVarchar 255) [];
       Column "permissions" TText [] ] ++ gmt_columns)
    [ ConstraintUnique "uk_role_name" ["name"] ].

Definition users_def : table_def :=
  TableDef users_table
    ([ Column "id" TInteger [PrimaryKeyAutoincrement];
       Column "username" (TVarchar 128) [NotNull; Unique];
       Column "email" (TVarchar 255) [NotNull; Unique];
       Column "password_hash" (TVarchar 255) [NotNull];
       Column "salt" (TVarchar 64) [NotNull];
       Column "full_name" (TVarchar 255) [];
       Column "avatar_url" (TVarchar 512) [];
       Column "is_active" TBoolean [Default (DInt 1)];
       Column "is_superuser" TBoolean [Default (DInt 0)];
       Column "role_id" TInteger [NotNull];
       Column "last_login" TDatetime [] ] ++ gmt_columns)
    [ ConstraintUnique "uk_username" ["username"];
      ConstraintUnique "uk_email" ["email"];
      ForeignKey "role_id" roles_table "id" ].

Definition user_db_access_def : table_def :=
  TableDef user_db_access_table
    ([ Column "id" TInteger [PrimaryKeyAutoincrement];
       Column "user_id" TInteger [NotNull];
       Column "db_name" (TVarchar 255) [NotNull];
       Column "granted_by" TInteger [NotNull];
       Column "is_active" TBoolean [Default (DInt 1)] ] ++ gmt_columns)
    [ ConstraintUnique "uk_user_db_access" ["user_id"; "db_name"];
      ForeignKey "user_id" users_table "id";
      ForeignKey "granted_by" users_table "id" ].

Definition sessions_def : table_def :=
  TableDef sessions_table
    ([ Column "id" TInteger [PrimaryKeyAutoincrement];
       Column "session_id" (TVarchar 255) [NotNull; Unique];
       Column "user_id" TInteger [NotNull];
       Column "jwt_token" TText [NotNull];
       Column "expires_at" TDatetime [NotNull];
       Column "is_active" TBoolean [Default (DInt 1)];
       Column "user_agent" (TVarchar 512) [];
       Column "ip_address" (TVarchar 45) [] ] ++ gmt_columns)
    [ ForeignKey "user_id" users_table "id" ].

(** The permission blobs of the two default roles, as the script spells
    them. *)
Definition dquote : ascii := ascii_of_nat 34.
Definition quoted (s : string) : string :=
  String dquote (s +:+ String dquote EmptyString).

Definition user_permissions_text : string :=
  "{" +:+ quoted "chat" +:+ ": true, " +:+ quoted "explore" +:+ ": true, "
      +:+ quoted "construct" +:+ ": false, " +:+ quoted "admin" +:+ ": false}".
Definition admin_permissions_text : string :=
  "{" +:+ quoted "chat" +:+ ": true, " +:+ quoted "explore" +:+ ": true, "
      +:+ quoted "construct" +:+ ": true, " +:+ quoted "admin" +:+ ": true}".

Definition seed_roles : stmt :=
  InsertOrIgnore roles_table ["name"; "description"; "permissions"]
    [ [ ELit (VText "user");
        ELit (VText "Regular user with chat and explore access");
        ELit (VText user_permissions_text) ];
      [ ELit (VText "admin");
        ELit (VText "Administrator with full access");
        ELit (VText admin_permissions_text) ] ].

Definition seed_password_hash :=
  "f8c2e6b8c5a4d3e9f7b1a2c8d4e5f6g7h8i9j0k1l2m3n4o5p6q7r8s9t0u1v2w3x4y5z6".
Definition seed_salt :=
  "1234567890abcdef1234567890abcdef1234567890abcdef1234567890abcdef".
(** From the script's comment: [-- Insert default admin user (password: dbgpt2024)]. *)
Definition seed_password := "dbgpt2024".

Definition seed_admin : stmt :=
  InsertOrIgnore users_table
    ["username"; "email"; "password_hash"; "salt"; "full_name";
     "is_superuser"; "role_id"]
    [ [ ELit (VText "admin");
        ELit (VText "admin@dbgpt.com");
        ELit (VText seed_password_hash);
        ELit (VText seed_salt);
        ELit (VText "Administrator");
        ELit (VInt 1);
        ESelect "id" roles_table "name" (VText "admin") ] ].

Definition up_script : list stmt :=
  [ CreateTableIfNotExists roles_def;
    CreateTableIfNotExists users_def;
    CreateTableIfNotExists user_db_access_def;
    CreateTableIfNotExists sessions_def;
    seed_roles;
    seed_admin;
    CreateIndexIfNotExists "idx_users_username" users_table "username";
    CreateIndexIfNotExists "idx_users_email" users_table "email";
    CreateIndexIfNotExists "idx_users_role_id" users_table "role_id";
    CreateIndexIfNotExists "idx_user_db_access_user_id" user_db_access_table "user_id";
    CreateIndexIfNotExists "idx_user_db_access_db_name" user_db_access_table "db_name";
    CreateIndexIfNotExists "idx_sessions_session_id" sessions_table "session_id";
    CreateIndexIfNotExists "idx_sessions_user_id" sessions_table "user_id";
    CreateIndexIfNotExists "idx_sessions_expires_at" sessions_table "expires_at" ].

Definition down_script : list stmt :=
  [ DropIndexIfExists "idx_sessions_expires_at";
    DropIndexIfExists "idx_sessions_user_id";
    DropIndexIfExists "idx_sessions_session_id";
    DropIndexIfExists "idx_user_db_access_db_name";
    DropIndexIfExists "idx_user_db_access_user_id";
    DropIndexIfExists "idx_users_role_id";
    DropIndexIfExists "idx_users_email";
    DropIndexIfExists "idx_users_username";
    DropTableIfExists sessions_table;
    DropTableIfExists user_db_access_table;
    DropTableIfExists users_table;
    DropTableIfExists roles_table ].

(** The database right after the migration has been applied to an empty
    one at time [now]. *)
Definition bootstrap (now : Z) : option database :=
  exec_script now up_script empty_db.

Definition auth_tables : list string := created_tables up_script.
Definition auth_indexes : list string := created_indexes up_script.

(** A database that has nothing to do with the auth schema: none of its
    objects bears an auth name, no table of it declares a foreign key into
    an auth table, no index of it sits on one. *)
Definition unrelated (db : database) : bool :=
  forallb (λ n, bool_decide (db_tables db !! n = None)) auth_tables
  && forallb (λ n, bool_decide (db_indexes db !! n = None)) auth_indexes
  && bool_decide (map_Forall (λ _ tb,
       forallb (λ n, negb (references n (tbl_def tb))) auth_tables = true) (db_tables db))
  && bool_decide (map_Forall (λ _ ix,
       forallb (λ n, bool_decide (ix_table ix ≠ n)) auth_tables = true) (db_indexes db)).

(** The rows the two INSERT statements leave behind. *)
Definition seeded_role_rows (now : Z) : list row :=
  [ [ ("id", VInt 1); ("name", VText "user");
      ("description", VText "Regular user with chat and explore access");
      ("permissions", VText user_permissions_text);
      ("gmt_created", VInt now); ("gmt_modified", VInt now) ];
    [ ("id", VInt 2); ("name", VText "admin");
      ("description", VText "Administrator with full access");
      ("permissions", VText admin_permissions_text);
      ("gmt_created", VInt now); ("gmt_modified", VInt now) ] ].

Definition seeded_admin_row (now : Z) : row :=
  [ ("id", VInt 1); ("username", VText "admin"); ("email", VText "admin@dbgpt.com");
    ("password_hash", VText seed_password_hash); ("salt", VText seed_salt);
    ("full_name", VText "Administrator"); ("avatar_url", VNull);
    ("is_active", VInt 1); ("is_superuser", VInt 1); ("role_id", VInt 2);
    ("last_login", VNull); ("gmt_created", VInt now); ("gmt_modified", VInt now) ].

(** The catalog after the up script, over the tables [T] and indexes [I]
    that were there before. *)
Definition migrated_tables (now : Z) (T : gmap string table) : gmap string table :=
  <[sessions_table := Table sessions_def [] 0]>
    (<[user_db_access_table := Table user_db_access_def [] 0]>
       (<[users_table := Table users_def [seeded_admin_row now] 1]>
          (<[roles_table := Table roles_def (seeded_role_rows now) 2]> T))).

Definition migrated_indexes (I : gmap string index_def) : gmap string index_def :=
  <["idx_sessions_expires_at" := IndexDef sessions_table "expires_at"]>
    (<["idx_sessions_user_id" := IndexDef sessions_table "user_id"]>
    (<["idx_sessions_session_id" := IndexDef sessions_table "session_id"]>
    (<["idx_user_db_access_db_name" := IndexDef user_db_access_table "db_name"]>
    (<["idx_user_db_access_user_id" := IndexDef user_db_access_table "user_id"]>
    (<["idx_users_role_id" := IndexDef users_table "role_id"]>
    (<["idx_users_email" := IndexDef users_table "email"]>
    (<["idx_users_username" := IndexDef users_table "username"]> I))))))).

End Schema.

(** ** Password hashing *)

Module Hasher.

Definition hex_digits : list ascii := list_ascii_of_string "0123456789abcdef".

Definition hex_digit (n : N) : ascii := nth (N.to_nat n) hex_digits "0"%char.

(** Lower-case hexadecimal text of a byte string, two digits per byte. *)
Fixpoint hexlify (bs : list Byte.byte) : string :=
  match bs with
  | [] => EmptyString
  | b :: bs' =>
      let n := Byte.to_N b in
      String (hex_digit (n / 16)) (String (hex_digit (n mod 16)) (hexlify bs'))
  end.

Definition is_hex_char (c : ascii) : bool := bool_decide (c ∈ hex_digits).

(** A hex-encoded SHA-256 digest: 64 characters over 0-9a-f. *)
Definition is_hex_sha256_digest (s : string) : bool :=
  bool_decide (String.length s = 64%nat)
  && forallb is_hex_char (list_ascii_of_string s).

(** Comparison that looks at every position, whatever the outcome. *)
Fixpoint mismatches (a b : list ascii) : nat :=
  match a, b with
  | x :: a', y :: b' =>
      ((if bool_decide (x = y) then 0 else 1) + mismatches a' b')%nat
  | [], [] => 0%nat
  | _, _ => 1%nat
  end.

Definition constant_time_eq (a b : string) : bool :=
  bool_decide (mismatches (list_ascii_of_string a) (list_ascii_of_string b) = 0%nat).

Section Derivation.
(** The key-derivation primitive [pbkdf2_hmac hash_name password salt
    iterations] of the platform's crypto library, taken as given. *)
Variable pbkdf2_hmac : string → list Byte.byte → list Byte.byte → N → list Byte.byte.

(** The derivation the seed script states for its hash:
    [pbkdf2_hmac('sha256', password, salt, 100000)], stored as hex text. *)
Definition derive (password : string) (salt : list Byte.byte) : string :=
  hexlify (pbkdf2_hmac "sha256" (list_byte_of_string password) salt 100000%N).

(** Modelled from the spec: the Password Hasher's [verify(plaintext, hash,
    salt) -> bool] (the service code is not part of the sources): the hash
    is re-derived from the plaintext and the salt and compared, without
    early exit, with the stored one. *)
Definition verify (plaintext stored_hash : string) (salt : list Byte.byte) : bool :=
  constant_time_eq (derive plaintext salt) stored_hash.
End Derivation.

End Hasher.

(** ** The authentication service over the migrated tables

    The service code itself is not among the sources; its operations are
    modelled from the specification and act on the rows of the tables that
    [auth_tables_up.sql] defines, through [Sql.insert_row] and the
    constraints declared there. *)

Module Auth.
Import Sql Schema.

(** Modelled from the spec: the error taxonomy of the service (section 7),
    with [InternalFailure] for storage faults. *)
Inductive error :=
| InvalidInput
| Conflict
| Unauthorized
| Forbidden
| NotFound
| InternalFailure.

Inductive result (A : Type) :=
| Ok (a : A)
| Err (e : error).
Arguments Ok {A} a.
Arguments Err {A} e.

(** *** Typed views of a row *)

Definition get_int (r : row) (c : string) : option Z :=
  match row_get r c with VInt n => Some n | _ => None end.

Definition get_text (r : row) (c : string) : option string :=
  match row_get r c with VText s => Some s | _ => None end.

Definition get_bool (r : row) (c : string) : bool :=
  match row_get r c with VInt n => bool_decide (n ≠ 0) | _ => false end.

Definition set_rows (db : database) (tbl : string) (rows : list row) : database :=
  match db_tables db !! tbl with
  | Some tb =>
      Database (<[tbl := Table (tbl_def tb) rows (tbl_seq tb)]> (db_tables db))
               (db_indexes db)
  | None => db
  end.

(** Modelled from the spec: the Credential Store's [findById]; [None] is
    its [NotFound]. *)
Definition findById (db : database) (id : Z) : option row :=
  List.find (λ r, bool_decide (row_get r "id" = VInt id)) (rows_of db users_table).

Definition findRole (db : database) (id : Z) : option row :=
  List.find (λ r, bool_decide (row_get r "id" = VInt id)) (rows_of db roles_table).

(** *** Permission Evaluator *)

(** Modelled from the spec: the capability set, four flags per role. *)
Record permissions := Permissions {
  chat : bool;
  explore : bool;
  construct : bool;
  admin : bool
}.

#[global] Instance permissions_eq_dec : EqDecision permissions.
Proof. solve_decision. Defined.

Inductive capability := Chat | Explore | Construct | Admin.

(** The two rows of the permission matrix. *)
Definition user_permissions : permissions := Permissions true true false false.
Definition admin_permissions : permissions := Permissions true true true true.

Definition has_capability (p : permissions) (c : capability) : bool :=
  match c with
  | Chat => chat p
  | Explore => explore p
  | Construct => construct p
  | Admin => admin p
  end.

(** Modelled from the spec: the permission blob of a role is parsed when it
    is read; it is a flat JSON object of booleans, read here by a lexer and
    a parser for that form. *)
Inductive token :=
| TLBrace | TRBrace | TColon | TComma
| TString (s : string)
| TBool (b : bool)
| TBad.

Inductive lex_mode :=
| LexPlain
| LexString (rev_chars : list ascii)
| LexWord (rev_chars : list ascii).

Definition string_of_rev (cs : list ascii) : string :=
  string_of_list_ascii (rev cs).

Definition word_token (cs : list ascii) : token :=
  let w := string_of_rev cs in
  if bool_decide (w = "true") then TBool true
  else if bool_decide (w = "false") then TBool false
  else TBad.

Definition is_space (c : ascii) : bool :=
  bool_decide (c ∈ [" "%char; ascii_of_nat 9; ascii_of_nat 10; ascii_of_nat 13]).

Definition punctuation (c : ascii) : option token :=
  if bool_decide (c = "{"%char) then Some TLBrace
  else if bool_decide (c = "}"%char) then Some TRBrace
  else if bool_decide (c = ":"%char) then Some TColon
  else if bool_decide (c = ","%char) then Some TComma
  else None.

(** [lex mode cs] is the token list of [cs], read in [mode]. *)
Fixpoint lex (mode : lex_mode) (cs : list ascii) : list token :=
  match cs with
  | [] =>
      match mode with
      | LexPlain => []
      | LexString _ => [TBad]
      | LexWord w => [word_token w]
      end
  | c :: cs' =>
      match mode with
      | LexString acc =>
          if bool_decide (c = dquote) then TString (string_of_rev acc) :: lex LexPlain cs'
          else lex (LexString (c :: acc)) cs'
      | LexWord w =>
          if is_space c then word_token w :: lex LexPlain cs'
          else match punctuation c with
               | Some t => word_token w :: t :: lex LexPlain cs'
               | None => lex (LexWord (c :: w)) cs'
               end
      | LexPlain =>
          if is_space c then lex LexPlain cs'
          else if bool_decide (c = dquote) then lex (LexString []) cs'
          else match punctuation c with
               | Some t => t :: lex LexPlain cs'
               | None => lex (LexWord [c]) cs'
               end
      end
  end.

Fixpoint parse_members (ts : list token) : option (list (string * bool)) :=
  match ts with
  | TString k :: TColon :: TBool b :: TRBrace :: [] => Some [(k, b)]
  | TString k :: TColon :: TBool b :: TComma :: ts' =>
      ms ← parse_members ts'; Some ((k, b) :: ms)
  | _ => None
  end.

Definition parse_flags (text : string) : option (list (string * bool)) :=
  match lex LexPlain (list_ascii_of_string text) with
  | [TLBrace; TRBrace] => Some []
  | TLBrace :: ts => parse_members ts
  | _ => None
  end.

(** A flag that the blob does not mention is off. *)
Fixpoint flag (ms : list (string * bool)) (k : string) : bool :=
  match ms with
  | [] => false
  | (k', b) :: ms' => if bool_decide (k' = k) then b else flag ms' k
  end.

Definition parse_permissions (text : string) : option permissions :=
  ms ← parse_flags text;
  Some (Permissions (flag ms "chat") (flag ms "explore")
                    (flag ms "construct") (flag ms "admin")).

Definition role_of (db : database) (user : row) : option row :=
  rid ← get_int user "role_id"; findRole db rid.

Definition role_name (db : database) (user : row) : option string :=
  role ← role_of db user; get_text role "name".

(** Modelled from the spec: the Permission Evaluator's
    [effectivePermissions(user)] (service code, not part of the sources):
    the capability set is the row of the user's role, whose permission blob
    is parsed when it is read; the superuser flag plays no part in it. *)
Definition effectivePermissions (db : database) (user : row) : option permissions :=
  role ← role_of db user;
  text ← get_text role "permissions";
  parse_permissions text.

(** Modelled from the spec: [requireCapability(user, capability)], which
    fails [Forbidden] when the capability is absent. *)
Definition requireCapability (db : database) (user : row) (c : capability)
  : result unit :=
  match effectivePermissions db user with
  | Some p => if has_capability p c then Ok tt else Err Forbidden
  | None => Err Forbidden
  end.

(** Modelled from the spec: the check of an admin-only call site,
    [is_superuser OR role.admin]. *)
Definition is_admin (db : database) (user : row) : bool :=
  get_bool user "is_superuser"
  || match effectivePermissions db user with
     | Some p => admin p
     | None => false
     end.

(** *** Credential Store *)

Definition text_or_null (o : option string) : value :=
  match o with Some s => VText s | None => VNull end.

(** Modelled from the spec: the Credential Store's [createUser(username,
    email, passwordHash, salt, fullName, roleId) -> User | fails(Conflict)]
    (service code, not part of the sources): one insert into the users
    table, whose UNIQUE violation is reported as [Conflict]. *)
Definition createUser (now : Z) (username email passwordHash salt : string)
    (fullName : option string) (roleId : Z) (db : database)
  : result row * database :=
  match insert_row now users_table
          [ ("username", VText username); ("email", VText email);
            ("password_hash", VText passwordHash); ("salt", VText salt);
            ("full_name", text_or_null fullName); ("role_id", VInt roleId) ] db with
  | Inserted db' r => (Ok r, db')
  | UniqueViolation => (Err Conflict, db)
  | NotNullViolation | NoSuchTable => (Err InternalFailure, db)
  end.

(** *** Database-Access Registry *)

Definition grant_matches (grantee : Z) (dbName : string) (r : row) : bool :=
  bool_decide (row_get r "user_id" = VInt grantee)
  && bool_decide (row_get r "db_name" = VText dbName).

Definition reactivate (now granter : Z) (r : row) : row :=
  row_set (row_set (row_set r "is_active" (VInt 1)) "granted_by" (VInt granter))
          "gmt_modified" (VInt now).

Definition deactivate (now : Z) (r : row) : row :=
  row_set (row_set r "is_active" (VInt 0)) "gmt_modified" (VInt now).

(** The row a first grant stores. *)
Definition new_grant_row (now seq granter grantee : Z) (dbName : string) : row :=
  [ ("id", VInt (seq + 1)); ("user_id", VInt grantee); ("db_name", VText dbName);
    ("granted_by", VInt granter); ("is_active", VInt 1);
    ("gmt_created", VInt now); ("gmt_modified", VInt now) ].

Definition update_where (p : row → bool) (f : row → row) (rows : list row) : list row :=
  map (λ r, if p r then f r else r) rows.

(** Modelled from the spec: [grant(granterId, granteeId, dbName)] (service
    code, not part of the sources): [Forbidden] unless the granter passes
    the admin check, [NotFound] for an unknown grantee, otherwise the
    [(grantee, dbName)] row is inserted, or reactivated where it exists. *)
Definition grant (now granterId granteeId : Z) (dbName : string) (db : database)
  : result unit * database :=
  match findById db granterId with
  | None => (Err Forbidden, db)
  | Some granter =>
      if negb (is_admin db granter) then (Err Forbidden, db)
      else match findById db granteeId with
           | None => (Err NotFound, db)
           | Some _ =>
               let rows := rows_of db user_db_access_table in
               if existsb (grant_matches granteeId dbName) rows
               then (Ok tt,
                     set_rows db user_db_access_table
                       (update_where (grant_matches granteeId dbName)
                                     (reactivate now granterId) rows))
               else match insert_row now user_db_access_table
                            [ ("user_id", VInt granteeId);
                              ("db_name", VText dbName);
                              ("granted_by", VInt granterId) ] db with
                    | Inserted db' _ => (Ok tt, db')
                    | _ => (Err InternalFailure, db)
                    end
           end
  end.

(** Modelled from the spec: [revoke(granterId, granteeId, dbName)], which
    deactivates the row; revoking a missing grant changes nothing. *)
Definition revoke (now granterId granteeId : Z) (dbName : string) (db : database)
  : result unit * database :=
  match findById db granterId with
  | None => (Err Forbidden, db)
  | Some granter =>
      if negb (is_admin db granter) then (Err Forbidden, db)
      else
        let rows := rows_of db user_db_access_table in
        if existsb (grant_matches granteeId dbName) rows
        then (Ok tt,
              set_rows db user_db_access_table
                (update_where (grant_matches granteeId dbName) (deactivate now) rows))
        else (Ok tt, db)
  end.

Definition active_grants (db : database) (grantee : Z) (dbName : string) : list row :=
  List.filter (λ r, grant_matches grantee dbName r && get_bool r "is_active")
              (rows_of db user_db_access_table).

(** Modelled from the spec: [checkAccess(userId, dbName)]. *)
Definition checkAccess (db : database) (userId : Z) (dbName : string) : bool :=
  match findById db userId with
  | None => false
  | Some u =>
      get_bool u "is_superuser"
      || bool_decide (active_grants db userId dbName ≠ [])
  end.

End Auth.

(** ** Session Manager *)

Module SessionManager.
Import Sql Schema Auth.

(** Modelled from the spec: what a signed token binds,
    [{userId, sessionId, issuedAt, expiresAt}]. *)
Record claims := Claims {
  userId : Z;
  sessionId : string;
  issuedAt : Z;
  expiresAt : Z
}.

(** The signature scheme (HS256 by default), taken as given: [sign] under a
    secret, and [verify_signature], which returns the claims of a token that
    verifies under the secret. *)
Class TokenScheme := {
  sign : string → claims → string;
  verify_signature : string → string → option claims
}.

(** Modelled from the spec: the configuration object handed to the Session
    Manager, with the thirty-day default lifetime (in seconds). *)
Record config := Config {
  signing_key : string;
  sessionTTL : Z
}.

Definition thirty_days : Z := 30 * 24 * 60 * 60.
Definition default_config (key : string) : config := Config key thirty_days.

Record client_meta := ClientMeta {
  user_agent : option string;
  ip_address : option string
}.

Section Operations.
Context `{TokenScheme}.
Variable cfg : config.

Definition findSession (db : database) (sid : string) : option row :=
  List.find (λ r, bool_decide (row_get r "session_id" = VText sid))
            (rows_of db sessions_table).

(** Modelled from the spec: [issue(user, clientMeta) -> Session] (service
    code, not part of the sources). The fresh opaque identifier [sid]
    comes from the caller's entropy source; a collision on it is
    reported, never overwritten. *)
Definition issue (now : Z) (sid : string) (user : row) (meta : client_meta)
    (db : database) : result (string * string) * database :=
  match get_int user "id" with
  | None => (Err InternalFailure, db)
  | Some uid =>
      let exp := now + sessionTTL cfg in
      let tok := sign (signing_key cfg) (Claims uid sid now exp) in
      match insert_row now sessions_table
              [ ("session_id", VText sid); ("user_id", VInt uid);
                ("jwt_token", VText tok); ("expires_at", VInt exp);
                ("user_agent", text_or_null (user_agent meta));
                ("ip_address", text_or_null (ip_address meta)) ] db with
      | Inserted db' _ => (Ok (sid, tok), db')
      | _ => (Err InternalFailure, db)
      end
  end.

(** The row [issue] stores. *)
Definition new_session_row (now seq uid : Z) (sid tok : string) (meta : client_meta) : row :=
  [ ("id", VInt (seq + 1)); ("session_id", VText sid); ("user_id", VInt uid);
    ("jwt_token", VText tok); ("expires_at", VInt (now + sessionTTL cfg));
    ("is_active", VInt 1);
    ("user_agent", text_or_null (user_agent meta));
    ("ip_address", text_or_null (ip_address meta));
    ("gmt_created", VInt now); ("gmt_modified", VInt now) ].

Definition not_expired (now : Z) (s : row) : bool :=
  match get_int s "expires_at" with
  | Some e => bool_decide (now < e)
  | None => false
  end.

(** Modelled from the spec: [validate(token) -> User |
    fails(Unauthorized)] (service code, not part of the sources): the
    signature is verified, the stored record must carry this very token,
    be active and not yet expired; every failure is the same
    [Unauthorized]. *)
Definition validate (now : Z) (tok : string) (db : database) : result row :=
  match verify_signature (signing_key cfg) tok with
  | None => Err Unauthorized
  | Some c =>
      match findSession db (sessionId c) with
      | None => Err Unauthorized
      | Some s =>
          if bool_decide (row_get s "jwt_token" = VText tok)
             && get_bool s "is_active" && not_expired now s
          then match get_int s "user_id" with
               | Some uid =>
                   match findById db uid with
                   | Some u => Ok u
                   | None => Err Unauthorized
                   end
               | None => Err Unauthorized
               end
          else Err Unauthorized
      end
  end.

Definition session_matches (sid : string) (r : row) : bool :=
  bool_decide (row_get r "session_id" = VText sid).

(** Modelled from the spec: [revoke(sessionId)] sets [active=false]. *)
Definition revoke (now : Z) (sid : string) (db : database) : database :=
  set_rows db sessions_table
    (update_where (session_matches sid) (deactivate now)
                  (rows_of db sessions_table)).
End Operations.

End SessionManager.

(** ** The web client *)

(** *** JavaScript values as the pages use them *)

Module Js.

#[local] Set Warnings "-register-all".

(** A parsed response body. An object lists its own properties, each name
    once. Numbers are the integers (timestamps, ids); no page below does
    arithmetic on anything else. *)
Inductive json :=
| JUndefined
| JNull
| JBool (b : bool)
| JNum (n : Z)
| JStr (s : string)
| JArr (items : list json)
| JObj (fields : list (string * json)).

#[local] Set Warnings "+register-all".

Definition truthy (v : json) : bool :=
  match v with
  | JUndefined | JNull => false
  | JBool b => b
  | JNum n => bool_decide (n ≠ 0)
  | JStr s => bool_decide (s ≠ EmptyString)
  | JArr _ | JObj _ => true
  end.

Definition nullish (v : json) : bool :=
  match v with
  | JUndefined | JNull => true
  | _ => false
  end.

Fixpoint lookup_field (fields : list (string * json)) (k : string) : json :=
  match fields with
  | [] => JUndefined
  | (k', v) :: fields' => if bool_decide (k' = k) then v else lookup_field fields' k
  end.

(** [own v k] is [v.k] for a [v] that is neither [null] nor [undefined].
    The property names read below ([success], [data], [user],
    [permissions], [is_superuser], [admin], [session_id], [message],
    [users]) are not built-in properties of strings, numbers, booleans or
    arrays, so only objects answer. *)
Definition own (v : json) (k : string) : json :=
  match v with
  | JObj fields => lookup_field fields k
  | _ => JUndefined
  end.

(** [v.k]: [None] stands for the TypeError on [null] and [undefined]. *)
Definition prop (v : json) (k : string) : option json :=
  if nullish v then None else Some (own v k).

(** [v?.k] *)
Definition opt_prop (v : json) (k : string) : json :=
  if nullish v then JUndefined else own v k.

(** Truthiness of a [string | null], such as [localStorage.getItem(k)]. *)
Definition some_truthy (o : option string) : bool :=
  match o with
  | Some s => bool_decide (s ≠ EmptyString)
  | None => false
  end.

(** [a || b] *)
Definition or_else (a b : json) : json := if truthy a then a else b.

(** The integers that JavaScript holds exactly ([Number.isSafeInteger]),
    and the time values, as [Date.now()] returns them: at most 8.64e15
    milliseconds from the epoch, safe integers all. *)
Definition safe_integer (n : Z) : bool := bool_decide (Z.abs n < 2 ^ 53).

Definition time_value (t : Z) : bool := bool_decide (Z.abs t ≤ 8640000000000000).

(** Decimal text of an integer, as [Number.prototype.toString] gives it
    for a safe integer. (From 10^21 on JavaScript writes an exponent, and
    between 2^53 and there not every integer is a number.) *)
Definition digit_char (d : Z) : ascii := ascii_of_nat (48 + Z.to_nat d).

Fixpoint decimal_digits (fuel : nat) (n : Z) (acc : string) : string :=
  match fuel with
  | O => acc
  | S fuel' =>
      let acc' := String (digit_char (n mod 10)) acc in
      if bool_decide (n / 10 = 0) then acc' else decimal_digits fuel' (n / 10) acc'
  end.

Definition number_toString (n : Z) : string :=
  let digits := decimal_digits (S (Z.to_nat (Z.log2 (Z.abs n)))) (Z.abs n) EmptyString in
  if bool_decide (n < 0) then String "-"%char digits else digits.

(** String conversion, as a template literal [`${v}`] performs it. *)
Fixpoint to_string (v : json) : string :=
  match v with
  | JUndefined => "undefined"
  | JNull => "null"
  | JBool true => "true"
  | JBool false => "false"
  | JNum n => number_toString n
  | JStr s => s
  | JArr items =>
      (fix join (l : list json) : string :=
         match l with
         | [] => EmptyString
         | x :: l' =>
             let sx := if nullish x then EmptyString else to_string x in
             match l' with
             | [] => sx
             | _ :: _ => sx +:+ "," +:+ join l'
             end
         end) items
  | JObj _ => "[object Object]"
  end.


(** Text of ASCII characters. *)
Definition ascii_text (s : string) : bool :=
  forallb (λ c, bool_decide (nat_of_ascii c < 128)%nat) (list_ascii_of_string s).

(** [parseInt(s)] without a radix, on ASCII text; [None] is NaN. The white
    space skipped is that of ASCII; JavaScript also skips the white space
    beyond it (U+00A0, U+FEFF and the like). *)
Definition is_white (c : ascii) : bool :=
  bool_decide (nat_of_ascii c ∈ [9; 10; 11; 12; 13; 32]%nat).

Fixpoint skip_white (cs : list ascii) : list ascii :=
  match cs with
  | c :: cs' => if is_white c then skip_white cs' else cs
  | [] => []
  end.

Definition digit_value (c : ascii) : option Z :=
  let n := Z.of_nat (nat_of_ascii c) in
  if bool_decide (48 ≤ n ≤ 57)%Z then Some (n - 48)
  else if bool_decide (97 ≤ n ≤ 122)%Z then Some (n - 87)
  else if bool_decide (65 ≤ n ≤ 90)%Z then Some (n - 55)
  else None.

Fixpoint read_digits (radix : Z) (cs : list ascii) (acc : option Z) : option Z :=
  match cs with
  | [] => acc
  | c :: cs' =>
      match digit_value c with
      | Some d =>
          if bool_decide (d < radix)
          then read_digits radix cs' (Some (default 0 acc * radix + d))
          else acc
      | None => acc
      end
  end.

Definition read_unsigned (cs : list ascii) : option Z :=
  match cs with
  | "0"%char :: x :: cs' =>
      if bool_decide (x = "x"%char ∨ x = "X"%char)
      then read_digits 16 cs' None
      else read_digits 10 cs None
  | _ => read_digits 10 cs None
  end.

Definition parseInt (s : string) : option Z :=
  match skip_white (list_ascii_of_string s) with
  | "-"%char :: cs => Z.opp <$> read_unsigned cs
  | "+"%char :: cs => read_unsigned cs
  | cs => read_unsigned cs
  end.

End Js.

(** *** The browser: storage, network and the effects a handler performs *)

Module Browser.
Import Js.

Record request := Request {
  url : string;
  method : string;
  credentials_include : bool;
  body : option string
}.

Definition GET (u : string) : request := Request u "GET" true None.
Definition POST (u : string) (credentials : bool) (b : string) : request :=
  Request u "POST" credentials (Some b).

(** What a [fetch] comes back with: a rejected promise, or a response with
    its [ok] flag and the value [response.json()] resolves to ([None] when
    the body does not parse). *)
Inductive fetch_outcome :=
| NetworkError
| Response (ok : bool) (parsed : option json).

Definition network := request → fetch_outcome.

(** The two loads the admin page starts without awaiting them. *)
Inductive task := LoadUsers | LoadDatabases.

(** What a handler does to the outside, in the order it does it: requests,
    [message.error]/[message.success], [router.push], React state setters,
    console output, writes to [localStorage] and to [document.cookie]. *)

Inductive event :=
| Fetch (r : request)
| MessageError (content : json)
| MessageSuccess (content : json)
| RouterPush (target : string)
| SetIsLogin (b : bool)
| SetLoading (b : bool)
| SetUsers (v : json)
| SetDatabases (v : json)
| ConsoleError (label : string)
| ConsoleLog (label : string)
| StorageSet (key val : string)
| CookieSet (assignment : string)
| Spawn (t : task).

#[global] Instance request_eq_dec : EqDecision request.
Proof. solve_decision. Defined.

(** The constants and built-ins the pages import. The two storage keys
    are those of the layout, which takes them from [utils/constants/index];
    that module is not among the sources.
    [JSON_stringify v] is the text that is stored or sent for [v], [i18n_t]
    the translation function [t]. *)
Class Platform := {
  STORAGE_USERINFO_KEY : string;
  STORAGE_USERINFO_VALID_TIME_KEY : string;
  JSON_stringify : json → string;
  encodeURIComponent : string → string;
  i18n_t : string → string
}.

Record browser := Browser {
  localStorage : gmap string string;
  trace : list event
}.

Inductive outcome (A : Type) :=
| Done (a : A)
| Thrown.
Arguments Done {A} a.
Arguments Thrown {A}.

(** A handler body: it runs against the browser state and either completes
    or throws. *)
Definition js (A : Type) : Type := browser → outcome A * browser.

#[global] Instance js_ret : MRet js := λ A a b, (Done a, b).
#[global] Instance js_bind : MBind js := λ A B f m b,
  match m b with
  | (Done a, b') => f a b'
  | (Thrown, b') => (Thrown, b')
  end.

Definition throw {A} : js A := λ b, (Thrown, b).

Definition try_catch {A} (body handler : js A) : js A := λ b,
  match body b with
  | (Done a, b') => (Done a, b')
  | (Thrown, b') => handler b'
  end.

Definition try_finally {A} (body : js A) (finalizer : js unit) : js A := λ b,
  match body b with
  | (r, b') => match finalizer b' with
               | (Done _, b'') => (r, b'')
               | (Thrown, b'') => (Thrown, b'')
               end
  end.

Definition emit (e : event) : js unit := λ b,
  (Done tt, Browser (localStorage b) (trace b ++ [e])).

Definition getItem (k : string) : js (option string) := λ b,
  (Done (localStorage b !! k), b).

Definition setItem (k v : string) : js unit := λ b,
  (Done tt, Browser (<[k := v]> (localStorage b)) (trace b ++ [StorageSet k v])).

Record response := MkResponse {
  ok : bool;
  parsed : option json
}.

Definition fetch (net : network) (r : request) : js response := λ b,
  let b' := Browser (localStorage b) (trace b ++ [Fetch r]) in
  match net r with
  | NetworkError => (Thrown, b')
  | Response o p => (Done (MkResponse o p), b')
  end.

(** [await response.json()] *)
Definition response_json (r : response) : js json :=
  match parsed r with
  | Some v => mret v
  | None => throw
  end.

(** [v.k], throwing on [null] and [undefined]. *)
Definition get (v : json) (k : string) : js json :=
  match prop v k with
  | Some x => mret x
  | None => throw
  end.

Definition run {A} (m : js A) (storage : gmap string string) : outcome A * browser :=
  m (Browser storage []).

Definition fetched (b : browser) : list request :=
  omap (λ e, match e with Fetch r => Some r | _ => None end) (trace b).

Definition cookies_set (b : browser) : list string :=
  omap (λ e, match e with CookieSet c => Some c | _ => None end) (trace b).

Definition spawned (b : browser) : list task :=
  omap (λ e, match e with Spawn t => Some t | _ => None end) (trace b).

End Browser.

(** *** [pages/admin/users.tsx] *)

Module AdminUsersPage.
Import Js Browser.

Definition me_request : request := GET "/api/v1/auth/me".

(** The two flags of the [/api/v1/auth/me] answer that the page reads:
    [data.user.is_superuser] and [data.permissions.admin]. *)
Definition is_superuser_flag (result : json) : bool :=
  truthy (opt_prop (opt_prop (own result "data") "user") "is_superuser").

Definition admin_flag (result : json) : bool :=
  truthy (opt_prop (opt_prop (own result "data") "permissions") "admin").

(** The answer of [/api/v1/auth/me] for a user with the given flags. *)
Definition me_result (username : string) (is_superuser admin_capability : bool) : json :=
  JObj [ ("success", JBool true);
         ("data", JObj [ ("user", JObj [ ("username", JStr username);
                                         ("is_superuser", JBool is_superuser) ]);
                         ("permissions", JObj [ ("chat", JBool true);
                                                ("explore", JBool true);
                                                ("construct", JBool admin_capability);
                                                ("admin", JBool admin_capability) ]) ]) ].

Section Page.
Variable net : network.

Definition loadUsers : js unit :=
  emit (SetLoading true);;
  try_finally
    (try_catch
       (response ← fetch net (GET "/api/v1/auth/users");
        if ok response then
          result ← response_json response;
          success ← get result "success";
          if truthy success then
            data ← get result "data";
            users ← get data "users";
            emit (SetUsers users)
          else mret tt
        else mret tt)
       (emit (ConsoleError "Failed to load users:");;
        emit (MessageError (JStr "Failed to load users"))))
    (emit (SetLoading false)).

Definition loadDatabases : js unit :=
  try_catch
    (response ← fetch net (GET "/api/v1/chat/db/list");
     if ok response then
       result ← response_json response;
       success ← get result "success";
       if truthy success then
         data ← get result "data";
         emit (SetDatabases (or_else data (JArr [])))
       else mret tt
     else mret tt)
    (emit (ConsoleError "Failed to load databases:")).

(** The body of the [try] block: [true] when control falls out of the
    [try] statement, [false] when the handler returned. *)
Definition admin_gate : js bool :=
  response ← fetch net me_request;
  if ok response then
    result ← response_json response;
    data ← get result "data";
    let user := opt_prop data "user" in
    let permissions := opt_prop data "permissions" in
    if negb (truthy (opt_prop user "is_superuser"))
       && negb (truthy (opt_prop permissions "admin"))
    then
      emit (MessageError (JStr "Admin access required"));;
      emit (RouterPush "/");;
      mret false
    else mret true
  else
    emit (RouterPush "/login");;
    mret false.

Definition checkAdminAccess : js unit :=
  proceed ← try_catch admin_gate
              (emit (ConsoleError "Admin access check failed:");;
               emit (RouterPush "/login");;
               mret false);
  if proceed : bool then
    (* Load initial data *)
    emit (Spawn LoadUsers);;
    emit (Spawn LoadDatabases)
  else mret tt.
End Page.

End AdminUsersPage.

(** *** [pages/_app.tsx]: the layout's login check *)

Module App.
Import Js Browser.

Definition thirty_days_ms : Z := 30 * 24 * 60 * 60 * 1000.

Section LayoutWrapper.
Context `{Platform}.
Variable net : network.
(** [router.pathname], [router.asPath] and the reading of [Date.now()]. *)
Variables pathname asPath : string.
Variable now : Z.

(** [now - stored < 30 * 24 * 60 * 60 * 1000], false when [stored] is NaN. *)
Definition within_window (validTime : string) : bool :=
  match parseInt validTime with
  | Some stored => bool_decide (now - stored < thirty_days_ms)
  | None => false
  end.

(** The [try] block of [handleAuth]: [true] when it returned from the
    handler, [false] when control falls through to the redirect. *)
Definition authenticate_with_cookie : js bool :=
  response ← fetch net (GET "/api/v1/auth/me");
  if ok response then
    result ← response_json response;
    success ← get result "success";
    if truthy success then
      data ← get result "data";
      if truthy (opt_prop data "user") then
        user ← get data "user";
        setItem STORAGE_USERINFO_KEY (JSON_stringify user);;
        setItem STORAGE_USERINFO_VALID_TIME_KEY (number_toString now);;
        emit (SetIsLogin true);;
        mret true
      else mret false
    else mret false
  else mret false.

Definition handleAuth : js unit :=
  emit (SetIsLogin false);;
  (* Check if we're on the login page *)
  if bool_decide (pathname = "/login") then emit (SetIsLogin true)
  else
    (* Check for existing session *)
    userInfo ← getItem STORAGE_USERINFO_KEY;
    validTime ← getItem STORAGE_USERINFO_VALID_TIME_KEY;
    if some_truthy userInfo && some_truthy validTime
       && within_window (default EmptyString validTime)
    then emit (SetIsLogin true)
    else
      (* Try to authenticate with session cookie *)
      returned ← try_catch authenticate_with_cookie
                   (emit (ConsoleLog "Auth check failed:");; mret false);
      if returned : bool then mret tt
      else
        (* Redirect to login if not authenticated *)
        emit (RouterPush ("/login?redirect=" +:+ encodeURIComponent asPath)).
End LayoutWrapper.

End App.

(** *** The login page *)

Module LoginPage.
Import Js Browser.

Definition cookie_max_age : Z := 30 * 24 * 60 * 60.

(** The page imports its two storage keys from [@/utils/constants], which
    is [web/utils/constants.ts] (the layout names [@/utils/constants/index]
    instead). That module exports neither name, so in this page both are
    [undefined], and [localStorage.setItem] converts such a key to the
    string [undefined]. *)
Definition STORAGE_USERINFO_KEY : json := JUndefined.
Definition STORAGE_USERINFO_VALID_TIME_KEY : json := JUndefined.

Section Page.
Context `{Platform}.
Variable net : network.
(** [router.query.redirect] and the reading of [Date.now()]. *)
Variable redirect : option string.
Variable now : Z.

Definition session_cookie (session_id : json) : string :=
  "dbgpt_auth_session=" +:+ to_string session_id
    +:+ "; path=/; max-age=" +:+ number_toString cookie_max_age.

Definition login_request (values : json) : request :=
  POST "/api/v1/auth/login" false (JSON_stringify values).

Definition login_body (values : json) : js unit :=
  response ← fetch net (login_request values);
  result ← response_json response;
  success ← get result "success";
  data ← get result "data";
  if truthy success && truthy (opt_prop data "success") then
    let user := own data "user" in
    let session_id := own data "session_id" in
    (* Store user info and session *)
    setItem (to_string STORAGE_USERINFO_KEY) (JSON_stringify user);;
    setItem (to_string STORAGE_USERINFO_VALID_TIME_KEY) (number_toString now);;
    (* Set session cookie *)
    (if truthy session_id then emit (CookieSet (session_cookie session_id))
     else mret tt);;
    emit (MessageSuccess (JStr (i18n_t "Login successful")));;
    (* Redirect to home page or intended page *)
    emit (RouterPush (if some_truthy redirect
                      then default EmptyString redirect else "/"))
  else
    emit (MessageError (or_else (opt_prop data "message")
                                (JStr (i18n_t "Login failed")))).

Definition handleLogin (values : json) : js unit :=
  emit (SetLoading true);;
  try_finally
    (try_catch (login_body values)
       (emit (ConsoleError "Login error:");;
        emit (MessageError (JStr (i18n_t "Login failed")))))
    (emit (SetLoading false)).

(** The test the handler applies to a login response. *)
Definition login_succeeded (result : json) : bool :=
  truthy (own result "success") && truthy (opt_prop (own result "data") "success").

End Page.

End LoginPage.

(** ** Sample data *)

Module Fixtures.
Import Sql Schema Auth SessionManager Js Browser.

(** Sample values for the two storage keys, and stand-ins for the three
    built-ins. *)
Definition sample_platform : Platform := {|
  STORAGE_USERINFO_KEY := "__db_gpt_uinfo_key";
  STORAGE_USERINFO_VALID_TIME_KEY := "__db_gpt_uinfo_vt_key";
  JSON_stringify := to_string;
  encodeURIComponent := λ s, s;
  i18n_t := λ s, s
|}.

Definition sample_claims : claims := Claims 1 "sess-1" 1000 (1000 + thirty_days).

Definition sample_sign (key : string) (c : claims) : string :=
  key +:+ "." +:+ sessionId c +:+ "." +:+ number_toString (userId c)
    +:+ "." +:+ number_toString (issuedAt c)
    +:+ "." +:+ number_toString (expiresAt c).

(** A scheme that knows a single set of claims. *)
Definition sample_scheme : TokenScheme := {|
  sign := sample_sign;
  verify_signature := λ key tok,
    if bool_decide (tok = sample_sign key sample_claims) then Some sample_claims else None
|}.

Definition sample_config : config := default_config "secret".

Definition db_bootstrapped : database := default empty_db (bootstrap 0).

(** [alice], a regular user, registered after the bootstrap. *)
Definition db_with_alice : database :=
  (createUser 5 "alice" "alice@x.com" "c0ffee" "5a17" None 1 db_bootstrapped).2.

Definition alice_row : row := default [] (findById db_with_alice 2).

(** The administrator has logged in at time 1000. *)
Definition db_with_session : database :=
  (@issue sample_scheme sample_config 1000 "sess-1" (seeded_admin_row 0)
          (ClientMeta None None) db_with_alice).2.

Definition sample_session : row :=
  default [] (findSession db_with_session "sess-1").

Definition sample_token : string := sample_sign "secret" sample_claims.

(** Networks that give one answer to every request. *)
Definition answering (o : fetch_outcome) : network := λ _, o.

Definition login_answer (session_id : json) : json :=
  JObj [ ("success", JBool true);
         ("data", JObj [ ("success", JBool true);
                         ("user", JObj [("username", JStr "alice")]);
                         ("session_id", session_id);
                         ("token", JStr "eyJhbGciOiJIUzI1NiJ9.e30.abc") ]) ].


Definition login_form : json :=
  JObj [("username", JStr "alice"); ("password", JStr "longpassword1")].

Definition fresh_storage : gmap string string :=
  <["__db_gpt_uinfo_vt_key" := "1700000000000"]>
    (<["__db_gpt_uinfo_key" := "{}"]> ∅).

End Fixtures.

(** ** What the migration scripts guarantee: vocabulary *)

Module Migration.
Import Sql Schema.

(** The four table definitions of the up script, in creation order. *)
Definition auth_defs : list table_def :=
  [roles_def; users_def; user_db_access_def; sessions_def].

#[global] Instance sqltype_eq_dec : EqDecision sqltype.
Proof. solve_decision. Defined.
#[global] Instance column_eq_dec : EqDecision column.
Proof. solve_decision. Defined.
#[global] Instance table_constraint_eq_dec : EqDecision table_constraint.
Proof. solve_decision. Defined.
#[global] Instance table_def_eq_dec : EqDecision table_def.
Proof. solve_decision. Defined.

(** A statement that only adds: it creates one of the given tables or an
    index bearing one of the given names, or inserts into one of the given
    tables. *)
Definition adds_within (defs : list table_def) (indexes : list string) (s : stmt) : bool :=
  match s with
  | CreateTableIfNotExists td => bool_decide (td ∈ defs)
  | CreateIndexIfNotExists n _ _ => bool_decide (n ∈ indexes)
  | InsertOrIgnore tbl _ _ => bool_decide (tbl ∈ map td_name defs)
  | DropIndexIfExists _ | DropTableIfExists _ => false
  end.


(** [db'] holds everything [db] holds; only tables and indexes bearing one
    of the given names may be new or have grown. *)
Definition grown (tables indexes : list string) (db db' : database) : Prop :=
  (∀ n tb, db_tables db !! n = Some tb →
     ∃ tb', db_tables db' !! n = Some tb' ∧ tbl_def tb' = tbl_def tb
            ∧ tbl_rows tb `prefix_of` tbl_rows tb' ∧ (n ∉ tables → tb' = tb))
  ∧ (∀ n ix, db_indexes db !! n = Some ix → db_indexes db' !! n = Some ix)
  ∧ (∀ n, n ∉ tables → db_tables db !! n = None → db_tables db' !! n = None)
  ∧ (∀ n, n ∉ indexes → db_indexes db !! n = None → db_indexes db' !! n = None).

(** [db] lies between [db0] and its migrated form: off the auth names it is
    [db0], and a table bearing an auth name has the definition the up
    script gives it. *)
Definition partly_migrated (db0 db : database) : Prop :=
  (∀ n, n ∉ auth_tables → db_tables db !! n = db_tables db0 !! n)
  ∧ (∀ n, n ∉ auth_indexes → db_indexes db !! n = db_indexes db0 !! n)
  ∧ (∀ td tb, td ∈ auth_defs → db_tables db !! td_name td = Some tb → tbl_def tb = td).




End Migration.

(** *** Decimal digits *)

Module Numeral.
Import Js.

(** One of the characters [0] to [9]. *)
Definition is_digit (c : ascii) : Prop := ∃ d, 0 ≤ d < 10 ∧ c = digit_char d.

End Numeral.

(** *** What a run leaves behind *)

Module Layout.
Import Js Browser.

(** The state [isLogin] after the setters of a run, from its initial
    [useState(false)]. [LayoutWrapper] returns [null] while it is false and
    renders the page only when it is true. *)
Definition isLogin_after (t : list event) : bool :=
  foldl (λ acc e, match e with SetIsLogin b => b | _ => acc end) false t.

Definition navigations (b : browser) : list string :=
  omap (λ e, match e with RouterPush target => Some target | _ => None end) (trace b).

Definition error_messages (b : browser) : list json :=
  omap (λ e, match e with MessageError c => Some c | _ => None end) (trace b).

Definition success_messages (b : browser) : list json :=
  omap (λ e, match e with MessageSuccess c => Some c | _ => None end) (trace b).

Definition users_set (b : browser) : list json :=
  omap (λ e, match e with SetUsers v => Some v | _ => None end) (trace b).

Definition databases_set (b : browser) : list json :=
  omap (λ e, match e with SetDatabases v => Some v | _ => None end) (trace b).

Section StoredRecord.
Context `{Platform}.

(** A record of local storage that is not a fresh login at time [now]: the
    user text is missing or empty, or the time is missing, is ASCII text
    that [parseInt] reads no number from, or lies thirty days back or
    more. *)
Definition stale_record (now : Z) (storage : gmap string string) : Prop :=
  storage !! STORAGE_USERINFO_KEY = None
  ∨ storage !! STORAGE_USERINFO_KEY = Some EmptyString
  ∨ storage !! STORAGE_USERINFO_VALID_TIME_KEY = None
  ∨ ∃ validTime,
      storage !! STORAGE_USERINFO_VALID_TIME_KEY = Some validTime
      ∧ ((ascii_text validTime = true ∧ parseInt validTime = None)
         ∨ ∃ stored, parseInt validTime = Some stored
                     ∧ App.thirty_days_ms ≤ now - stored).
End StoredRecord.

End Layout.

(** *** Handlers that also change the state of their component

    The tabs of the login page and the modal of the admin page keep state
    of their own. What their handlers do is recorded as a list of actions:
    the events of [Browser], the setters of that state, [form.resetFields()]
    and the calls of [loadUserDatabases] that are not awaited. *)
Module Component.
Import Js Browser.

Inductive action :=
| Ev (e : event)
| SetActiveTab (key : string)
| SetSelectedUser (user : json)
| SetModalVisible (visible : bool)
| SetUserDatabases (v : json)
| ResetFields
| LoadUserDatabases (userId : json).

Record page := Page {
  store : gmap string string;
  log : list action
}.

Definition handler (A : Type) : Type := page → outcome A * page.

#[global] Instance handler_ret : MRet handler := λ A a p, (Done a, p).
#[global] Instance handler_bind : MBind handler := λ A B f m p,
  match m p with
  | (Done a, p') => f a p'
  | (Thrown, p') => (Thrown, p')
  end.

(** A computation of [Browser], run inside a handler: its events are
    appended in their order. *)
Definition lift {A} (m : js A) : handler A := λ p,
  match m (Browser (store p) []) with
  | (r, b) => (r, Page (localStorage b) (log p ++ map Ev (trace b)))
  end.

Definition act (a : action) : handler unit := λ p,
  (Done tt, Page (store p) (log p ++ [a])).

Definition raise {A} : handler A := λ p, (Thrown, p).

Definition try_catch {A} (body handle : handler A) : handler A := λ p,
  match body p with
  | (Done a, p') => (Done a, p')
  | (Thrown, p') => handle p'
  end.

Definition try_finally {A} (body : handler A) (finalizer : handler unit) : handler A := λ p,
  match body p with
  | (r, p') => match finalizer p' with
               | (Done _, p'') => (r, p'')
               | (Thrown, p'') => (Thrown, p'')
               end
  end.

Definition start {A} (m : handler A) (storage : gmap string string) : outcome A * page :=
  m (Page storage []).

Definition events (p : page) : list event :=
  omap (λ a, match a with Ev e => Some e | _ => None end) (log p).

Definition requests (p : page) : list request :=
  omap (λ a, match a with Ev (Fetch r) => Some r | _ => None end) (log p).

(** [a === b] on values as a form or a parsed body holds them. Two objects
    or two arrays are equal only when they are one and the same object;
    distinct fields of a form never are. *)
Definition strict_equal (a b : json) : bool :=
  match a, b with
  | JUndefined, JUndefined | JNull, JNull => true
  | JBool x, JBool y => bool_decide (x = y)
  | JNum x, JNum y => bool_decide (x = y)
  | JStr x, JStr y => bool_decide (x = y)
  | _, _ => false
  end.

(** [const { k, ...rest } = { fields }]: the other properties, in their
    order. *)
Definition omit (k : string) (fields : list (string * json)) : list (string * json) :=
  List.filter (λ kv, negb (bool_decide (kv.1 = k))) fields.

(** [fetch(r)] without [await]: the request goes out, and the promise will
    settle with what the network answers. *)
Definition fetch_promise (net : network) (r : request) : handler fetch_outcome :=
  act (Ev (Fetch r));; mret (net r).

Definition rejected (o : fetch_outcome) : bool :=
  match o with
  | NetworkError => true
  | Response _ _ => false
  end.

(** [await Promise.all(promises)] *)
Definition await_all (promises : list fetch_outcome) : handler unit :=
  if existsb rejected promises then raise else mret tt.

(** [v.map(f)]: a TypeError unless [v] is an array. *)
Definition array_map {A} (v : json) (f : json → handler A) : handler (list A) :=
  match v with
  | JArr items => mapM f items
  | _ => raise
  end.

End Component.

(** *** The register tab of the login page *)
Module RegisterTab.
Import Js Browser Component.

(** The handler's first test: [values.password === values.confirmPassword]. *)
Definition passwords_match (fields : list (string * json)) : bool :=
  strict_equal (own (JObj fields) "password") (own (JObj fields) "confirmPassword").

Section Page.
Context `{Platform}.
Variable net : network.

Definition register_request (fields : list (string * json)) : request :=
  POST "/api/v1/auth/register" false (JSON_stringify (JObj (omit "confirmPassword" fields))).

(** [values] is the object the form hands over; [fields] are its
    properties. *)
Definition handleRegister (fields : list (string * json)) : handler unit :=
  let values := JObj fields in
  if negb (strict_equal (own values "password") (own values "confirmPassword")) then
    act (Ev (MessageError (JStr (i18n_t "Passwords do not match"))))
  else
    act (Ev (SetLoading true));;
    try_finally
      (try_catch
         (response ← lift (fetch net (register_request fields));
          result ← lift (response_json response);
          success ← lift (get result "success");
          data ← lift (get result "data");
          if truthy success && truthy (opt_prop data "success") then
            act (Ev (MessageSuccess (JStr (i18n_t "Registration successful, please login"))));;
            act (SetActiveTab "login")
          else
            act (Ev (MessageError (or_else (opt_prop data "message")
                                           (JStr (i18n_t "Registration failed"))))))
         (act (Ev (ConsoleError "Registration error:"));;
          act (Ev (MessageError (JStr (i18n_t "Registration failed"))))))
      (act (Ev (SetLoading false))).
End Page.

End RegisterTab.

(** *** The database-access modal of [pages/admin/users.tsx] *)
Module AccessModal.
Import Js Browser Component.

Section Page.
Context `{Platform}.
Variable net : network.
(** The state [selectedUser]: a user of the table, or [null]. *)
Variable selectedUser : json.

Definition loadUserDatabases (userId : json) : handler unit :=
  try_catch
    (response ← lift (fetch net
        (GET ("/api/v1/auth/database-access?user_id=" +:+ to_string userId)));
     if ok response then
       result ← lift (response_json response);
       success ← lift (get result "success");
       if truthy success then
         data ← lift (get result "data");
         databases ← lift (get data "databases");
         act (SetUserDatabases databases)
       else mret tt
     else mret tt)
    (act (Ev (ConsoleError "Failed to load user databases:"))).

Definition handleManageDatabases (user : json) : handler unit :=
  act (SetSelectedUser user);;
  act (SetModalVisible true);;
  id ← lift (get user "id");
  act (LoadUserDatabases id).

Definition access_body (dbName : json) : string :=
  JSON_stringify (JObj [ ("user_id", own selectedUser "id"); ("db_name", dbName) ]).

Definition grant_request (dbName : json) : request :=
  POST "/api/v1/auth/database-access/grant" true (access_body dbName).

Definition revoke_request (dbName : json) : request :=
  POST "/api/v1/auth/database-access/revoke" true (access_body dbName).

Definition handleGrantAccess (values : json) : handler unit :=
  if negb (truthy selectedUser) then mret tt
  else
    try_catch
      (databases ← lift (get values "databases");
       promises ← array_map databases (λ dbName, fetch_promise net (grant_request dbName));
       await_all promises;;
       act (Ev (MessageSuccess (JStr "Database access granted successfully")));;
       act (LoadUserDatabases (own selectedUser "id"));;
       act ResetFields)
      (act (Ev (ConsoleError "Failed to grant database access:"));;
       act (Ev (MessageError (JStr "Failed to grant database access")))).

Definition handleRevokeAccess (dbName : json) : handler unit :=
  if negb (truthy selectedUser) then mret tt
  else
    try_catch
      (response ← lift (fetch net (revoke_request dbName));
       if ok response then
         act (Ev (MessageSuccess (JStr "Database access revoked successfully")));;
         act (LoadUserDatabases (own selectedUser "id"))
       else
         act (Ev (MessageError (JStr "Failed to revoke database access"))))
      (act (Ev (ConsoleError "Failed to revoke database access:"));;
       act (Ev (MessageError (JStr "Failed to revoke database access")))).
End Page.

End AccessModal.

(** *** [CssWrapper]: the theme class of the page body *)
Module Theme.
Import Js.

(** The first effect of [CssWrapper], on [document.body.classList]: the
    classes are a set of tokens. [mode] is the theme of the chat context. *)
Definition applyMode (mode : option string) (classList : gset string) : gset string :=
  if some_truthy mode then
    let m := default EmptyString mode in
    let added := classList ∪ {[ m ]} in
    if bool_decide (m = "light") then added ∖ {[ "dark" ]} else added ∖ {[ "light" ]}
  else classList.

End Theme.

(** ** [web/utils/constants.ts]: the icon of a model *)
Module ModelIcons.

Definition DEFAULT_ICON_URL : string := "/datainsights-service/models/huggingface.svg".

Record ModelIconInfo := ModelIconInfo_of {
  label : string;
  icon : string;
  patterns : list string
}.

(** The object literal, its properties in the order they are written:
    [for (const key in MODEL_ICON_INFO)] visits them in this order. *)
Definition MODEL_ICON_INFO : list (string * ModelIconInfo) :=
  [
    ("deepseek", ModelIconInfo_of "DeepSeek"
       "/datainsights-service/models/deepseek.png"
       ["deepseek"; "r1"]);
    ("qwen", ModelIconInfo_of "Qwen"
       "/datainsights-service/models/qwen2.png"
       ["qwen"; "qwen2"; "qwen2.5"; "qwq"; "qvq"]);
    ("gemini", ModelIconInfo_of "Gemini"
       "/datainsights-service/models/gemini.png"
       ["gemini"]);
    ("moonshot", ModelIconInfo_of "Moonshot"
       "/datainsights-service/models/moonshot.png"
       ["moonshot"; "kimi"]);
    ("doubao", ModelIconInfo_of "Doubao"
       "/datainsights-service/models/doubao.png"
       ["doubao"]);
    ("ernie", ModelIconInfo_of "ERNIE"
       "/datainsights-service/models/ernie.png"
       ["ernie"]);
    ("proxyllm", ModelIconInfo_of "Proxy LLM"
       "/datainsights-service/models/chatgpt.png"
       ["proxy"]);
    ("chatgpt", ModelIconInfo_of "ChatGPT"
       "/datainsights-service/models/chatgpt.png"
       ["chatgpt"; "gpt"; "o1"; "o3"]);
    ("vicuna", ModelIconInfo_of "Vicuna"
       "/datainsights-service/models/vicuna.jpeg"
       ["vicuna"]);
    ("chatglm", ModelIconInfo_of "ChatGLM"
       "/datainsights-service/models/chatglm.png"
       ["chatglm"; "glm"]);
    ("llama", ModelIconInfo_of "Llama"
       "/datainsights-service/models/llama.jpg"
       ["llama"; "llama2"; "llama3"]);
    ("baichuan", ModelIconInfo_of "Baichuan"
       "/datainsights-service/models/baichuan.png"
       ["baichuan"]);
    ("claude", ModelIconInfo_of "Claude"
       "/datainsights-service/models/claude.png"
       ["claude"]);
    ("bard", ModelIconInfo_of "Bard"
       "/datainsights-service/models/bard.gif"
       ["bard"]);
    ("tongyi", ModelIconInfo_of "Tongyi"
       "/datainsights-service/models/tongyi.apng"
       ["tongyi"]);
    ("yi", ModelIconInfo_of "Yi"
       "/datainsights-service/models/yi.svg"
       ["yi"]);
    ("bailing", ModelIconInfo_of "Bailing"
       "/datainsights-service/models/bailing.svg"
       ["bailing"]);
    ("wizardlm", ModelIconInfo_of "WizardLM"
       "/datainsights-service/models/wizardlm.png"
       ["wizard"]);
    ("internlm", ModelIconInfo_of "InternLM"
       "/datainsights-service/models/internlm.png"
       ["internlm"]);
    ("solar", ModelIconInfo_of "Solar"
       "/datainsights-service/models/solar_logo.png"
       ["solar"]);
    ("gorilla", ModelIconInfo_of "Gorilla"
       "/datainsights-service/models/gorilla.png"
       ["gorilla"]);
    ("zhipu", ModelIconInfo_of "Zhipu"
       "/datainsights-service/models/zhipu.png"
       ["zhipu"]);
    ("falcon", ModelIconInfo_of "Falcon"
       "/datainsights-service/models/falcon.jpeg"
       ["falcon"]);
    ("huggingface", ModelIconInfo_of "Hugging Face"
       "/datainsights-service/models/huggingface.svg"
       ["huggingface"; "hf"])
  ].

(** [MODEL_ICON_INFO[k]] for an own property. (The inherited ones, such as
    [constructor], have neither [label] nor [icon], so that the two direct
    lookups skip them.) *)
Fixpoint lookup_info (entries : list (string * ModelIconInfo)) (k : string)
  : option ModelIconInfo :=
  match entries with
  | [] => None
  | (k', info) :: entries' =>
      if bool_decide (k' = k) then Some info else lookup_info entries' k
  end.

(** [toLowerCase] on ASCII text: model ids, keys and patterns are ASCII. *)
Definition lower_char (c : ascii) : ascii :=
  let n := nat_of_ascii c in
  if bool_decide (65 ≤ n ≤ 90)%nat then ascii_of_nat (n + 32) else c.

Fixpoint toLowerCase (s : string) : string :=
  match s with
  | EmptyString => EmptyString
  | String c s' => String (lower_char c) (toLowerCase s')
  end.

Definition ascii_only (s : string) : bool :=
  forallb (λ c, bool_decide (nat_of_ascii c < 128)%nat) (list_ascii_of_string s).

(** [s.includes(p)] *)
Fixpoint includes (s p : string) : bool :=
  String.prefix p s
  || match s with
     | EmptyString => false
     | String _ s' => includes s' p
     end.

(** [s.split(/[-_]/)[0]] *)
Fixpoint first_part (s : string) : string :=
  match s with
  | EmptyString => EmptyString
  | String c s' =>
      if bool_decide (c = "-"%char ∨ c = "_"%char) then EmptyString
      else String c (first_part s')
  end.

Definition matches_pattern (formattedModelId : string) (info : ModelIconInfo) : bool :=
  existsb (λ pattern, includes formattedModelId (toLowerCase pattern)) (patterns info).

Definition non_empty (s : string) : bool := bool_decide (s ≠ EmptyString).

(** [MODEL_ICON_INFO[modelId]?.icon] when it is truthy. *)
Definition direct_icon (modelId : string) : option string :=
  info ← lookup_info MODEL_ICON_INFO modelId;
  if non_empty (icon info) then Some (icon info) else None.

(** Steps 2 and 3 of [getModelIcon]: their result depends on the formatted
    id only. *)
Definition icon_by_patterns (formattedModelId : string) : string :=
  (* 2. Try to match by patterns *)
  match List.find (λ entry, matches_pattern formattedModelId entry.2) MODEL_ICON_INFO with
  | Some entry => icon entry.2
  | None =>
      (* Try to match by the model prefix *)
      let modelPrefix := first_part formattedModelId in
      match List.find (λ entry, bool_decide (modelPrefix = toLowerCase entry.1))
                      MODEL_ICON_INFO with
      | Some entry => icon entry.2
      | None => DEFAULT_ICON_URL
      end
  end.

Definition getModelIcon (modelId : string) : string :=
  if negb (non_empty modelId) then DEFAULT_ICON_URL
  else
    (* Format the model ID for matching *)
    let formattedModelId := toLowerCase modelId in
    (* 1. Try to match directly *)
    match direct_icon modelId with
    | Some url => url
    | None => icon_by_patterns formattedModelId
    end.

(** [MODEL_ICON_INFO[modelId]?.label] when it is truthy. *)
Definition direct_label (modelId : string) : option string :=
  info ← lookup_info MODEL_ICON_INFO modelId;
  if non_empty (label info) then Some (label info) else None.

Section Label.
(** [modelId.match(re)?.[1]] for the two expressions of [getModelLabel]:
    [/[-_](\d+b|\d+\.\d+b?|v\d+(\.\d+)?)/i] and [/[-_](\d+b)/i]. *)
Variable version_tag : string → option string.
Variable size_tag : string → option string.

Definition getModelLabel (modelId : string) : string :=
  if negb (non_empty modelId) then EmptyString
  else
    (* 1. Try to match directly *)
    match direct_label modelId with
    | Some name => name
    | None =>
        (* 2. Try to match by patterns to get the base name, then add version
           information *)
        let formattedModelId := toLowerCase modelId in
        match List.find (λ entry, matches_pattern formattedModelId entry.2)
                        MODEL_ICON_INFO with
        | Some entry =>
            (* Try to extract version information from the model ID *)
            let versionMatch := version_tag modelId in
            let sizePart := size_tag modelId in
            (* Build the display name *)
            let displayName := label entry.2 in
            (* Add version information *)
            let displayName :=
              match versionMatch, sizePart with
              | Some version, None => displayName +:+ " " +:+ version
              | _, _ => displayName
              end in
            (* Add size information *)
            match sizePart with
            | Some size => displayName +:+ " " +:+ size
            | None => displayName
            end
        | None =>
            (* If no match *)
            modelId
        end
    end.
End Label.

End ModelIcons.

(** ** Further sample data *)
Module Scenarios.
Import Sql Schema Migration Js Browser.

(** A database that was in use before the migration: it has a table of its
    own, and a roles table in which [admin] came first. *)
Definition projects_def : table_def :=
  TableDef "projects"
    [ Column "id" TInteger [PrimaryKeyAutoincrement];
      Column "title" TText [NotNull] ]
    [].

Definition db_projects : database :=
  default empty_db
    (exec_script 0
       [ CreateTableIfNotExists projects_def;
         InsertOrIgnore "projects" ["title"] [ [ELit (VText "demo")] ] ]
       empty_db).

Definition db_legacy : database :=
  default empty_db
    (exec_script 0
       [ CreateTableIfNotExists roles_def;
         CreateTableIfNotExists users_def;
         InsertOrIgnore roles_table ["name"; "description"]
           [ [ELit (VText "admin"); ELit (VText "Site administrators")];
             [ELit (VText "auditor"); ELit VNull] ] ]
       db_projects).


Definition db_legacy_migrated : database :=
  default empty_db (exec_script 5 up_script db_legacy).



(** An answer that refuses with a message of its own. *)
Definition refusal (message : string) : json :=
  JObj [ ("success", JBool true);
         ("data", JObj [ ("success", JBool false); ("message", JStr message) ]) ].

Definition register_form : list (string * json) :=
  [ ("username", JStr "carol"); ("email", JStr "carol@x.com");
    ("full_name", JUndefined); ("password", JStr "longpassword1");
    ("confirmPassword", JStr "longpassword1") ].

End Scenarios.

(** * Properties *)

(** Membership in a list that is given element by element. *)
Ltac in_list :=
  vm_compute; repeat first [apply list_elem_of_here | apply list_elem_of_further].

(** Unfolding the handler monad down to the browser state. *)
Ltac js_unfold :=
  unfold Browser.run, Browser.try_catch, Browser.try_finally, Browser.emit,
    Browser.fetch, Browser.response_json, Browser.get, Browser.getItem,
    Browser.setItem, Browser.throw, mbind, Browser.js_bind, mret,
    Browser.js_ret in *.

Ltac js_simpl := js_unfold; cbn [fst snd Browser.ok Browser.parsed
  Browser.localStorage Browser.trace app negb andb orb] in *.

(** ** Rows, constraints and single statements *)

Module SqlFacts.
Import Sql.

Lemma row_get_set_eq (r : row) (c : string) (v : value) :
  c ∈ map fst r → row_get (row_set r c v) c = v.
Proof.
  induction r as [|[k w] r IH]; cbn; [by intros ?%elem_of_nil|].
  intros Hin. case_bool_decide as Hk; cbn.
  - by rewrite bool_decide_eq_true_2.
  - rewrite bool_decide_eq_false_2 by done. apply IH.
    apply elem_of_cons in Hin as [?|?]; [congruence|done].
Qed.

Lemma row_get_set_ne (r : row) (c c' : string) (v : value) :
  c ≠ c' → row_get (row_set r c v) c' = row_get r c'.
Proof.
  intros Hne. induction r as [|[k w] r IH]; cbn; [done|].
  case_bool_decide as Hk; cbn.
  - subst k. by rewrite !bool_decide_eq_false_2.
  - case_bool_decide; [done|apply IH].
Qed.

Lemma row_set_columns (r : row) (c : string) (v : value) :
  map fst (row_set r c v) = map fst r.
Proof.
  induction r as [|[k w] r IH]; cbn; [done|].
  case_bool_decide; cbn; by rewrite ?IH.
Qed.

Lemma row_shaped_column (td : table_def) (r : row) (c : string) :
  row_shaped td r = true → c ∈ map col_name (td_columns td) → c ∈ map fst r.
Proof. intros Hs%bool_decide_eq_true Hc. by rewrite Hs. Qed.

Lemma rows_of_lookup (db : database) (tbl : string) (tb : table) :
  db_tables db !! tbl = Some tb → rows_of db tbl = tbl_rows tb.
Proof. intros Ht. unfold rows_of. by rewrite Ht. Qed.

Lemma find_existsb {A} (p : A → bool) (l : list A) (x : A) :
  List.find p l = Some x → existsb p l = true.
Proof.
  intros Hf. apply find_some in Hf as [Hin Hp].
  apply existsb_exists. eauto.
Qed.

Lemma existsb_false {A} (p : A → bool) (l : list A) :
  (∀ x, In x l → p x = false) → existsb p l = false.
Proof.
  intros Hp. destruct (existsb p l) eqn:Hex; [|done].
  apply existsb_exists in Hex as (x & Hin & Hx). by rewrite (Hp x Hin) in Hx.
Qed.

Lemma filter_nil_existsb {A} (p : A → bool) (l : list A) :
  List.filter p l = [] → existsb p l = false.
Proof.
  induction l as [|x l IH]; cbn; [done|].
  destruct (p x); [done|]. exact IH.
Qed.

Lemma filter_cons_existsb {A} (p : A → bool) (l : list A) (x : A) (k : list A) :
  List.filter p l = x :: k → existsb p l = true.
Proof.
  intros Hf. apply existsb_exists. exists x.
  assert (In x (List.filter p l)) as Hin by (rewrite Hf; by left).
  by apply filter_In in Hin.
Qed.

Lemma filter_nil_conj {A} (p q : A → bool) (l : list A) :
  List.filter p l = [] → List.filter (λ x, p x && q x) l = [].
Proof.
  induction l as [|x l IH]; cbn; [done|].
  destruct (p x); [done|]. exact IH.
Qed.

Lemma find_app_none {A} (p : A → bool) (l : list A) (x : A) :
  List.find p l = None → List.find p (l ++ [x]) = if p x then Some x else None.
Proof.
  induction l as [|y l IH]; cbn; [done|].
  destruct (p y); [done|]. exact IH.
Qed.

Lemma forallb_map_compose {A B} (p : B → bool) (g : A → B) (l : list A) :
  forallb p (map g l) = forallb (λ x, p (g x)) l.
Proof. induction l as [|x l IH]; cbn; [done|]. by rewrite IH. Qed.

Lemma forallb_pointwise {A} (p q : A → bool) (l : list A) :
  (∀ x, p x = q x) → forallb p l = forallb q l.
Proof. intros Hpq. induction l as [|x l IH]; cbn; [done|]. by rewrite Hpq, IH. Qed.

Lemma agree_on_sym (key : list string) (a b : row) :
  agree_on key a b = agree_on key b a.
Proof.
  unfold agree_on. induction key as [|c key IH]; cbn; [done|].
  rewrite IH. f_equal.
  repeat case_bool_decide; cbn; try done; congruence.
Qed.

Lemma agree_on_ext (key : list string) (a a' b b' : row) :
  (∀ c, c ∈ key → row_get a' c = row_get a c) →
  (∀ c, c ∈ key → row_get b' c = row_get b c) →
  agree_on key a' b' = agree_on key a b.
Proof.
  unfold agree_on. induction key as [|c key IH]; cbn; [done|].
  intros Ha Hb. rewrite (Ha c), (Hb c) by apply list_elem_of_here.
  rewrite IH; [done| |]; intros c' Hc'.
  - apply Ha. by apply list_elem_of_further.
  - apply Hb. by apply list_elem_of_further.
Qed.

(** A row that collides with none of the stored ones can join them. *)
Lemma no_collision_snoc (key : list string) (rows : list row) (r : row) :
  no_collision key rows = true →
  existsb (agree_on key r) rows = false →
  no_collision key (rows ++ [r]) = true.
Proof.
  induction rows as [|r0 rows IH]; cbn; [done|].
  intros [H0 Hrows]%andb_true_iff [Hr0 Hr]%orb_false_iff.
  rewrite forallb_app, H0, (IH Hrows Hr). cbn.
  by rewrite agree_on_sym, Hr0.
Qed.

(** An update that leaves the key columns alone keeps the rows apart. *)
Lemma no_collision_map (key : list string) (g : row → row) (rows : list row) :
  (∀ r c, c ∈ key → row_get (g r) c = row_get r c) →
  no_collision key (map g rows) = no_collision key rows.
Proof.
  intros Hg. induction rows as [|r rows IH]; cbn; [done|].
  rewrite IH. f_equal. rewrite forallb_map_compose. apply forallb_pointwise. intros r'.
  f_equal. apply agree_on_ext; intros c Hc; by apply Hg.
Qed.

Lemma violates_unique_false (td : table_def) (rows : list row) (r : row)
    (key : list string) :
  violates_unique td rows r = false → key ∈ unique_keys td →
  existsb (agree_on key r) rows = false.
Proof.
  unfold violates_unique. intros Hv Hk%list_elem_of_In.
  destruct (existsb (agree_on key r) rows) eqn:He; [|done].
  assert (existsb (λ key, existsb (agree_on key r) rows) (unique_keys td) = true) as Hc
    by (apply existsb_exists; eauto).
  congruence.
Qed.

Lemma violates_unique_intro (td : table_def) (rows : list row) (r r' : row)
    (key : list string) :
  key ∈ unique_keys td → r' ∈ rows → agree_on key r r' = true →
  violates_unique td rows r = true.
Proof.
  intros Hk Hr Ha. unfold violates_unique.
  apply existsb_exists. exists key. split; [by apply list_elem_of_In|].
  apply existsb_exists. exists r'. split; [by apply list_elem_of_In|done].
Qed.

(** An insert that passes the two checks appends the filled row. *)
Lemma insert_row_ok (now : Z) (tbl : string) (given : row) (db : database)
    (tb : table) (r : row) :
  db_tables db !! tbl = Some tb →
  fill_row now tb given = r →
  violates_not_null (tbl_def tb) r = false →
  violates_unique (tbl_def tb) (tbl_rows tb) r = false →
  insert_row now tbl given db =
  Inserted (Database (<[tbl := Table (tbl_def tb) (tbl_rows tb ++ [r]) (tbl_seq tb + 1)]>
                        (db_tables db)) (db_indexes db)) r.
Proof.
  intros Ht <- Hn Hu. unfold insert_row. rewrite Ht. cbn zeta.
  by rewrite Hn, Hu.
Qed.

Lemma exec_script_step (now : Z) (s : stmt) (k : list stmt) (db db' : database) :
  exec_stmt now s db = Some db' → exec_script now (s :: k) db = exec_script now k db'.
Proof. intros Hs. cbn. by rewrite Hs. Qed.

Lemma exec_create_table_fresh (now : Z) (td : table_def) (db : database) :
  db_tables db !! td_name td = None →
  exec_stmt now (CreateTableIfNotExists td) db
  = Some (Database (<[td_name td := Table td [] 0]> (db_tables db)) (db_indexes db)).
Proof. intros Hf. cbn. by rewrite Hf. Qed.

Lemma exec_create_index_fresh (now : Z) (name tbl col : string) (db : database)
    (tb : table) :
  db_indexes db !! name = None →
  db_tables db !! tbl = Some tb →
  has_column (tbl_def tb) col = true →
  exec_stmt now (CreateIndexIfNotExists name tbl col) db
  = Some (Database (db_tables db) (<[name := IndexDef tbl col]> (db_indexes db))).
Proof. intros Hi Ht Hc. cbn. rewrite Hi, Ht. cbn. by rewrite Hc. Qed.

Lemma exec_drop_index (now : Z) (name : string) (db : database) :
  exec_stmt now (DropIndexIfExists name) db
  = Some (Database (db_tables db) (delete name (db_indexes db))).
Proof. done. Qed.

Lemma exec_drop_table (now : Z) (name : string) (db : database) (tb : table) :
  db_tables db !! name = Some tb →
  exec_stmt now (DropTableIfExists name) db
  = Some (Database (delete name (db_tables db))
                   (filter (λ kv, ix_table kv.2 ≠ name) (db_indexes db))).
Proof. intros Ht. cbn. by rewrite Ht. Qed.

End SqlFacts.

(** ** The migration scripts *)

Module MigrationFacts.
Import Sql Schema SqlFacts.

Lemma exec_seed_roles (now : Z) (db : database) :
  db_tables db !! roles_table = Some (Table roles_def [] 0) →
  exec_stmt now seed_roles db
  = Some (Database (<[roles_table := Table roles_def (seeded_role_rows now) 2]> (db_tables db))
                   (db_indexes db)).
Proof.
  intros Ht. unfold seed_roles.
  cbn [exec_stmt insert_or_ignore mapM eval_expr mbind option_bind mret option_ret].
  cbn [length zip zip_with bool_decide negb].
  rewrite !bool_decide_eq_true_2 by done. cbn [negb].
  erewrite insert_row_ok; [|exact Ht|vm_compute; reflexivity..].
  erewrite insert_row_ok;
    [|apply lookup_insert_eq|vm_compute; reflexivity..].
  cbn [db_tables db_indexes tbl_def tbl_rows tbl_seq].
  by rewrite insert_insert_eq.
Qed.

Lemma exec_seed_admin (now : Z) (db : database) :
  db_tables db !! roles_table = Some (Table roles_def (seeded_role_rows now) 2) →
  db_tables db !! users_table = Some (Table users_def [] 0) →
  exec_stmt now seed_admin db
  = Some (Database (<[users_table := Table users_def [seeded_admin_row now] 1]> (db_tables db))
                   (db_indexes db)).
Proof.
  intros Hr Hu. unfold seed_admin.
  cbn [exec_stmt insert_or_ignore mapM eval_expr mbind option_bind mret option_ret].
  rewrite Hr.
  cbn [exec_stmt insert_or_ignore mapM eval_expr mbind option_bind mret option_ret tbl_rows].
  change (List.find _ (seeded_role_rows now)) with (Some (hd [] (tl (seeded_role_rows now)))).
  cbn [length zip zip_with].
  rewrite !bool_decide_eq_true_2 by done. cbn [negb].
  by erewrite insert_row_ok with (r := seeded_admin_row now);
    [ |exact Hu|vm_compute; reflexivity..].
Qed.

(** What [unrelated] says, statement by statement. *)
Lemma unrelated_spec (db : database) :
  unrelated db = true →
  (∀ n, n ∈ auth_tables → db_tables db !! n = None)
  ∧ (∀ n, n ∈ auth_indexes → db_indexes db !! n = None)
  ∧ (∀ name, name ∈ auth_tables →
       map_Forall (λ n tb, n = name ∨ references name (tbl_def tb) = false) (db_tables db))
  ∧ (∀ name, name ∈ auth_tables →
       filter (λ kv : string * index_def, ix_table kv.2 ≠ name) (db_indexes db)
       = db_indexes db).
Proof.
  unfold unrelated.
  intros [[[HT HI]%andb_true_iff Href%bool_decide_eq_true]%andb_true_iff
          Hix%bool_decide_eq_true]%andb_true_iff.
  rewrite forallb_forall in HT. rewrite forallb_forall in HI.
  repeat split.
  - intros n Hn%list_elem_of_In. specialize (HT n Hn).
    by apply bool_decide_eq_true in HT.
  - intros n Hn%list_elem_of_In. specialize (HI n Hn).
    by apply bool_decide_eq_true in HI.
  - intros name Hname%list_elem_of_In i tb Hi. right.
    specialize (Href i tb Hi). cbn beta in Href. rewrite forallb_forall in Href.
    specialize (Href name Hname). by apply negb_true_iff in Href.
  - intros name Hname%list_elem_of_In. apply map_filter_id. intros i ix Hi.
    specialize (Hix i ix Hi). cbn beta in Hix. rewrite forallb_forall in Hix.
    specialize (Hix name Hname). by apply bool_decide_eq_true in Hix.
Qed.

Ltac fresh_name H := apply H; in_list.

(** The up script, run where the auth names are free, creates the four
    tables, seeds them and creates the eight indexes. *)
Lemma up_script_runs (now : Z) (T : gmap string table) (I : gmap string index_def) :
  (∀ n, n ∈ auth_tables → T !! n = None) →
  (∀ n, n ∈ auth_indexes → I !! n = None) →
  exec_script now up_script (Database T I)
  = Some (Database (migrated_tables now T) (migrated_indexes I)).
Proof.
  intros HT HI.
  assert (T !! roles_table = None) as Hr by fresh_name HT.
  assert (T !! users_table = None) as Hu by fresh_name HT.
  assert (T !! user_db_access_table = None) as Ha by fresh_name HT.
  assert (T !! sessions_table = None) as Hs by fresh_name HT.
  unfold up_script.
  do 4 (erewrite exec_script_step;
        [|apply exec_create_table_fresh; cbn; by simplify_map_eq]).
  cbn [db_tables db_indexes td_name roles_def users_def user_db_access_def sessions_def].
  erewrite exec_script_step; [|apply exec_seed_roles; cbn; by simplify_map_eq].
  cbn [db_tables db_indexes].
  erewrite exec_script_step; [|apply exec_seed_admin; cbn; by simplify_map_eq].
  cbn [db_tables db_indexes].
  do 8 (erewrite exec_script_step;
        [|eapply exec_create_index_fresh; cbn [db_tables db_indexes];
          [simplify_map_eq; fresh_name HI|by simplify_map_eq|vm_compute; reflexivity]];
        cbn [db_tables db_indexes]).
  cbn [exec_script]. f_equal. f_equal.
  unfold migrated_tables. apply map_eq. intros k.
  destruct (decide (k = users_table)) as [->|]; [by simplify_map_eq|].
  destruct (decide (k = roles_table)) as [->|]; [by simplify_map_eq|].
  destruct (decide (k = sessions_table)) as [->|]; [by simplify_map_eq|].
  destruct (decide (k = user_db_access_table)) as [->|]; by simplify_map_eq.
Qed.


(** The four tables, as the up script leaves them, respect their
    constraints. *)
Lemma bootstrap_tables_ok (now : Z) (n : string) (tb : table) :
  migrated_tables now ∅ !! n = Some tb → table_ok tb = true.
Proof.
  unfold migrated_tables. intros Hn.
  destruct (decide (n = sessions_table)) as [->|];
    [rewrite lookup_insert_eq in Hn; injection Hn as <-; vm_compute; reflexivity|].
  rewrite lookup_insert_ne in Hn by done.
  destruct (decide (n = user_db_access_table)) as [->|];
    [rewrite lookup_insert_eq in Hn; injection Hn as <-; vm_compute; reflexivity|].
  rewrite lookup_insert_ne in Hn by done.
  destruct (decide (n = users_table)) as [->|];
    [rewrite lookup_insert_eq in Hn; injection Hn as <-; vm_compute; reflexivity|].
  rewrite lookup_insert_ne in Hn by done.
  destruct (decide (n = roles_table)) as [->|];
    [rewrite lookup_insert_eq in Hn; injection Hn as <-; vm_compute; reflexivity|].
  rewrite lookup_insert_ne in Hn by done. by rewrite lookup_empty in Hn.
Qed.



End MigrationFacts.

(** ** The seeded password hash *)

Module HasherFacts.
Import Schema Hasher.

Lemma hex_digit_is_hex (n : N) : is_hex_char (hex_digit n) = true.
Proof.
  unfold is_hex_char, hex_digit. apply bool_decide_eq_true.
  destruct (nth_in_or_default (N.to_nat n) hex_digits "0"%char) as [Hin| ->].
  - by apply list_elem_of_In.
  - in_list.
Qed.

Lemma hexlify_is_hex (bs : list Byte.byte) :
  forallb is_hex_char (list_ascii_of_string (hexlify bs)) = true.
Proof.
  induction bs as [|b bs IH]; [done|].
  cbn [hexlify list_ascii_of_string forallb].
  by rewrite !hex_digit_is_hex, IH.
Qed.

Lemma hexlify_length (bs : list Byte.byte) :
  String.length (hexlify bs) = (2 * length bs)%nat.
Proof. induction bs as [|b bs IH]; cbn; [done|]. rewrite IH. lia. Qed.

Lemma mismatches_zero (a b : list ascii) : mismatches a b = 0%nat → a = b.
Proof.
  revert b. induction a as [|x a IH]; intros [|y b]; cbn; try done.
  case_bool_decide; [|done]. intros Hm. subst y. f_equal. by apply IH.
Qed.

Lemma mismatches_refl (a : list ascii) : mismatches a a = 0%nat.
Proof. induction a as [|x a IH]; cbn; [done|]. by rewrite bool_decide_eq_true_2. Qed.

Lemma constant_time_eq_true (a b : string) : constant_time_eq a b = true → a = b.
Proof.
  unfold constant_time_eq. intros Hm%bool_decide_eq_true.
  apply mismatches_zero in Hm.
  rewrite <- (string_of_list_ascii_of_string a), <- (string_of_list_ascii_of_string b).
  by rewrite Hm.
Qed.

(** [verify] does accept the hash that [derive] produces. *)
Lemma verify_derived pbkdf2_hmac (password : string) (salt : list Byte.byte) :
  verify pbkdf2_hmac password (derive pbkdf2_hmac password salt) salt = true.
Proof.
  unfold verify, constant_time_eq. apply bool_decide_eq_true, mismatches_refl.
Qed.

(** C3. The password hash seeded for the administrator is not a hex-encoded
    SHA-256 digest: it has 70 characters, not 64, and not all of them are
    hexadecimal digits. Hence no byte string has it as its hex text, for no
    salt (and no password) is it the output of the stated derivation, and
    verifying the documented default password against it fails for every
    salt. *)
Theorem seed_password_hash_is_no_digest :
  String.length seed_password_hash = 70%nat
  ∧ forallb is_hex_char (list_ascii_of_string seed_password_hash) = false
  ∧ is_hex_sha256_digest seed_password_hash = false
  ∧ (∀ bs : list Byte.byte, hexlify bs ≠ seed_password_hash)
  ∧ (∀ pbkdf2_hmac password salt, derive pbkdf2_hmac password salt ≠ seed_password_hash)
  ∧ (∀ pbkdf2_hmac salt, verify pbkdf2_hmac seed_password seed_password_hash salt = false).
Proof.
  assert (Hbad : forallb is_hex_char (list_ascii_of_string seed_password_hash) = false)
    by (vm_compute; reflexivity).
  assert (Hhex : ∀ bs, hexlify bs ≠ seed_password_hash).
  { intros bs Heq. pose proof (hexlify_is_hex bs) as Hok. rewrite Heq in Hok. congruence. }
  repeat split; try done.
  - intros pbkdf2_hmac password salt. apply Hhex.
  - intros pbkdf2_hmac salt. unfold verify.
    destruct (constant_time_eq _ _) eqn:Hct; [|done].
    apply constant_time_eq_true in Hct. by apply Hhex in Hct.
Qed.

End HasherFacts.

(** ** The permission matrix *)

Module PermissionFacts.
Import Sql Schema Auth.

Lemma bootstrap_succeeds (now : Z) :
  bootstrap now = Some (Database (migrated_tables now ∅) (migrated_indexes ∅)).
Proof.
  unfold bootstrap, empty_db.
  apply (MigrationFacts.up_script_runs now ∅ ∅); intros n _; apply lookup_empty.
Qed.

(** The role rows of a bootstrapped database are the seeded ones. *)
Lemma bootstrap_roles (now : Z) :
  rows_of (default empty_db (bootstrap now)) roles_table = seeded_role_rows now.
Proof.
  rewrite bootstrap_succeeds.
  change (rows_of (Database (migrated_tables now ∅) (migrated_indexes ∅)) roles_table
          = seeded_role_rows now).
  unfold rows_of, migrated_tables. cbn [db_tables].
  rewrite !lookup_insert_ne by done. by rewrite lookup_insert_eq.
Qed.

Lemma seeded_role_lookup (now : Z) (db : database) (rid : Z) :
  rows_of db roles_table = seeded_role_rows now →
  findRole db rid =
    if bool_decide (rid = 1) then seeded_role_rows now !! 0%nat
    else if bool_decide (rid = 2) then seeded_role_rows now !! 1%nat
    else None.
Proof.
  intros Hr. unfold findRole. rewrite Hr. cbn.
  repeat case_bool_decide; try done; congruence.
Qed.

(** C2. With the role rows as the migration seeds them, a user whose role
    is [user] has the capability set chat, explore and nothing else, and is
    refused [construct] with [Forbidden]; a user whose role is [admin] has
    all four capabilities and passes; the role rows that the up script
    stores are two, named [user] and [admin], and carry exactly these two
    records. *)
Theorem role_permission_matrix (now : Z) (db : database) (user : row) :
  rows_of db roles_table = seeded_role_rows now →
  (role_name db user = Some "user" →
     effectivePermissions db user = Some (Permissions true true false false)
     ∧ requireCapability db user Construct = Err Forbidden)
  ∧ (role_name db user = Some "admin" →
       effectivePermissions db user = Some (Permissions true true true true)
       ∧ requireCapability db user Construct = Ok tt)
  ∧ map (λ r, (get_text r "name", get_text r "permissions" ≫= parse_permissions))
        (rows_of (default empty_db (bootstrap now)) roles_table)
    = [ (Some "user", Some (Permissions true true false false));
        (Some "admin", Some (Permissions true true true true)) ].
Proof.
  intros Hr. rewrite bootstrap_roles.
  unfold requireCapability, role_name, effectivePermissions, role_of.
  destruct (get_int user "role_id") as [rid|]; cbn [mbind option_bind].
  2: { repeat split; try done. }
  rewrite (seeded_role_lookup now db rid Hr).
  repeat case_bool_decide; cbn; repeat split; try done.
Qed.

Lemma role_permission_matrix_witness :
  role_name Fixtures.db_with_alice Fixtures.alice_row = Some "user"
  ∧ effectivePermissions Fixtures.db_with_alice Fixtures.alice_row
    = Some (Permissions true true false false)
  ∧ requireCapability Fixtures.db_with_alice Fixtures.alice_row Construct = Err Forbidden
  ∧ role_name Fixtures.db_with_alice (seeded_admin_row 0) = Some "admin"
  ∧ requireCapability Fixtures.db_with_alice (seeded_admin_row 0) Construct = Ok tt.
Proof.
  assert (Hroles : rows_of Fixtures.db_with_alice roles_table = seeded_role_rows 0)
    by (vm_compute; reflexivity).
  destruct (role_permission_matrix 0 Fixtures.db_with_alice Fixtures.alice_row Hroles)
    as (Huser & _ & _).
  destruct (role_permission_matrix 0 Fixtures.db_with_alice (seeded_admin_row 0) Hroles)
    as (_ & Hadmin & _).
  assert (Hu : role_name Fixtures.db_with_alice Fixtures.alice_row = Some "user")
    by (vm_compute; reflexivity).
  assert (Ha : role_name Fixtures.db_with_alice (seeded_admin_row 0) = Some "admin")
    by (vm_compute; reflexivity).
  destruct (Huser Hu) as [Hp Hc]. destruct (Hadmin Ha) as [_ Hc'].
  repeat split; assumption.
Defined.

End PermissionFacts.

(** ** Lookups that an update of another table leaves alone *)

Module AuthFacts.
Import Sql Schema Auth SqlFacts.

Lemma rows_of_set_rows_eq (db : database) (tbl : string) (rows : list row) (tb : table) :
  db_tables db !! tbl = Some tb → rows_of (set_rows db tbl rows) tbl = rows.
Proof.
  intros Ht. unfold set_rows, rows_of. rewrite Ht. cbn. by rewrite lookup_insert_eq.
Qed.

Lemma rows_of_set_rows_ne (db : database) (tbl tbl' : string) (rows : list row) :
  tbl ≠ tbl' → rows_of (set_rows db tbl rows) tbl' = rows_of db tbl'.
Proof.
  intros Hne. unfold set_rows, rows_of.
  destruct (db_tables db !! tbl); [|done]. cbn. by rewrite lookup_insert_ne.
Qed.

Lemma is_admin_roles (db db' : database) (u : row) :
  rows_of db' roles_table = rows_of db roles_table → is_admin db' u = is_admin db u.
Proof.
  intros Hr. unfold is_admin, effectivePermissions, role_of, findRole. by rewrite Hr.
Qed.

Lemma findById_users (db db' : database) (id : Z) :
  rows_of db' users_table = rows_of db users_table → findById db' id = findById db id.
Proof. intros Hr. unfold findById. by rewrite Hr. Qed.

Lemma findById_exists (db : database) (id : Z) (u : row) :
  findById db id = Some u →
  ∃ tb, db_tables db !! users_table = Some tb
        ∧ existsb (λ r, bool_decide (row_get r "id" = VInt id)) (tbl_rows tb) = true.
Proof.
  unfold findById, rows_of. destruct (db_tables db !! users_table) as [tb|]; [|done].
  intros Hf. exists tb. split; [done|]. by eapply find_existsb.
Qed.

End AuthFacts.

(** ** Registration against the unique constraints *)

Module CredentialFacts.
Import Sql Schema Auth SqlFacts.

(** C5. Creating a user whose username or email is that of a stored user
    fails with [Conflict], by the UNIQUE keys of the users table, and leaves
    the database as it was: no row is added. *)
Theorem createUser_duplicate_is_conflict
    (now : Z) (db : database) (tb : table) (existing : row)
    (username email passwordHash salt : string) (fullName : option string) (roleId : Z) :
  db_tables db !! users_table = Some tb →
  tbl_def tb = users_def →
  existing ∈ tbl_rows tb →
  row_get existing "username" = VText username
    ∨ row_get existing "email" = VText email →
  createUser now username email passwordHash salt fullName roleId db = (Err Conflict, db).
Proof.
  intros Ht Hdef Hin Hdup. unfold createUser, insert_row. rewrite Ht. cbn zeta.
  unfold fill_row. rewrite Hdef.
  set (r := map _ _).
  assert (Hr : r =
    [ ("id", VInt (tbl_seq tb + 1)); ("username", VText username);
      ("email", VText email); ("password_hash", VText passwordHash);
      ("salt", VText salt); ("full_name", text_or_null fullName);
      ("avatar_url", VNull); ("is_active", VInt 1); ("is_superuser", VInt 0);
      ("role_id", VInt roleId); ("last_login", VNull);
      ("gmt_created", VInt now); ("gmt_modified", VInt now) ]) by reflexivity.
  rewrite Hr. clear r Hr.
  replace (violates_not_null users_def _) with false by reflexivity.
  erewrite violates_unique_intro; [done| |exact Hin|].
  - instantiate (1 := if bool_decide (row_get existing "username" = VText username)
                      then ["username"] else ["email"]).
    case_bool_decide; in_list.
  - case_bool_decide as Hu; cbn.
    + rewrite Hu. by rewrite !bool_decide_eq_true_2.
    + destruct Hdup as [?|He]; [done|]. rewrite He. by rewrite !bool_decide_eq_true_2.
Qed.

Lemma createUser_duplicate_is_conflict_witness :
  createUser 9 "bob" "admin@dbgpt.com" "c0ffee" "5a17" (Some "Bob") 1
             Fixtures.db_bootstrapped
  = (Err Conflict, Fixtures.db_bootstrapped).
Proof.
  apply (createUser_duplicate_is_conflict 9 Fixtures.db_bootstrapped
           (Table users_def [seeded_admin_row 0] 1) (seeded_admin_row 0)).
  - vm_compute. reflexivity.
  - reflexivity.
  - apply list_elem_of_here.
  - right. reflexivity.
Defined.

(** A fresh identity, by contrast, is stored. *)
Lemma createUser_fresh_is_stored :
  (createUser 5 "alice" "alice@x.com" "c0ffee" "5a17" None 1 Fixtures.db_bootstrapped).1
  = Ok Fixtures.alice_row
  ∧ length (rows_of Fixtures.db_with_alice users_table) = 2%nat.
Proof. split; vm_compute; reflexivity. Qed.

End CredentialFacts.

(** ** Grants *)

Module RegistryFacts.
Import Sql Schema Auth SqlFacts AuthFacts.

Lemma filter_update_where (p q : row → bool) (f : row → row) (rows : list row) :
  (∀ r, In r rows → p r = true → q (f r) = true) →
  (∀ r, p r = false → q r = false) →
  List.filter q (update_where p f rows) = map f (List.filter p rows).
Proof.
  intros Hq Hn. unfold update_where.
  induction rows as [|r rows IH]; cbn; [done|].
  destruct (p r) eqn:Hp; cbn.
  - rewrite (Hq r (or_introl eq_refl) Hp), IH; [done|].
    intros r' Hin. apply Hq. by right.
  - rewrite (Hn r Hp), IH; [done|].
    intros r' Hin. apply Hq. by right.
Qed.

Lemma grant_matches_reactivate (now g e : Z) (d : string) (r : row) :
  grant_matches e d (reactivate now g r) = grant_matches e d r.
Proof.
  unfold grant_matches, reactivate. by rewrite !row_get_set_ne.
Qed.

Lemma reactivate_active (now g : Z) (r : row) :
  "is_active" ∈ map fst r → get_bool (reactivate now g r) "is_active" = true.
Proof.
  intros Hin. unfold get_bool, reactivate.
  rewrite !row_get_set_ne by done. by rewrite row_get_set_eq.
Qed.

Lemma reactivate_columns (now g : Z) (r : row) :
  map fst (reactivate now g r) = map fst r.
Proof. unfold reactivate. by rewrite !row_set_columns. Qed.

(** The UNIQUE (user_id, db_name) key leaves at most one row per pair. *)
Lemma no_collision_at_most_one (e : Z) (d : string) (rows : list row) :
  no_collision ["user_id"; "db_name"] rows = true →
  (length (List.filter (grant_matches e d) rows) ≤ 1)%nat.
Proof.
  induction rows as [|r rows IH]; cbn; [lia|].
  intros [Hr Hrows]%andb_true_iff. specialize (IH Hrows).
  destruct (grant_matches e d r) eqn:Hm; [|done]. cbn.
  enough (List.filter (grant_matches e d) rows = []) as -> by (cbn; lia).
  destruct (List.filter (grant_matches e d) rows) as [|r' k] eqn:Hf; [done|].
  assert (In r' (List.filter (grant_matches e d) rows)) as Hin by (rewrite Hf; by left).
  apply filter_In in Hin as [Hin Hm'].
  rewrite forallb_forall in Hr. specialize (Hr r' Hin).
  unfold grant_matches in Hm, Hm'.
  apply andb_true_iff in Hm as [Hu%bool_decide_eq_true Hd%bool_decide_eq_true].
  apply andb_true_iff in Hm' as [Hu'%bool_decide_eq_true Hd'%bool_decide_eq_true].
  cbn in Hr. rewrite Hu, Hd, Hu', Hd' in Hr.
  by rewrite !bool_decide_eq_true_2 in Hr.
Qed.

(** Without the admin check passed nothing is touched. *)
Lemma grant_requires_admin (now g e : Z) (d : string) (db : database) (gr : row) :
  findById db g = Some gr → is_admin db gr = false →
  grant now g e d db = (Err Forbidden, db).
Proof. intros Hg Hadm. unfold grant. by rewrite Hg, Hadm. Qed.

(** A grant that finds its row reactivates it. *)
Lemma grant_existing (now g e : Z) (d : string) (db : database) (gr er : row)
    (tb : table) (r0 : row) :
  findById db g = Some gr → is_admin db gr = true → findById db e = Some er →
  db_tables db !! user_db_access_table = Some tb →
  List.filter (grant_matches e d) (tbl_rows tb) = [r0] →
  "is_active" ∈ map fst r0 →
  ∃ db' tb',
    grant now g e d db = (Ok tt, db')
    ∧ db_tables db' !! user_db_access_table = Some tb'
    ∧ List.filter (grant_matches e d) (tbl_rows tb') = [reactivate now g r0]
    ∧ active_grants db' e d = [reactivate now g r0]
    ∧ rows_of db' users_table = rows_of db users_table
    ∧ rows_of db' roles_table = rows_of db roles_table.
Proof.
  intros Hg Hadm He Ht Hf Hcol. unfold grant. rewrite Hg, Hadm, He. cbn [negb].
  rewrite (rows_of_lookup _ _ _ Ht).
  rewrite (filter_cons_existsb _ _ _ _ Hf).
  eexists _, _. split; [done|].
  split; [unfold set_rows; rewrite Ht; apply lookup_insert_eq|].
  cbn [tbl_rows]. split; [|split; [|split]].
  - erewrite filter_update_where; [by rewrite Hf| |done].
    intros r _ Hr. by rewrite grant_matches_reactivate.
  - unfold active_grants. rewrite (rows_of_set_rows_eq _ _ _ _ Ht).
    erewrite filter_update_where with (p := grant_matches e d); [by rewrite Hf| |].
    + intros r Hin Hr. rewrite grant_matches_reactivate, Hr. cbn.
      apply reactivate_active.
      assert (In r (List.filter (grant_matches e d) (tbl_rows tb))) as Hin'
        by (by apply filter_In).
      rewrite Hf in Hin'. by destruct Hin' as [<-|[]].
    + intros r Hr. by rewrite Hr.
  - by apply rows_of_set_rows_ne.
  - by apply rows_of_set_rows_ne.
Qed.

(** A grant that finds no row inserts one, active by default. *)
Lemma grant_fresh (now g e : Z) (d : string) (db : database) (gr er : row) (tb : table) :
  findById db g = Some gr → is_admin db gr = true → findById db e = Some er →
  db_tables db !! user_db_access_table = Some tb →
  tbl_def tb = user_db_access_def →
  forallb (id_bounded (tbl_def tb) (tbl_seq tb)) (tbl_rows tb) = true →
  List.filter (grant_matches e d) (tbl_rows tb) = [] →
  ∃ db' tb',
    grant now g e d db = (Ok tt, db')
    ∧ db_tables db' !! user_db_access_table = Some tb'
    ∧ List.filter (grant_matches e d) (tbl_rows tb') = [new_grant_row now (tbl_seq tb) g e d]
    ∧ active_grants db' e d = [new_grant_row now (tbl_seq tb) g e d]
    ∧ rows_of db' users_table = rows_of db users_table
    ∧ rows_of db' roles_table = rows_of db roles_table.
Proof.
  intros Hg Hadm He Ht Hdef Hids Hf. unfold grant. rewrite Hg, Hadm, He. cbn [negb].
  rewrite (rows_of_lookup _ _ _ Ht). rewrite (filter_nil_existsb _ _ Hf).
  destruct (findById_exists _ _ _ Hg) as (utb & Hut & Hgex).
  destruct (findById_exists _ _ _ He) as (utb' & Hut' & Heex).
  assert (utb' = utb) as -> by congruence.
  set (r := new_grant_row now (tbl_seq tb) g e d).
  assert (Hfill : fill_row now tb
            [("user_id", VInt e); ("db_name", VText d); ("granted_by", VInt g)] = r).
  { unfold fill_row. by rewrite Hdef. }
  assert (Hmatch : grant_matches e d r = true).
  { unfold grant_matches. cbn. by rewrite !bool_decide_eq_true_2. }
  unfold insert_row. rewrite Ht. cbn zeta. rewrite Hfill, Hdef.
  replace (violates_not_null user_db_access_def r) with false by reflexivity.
  assert (Hu : violates_unique user_db_access_def (tbl_rows tb) r = false).
  { unfold violates_unique.
    change (unique_keys user_db_access_def) with [["id"]; ["user_id"; "db_name"]].
    cbn [existsb]. rewrite !existsb_false; [done| |].
    - intros r' Hin.
      assert (grant_matches e d r' = false) as Hno.
      { destruct (grant_matches e d r') eqn:Hm; [|done].
        assert (In r' (List.filter (grant_matches e d) (tbl_rows tb))) as Hin'
          by (by apply filter_In).
        by rewrite Hf in Hin'. }
      unfold grant_matches in Hno. unfold agree_on. cbn [forallb].
      change (row_get r "user_id") with (VInt e).
      change (row_get r "db_name") with (VText d).
      rewrite !(bool_decide_eq_true_2 (_ ≠ VNull)) by done. cbn [andb].
      rewrite andb_true_r.
      apply andb_false_iff in Hno as [Hno|Hno]; apply bool_decide_eq_false in Hno;
        apply andb_false_iff; [left|right]; apply bool_decide_eq_false; congruence.
    - intros r' Hin. rewrite forallb_forall in Hids. specialize (Hids r' Hin).
      unfold id_bounded in Hids. rewrite Hdef in Hids.
      change (autoincrement_columns user_db_access_def) with ["id"] in Hids.
      cbn [forallb] in Hids.
      unfold agree_on. cbn [forallb].
      change (row_get r "id") with (VInt (tbl_seq tb + 1)).
      destruct (row_get r' "id") as [|n|]; try done.
      rewrite andb_true_r in Hids. apply bool_decide_eq_true in Hids.
      rewrite (bool_decide_eq_true_2 (_ ≠ VNull)) by done.
      rewrite bool_decide_eq_false_2; [done|]. intros [=]. lia. }
  rewrite Hu.
  eexists _, _. split; [done|]. cbn [db_tables].
  split; [apply lookup_insert_eq|]. cbn [tbl_rows].
  assert (Hfr : List.filter (grant_matches e d) (tbl_rows tb ++ [r]) = [r]).
  { rewrite List.filter_app, Hf. cbn. by rewrite Hmatch. }
  split; [done|]. split; [|split].
  - unfold active_grants, rows_of. cbn [db_tables]. rewrite lookup_insert_eq. cbn [tbl_rows].
    rewrite List.filter_app. cbn. rewrite Hmatch. cbn.
    by rewrite (filter_nil_conj _ _ _ Hf).
  - unfold rows_of. cbn [db_tables]. by rewrite lookup_insert_ne.
  - unfold rows_of. cbn [db_tables]. by rewrite lookup_insert_ne.
Qed.

Lemma reactivate_keeps_keys (now g e : Z) (d : string) (r : row) (c : string) :
  c ∈ ["id"; "user_id"; "db_name"] →
  row_get (if grant_matches e d r then reactivate now g r else r) c = row_get r c.
Proof.
  intros Hc. destruct (grant_matches e d r); [|done].
  unfold reactivate.
  repeat (apply elem_of_cons in Hc as [->|Hc]); [..|by apply elem_of_nil in Hc];
    by rewrite !row_get_set_ne.
Qed.

(** Whatever its outcome, a grant leaves the grants table respecting its
    constraints: [table_ok] is an invariant of the registry. *)
Lemma grant_preserves_table_ok (now g e : Z) (d : string) (db : database)
    (tb : table) (res : result unit) (db' : database) :
  db_tables db !! user_db_access_table = Some tb →
  tbl_def tb = user_db_access_def →
  table_ok tb = true →
  grant now g e d db = (res, db') →
  ∃ tb', db_tables db' !! user_db_access_table = Some tb'
         ∧ tbl_def tb' = user_db_access_def
         ∧ table_ok tb' = true.
Proof.
  intros Ht Hdef Hok. unfold grant.
  destruct (findById db g) as [gr|]; [|intros [= _ <-]; eauto].
  destruct (is_admin db gr); cbn [negb]; [|intros [= _ <-]; eauto].
  destruct (findById db e) as [er|]; [|intros [= _ <-]; eauto].
  rewrite (rows_of_lookup _ _ _ Ht).
  pose proof Hok as Hok'.
  apply andb_true_iff in Hok as [[Hshape Hids]%andb_true_iff Hkeys].
  rewrite Hdef in Hshape, Hids, Hkeys.
  change (unique_keys user_db_access_def) with [["id"]; ["user_id"; "db_name"]] in Hkeys.
  cbn [forallb] in Hkeys.
  apply andb_true_iff in Hkeys as [Hk1 [Hk2 _]%andb_true_iff].
  destruct (existsb (grant_matches e d) (tbl_rows tb)).
  - intros [= _ <-]. unfold set_rows. rewrite Ht. cbn [db_tables].
    eexists. split; [apply lookup_insert_eq|]. split; [done|].
    unfold table_ok. cbn [tbl_def tbl_rows tbl_seq]. rewrite Hdef.
    change (unique_keys user_db_access_def) with [["id"]; ["user_id"; "db_name"]].
    cbn [forallb]. unfold update_where.
    rewrite !no_collision_map, Hk1, Hk2 by
      (intros r c Hc; apply reactivate_keeps_keys;
       repeat (apply elem_of_cons in Hc as [->|Hc]); [..|by apply elem_of_nil in Hc]; in_list).
    rewrite !forallb_map_compose.
    rewrite (forallb_pointwise _ (row_shaped user_db_access_def)), Hshape.
    2: { intros r. unfold row_shaped.
         destruct (grant_matches e d r); [|done]. by rewrite reactivate_columns. }
    rewrite (forallb_pointwise _ (id_bounded user_db_access_def (tbl_seq tb))), Hids; [done|].
    intros r. unfold id_bounded.
    change (autoincrement_columns user_db_access_def) with ["id"]. cbn [forallb].
    rewrite reactivate_keeps_keys; [done|in_list].
  - unfold insert_row. rewrite Ht. cbn zeta. rewrite Hdef.
    set (r := fill_row now tb _).
    assert (Hr : r = new_grant_row now (tbl_seq tb) g e d)
      by (unfold r, fill_row; by rewrite Hdef).
    destruct (violates_not_null user_db_access_def r); [intros [= _ <-]; eauto|].
    destruct (violates_unique user_db_access_def (tbl_rows tb) r) eqn:Hu;
      [intros [= _ <-]; eauto|].
    intros [= _ <-]. cbn [db_tables]. eexists. split; [apply lookup_insert_eq|].
    split; [done|].
    unfold table_ok. cbn [tbl_def tbl_rows tbl_seq].
    change (unique_keys user_db_access_def) with [["id"]; ["user_id"; "db_name"]].
    cbn [forallb]. rewrite !forallb_app. cbn [forallb].
    rewrite Hshape.
    rewrite !no_collision_snoc;
      [ |done|by eapply violates_unique_false; [exact Hu|in_list]
        |done|by eapply violates_unique_false; [exact Hu|in_list]].
    rewrite Hr.
    replace (row_shaped user_db_access_def (new_grant_row now (tbl_seq tb) g e d))
      with true by reflexivity.
    assert (Hnew : id_bounded user_db_access_def (tbl_seq tb + 1)
                     (new_grant_row now (tbl_seq tb) g e d) = true).
    { unfold id_bounded. change (autoincrement_columns user_db_access_def) with ["id"].
      cbn [forallb]. change (row_get (new_grant_row _ _ _ _ _) "id")
        with (VInt (tbl_seq tb + 1)).
      cbv beta iota. by rewrite bool_decide_eq_true_2 by lia. }
    rewrite Hnew. cbn [andb].
    rewrite !andb_true_r. apply forallb_forall. intros r' Hin.
    rewrite forallb_forall in Hids. specialize (Hids r' Hin).
    unfold id_bounded in *.
    change (autoincrement_columns user_db_access_def) with ["id"] in *.
    cbn [forallb] in *. destruct (row_get r' "id"); try done.
    rewrite andb_true_r in *. apply bool_decide_eq_true in Hids.
    apply bool_decide_eq_true. lia.
Qed.

(** C6. Over a grants table that respects its constraints, an admin who
    grants an existing user a database twice succeeds both times, and
    afterwards exactly one row stands for the pair, and it is active: the
    second call reactivates the row of the first instead of adding one. *)
Theorem grant_twice_one_active_row
    (now now' granterId granteeId : Z) (dbName : string)
    (db : database) (granter grantee : row) (tb : table) :
  findById db granterId = Some granter →
  is_admin db granter = true →
  findById db granteeId = Some grantee →
  db_tables db !! user_db_access_table = Some tb →
  tbl_def tb = user_db_access_def →
  table_ok tb = true →
  ∃ db1 db2 r,
    grant now granterId granteeId dbName db = (Ok tt, db1)
    ∧ grant now' granterId granteeId dbName db1 = (Ok tt, db2)
    ∧ List.filter (grant_matches granteeId dbName) (rows_of db2 user_db_access_table) = [r]
    ∧ active_grants db2 granteeId dbName = [r]
    ∧ length (active_grants db1 granteeId dbName) = 1%nat.
Proof.
  intros Hg Hadm He Ht Hdef Hok.
  apply andb_true_iff in Hok as [[Hshape Hids]%andb_true_iff Hkeys].
  rewrite forallb_forall in Hkeys.
  assert (Hone := no_collision_at_most_one granteeId dbName (tbl_rows tb)).
  rewrite Hdef in Hkeys.
  specialize (Hone (Hkeys ["user_id"; "db_name"]
                          ltac:(vm_compute; right; left; reflexivity))).
  assert (Hfirst : ∃ db1 tb1 r1,
    grant now granterId granteeId dbName db = (Ok tt, db1)
    ∧ db_tables db1 !! user_db_access_table = Some tb1
    ∧ List.filter (grant_matches granteeId dbName) (tbl_rows tb1) = [r1]
    ∧ active_grants db1 granteeId dbName = [r1]
    ∧ "is_active" ∈ map fst r1
    ∧ rows_of db1 users_table = rows_of db users_table
    ∧ rows_of db1 roles_table = rows_of db roles_table).
  { destruct (List.filter (grant_matches granteeId dbName) (tbl_rows tb))
      as [|r0 [|r0' k]] eqn:Hf; [| |cbn in Hone; lia].
    - destruct (grant_fresh now _ _ dbName _ _ _ _ Hg Hadm He Ht Hdef Hids Hf)
        as (db1 & tb1 & H1 & H2 & H3 & H4 & H5 & H6).
      exists db1, tb1, (new_grant_row now (tbl_seq tb) granterId granteeId dbName).
      repeat split; try done. in_list.
    - assert (Hcol : "is_active" ∈ map fst r0).
      { rewrite forallb_forall in Hshape.
        assert (In r0 (List.filter (grant_matches granteeId dbName) (tbl_rows tb))) as Hin
          by (rewrite Hf; by left).
        apply filter_In in Hin as [Hin _].
        eapply row_shaped_column; [by apply Hshape|]. rewrite Hdef. in_list. }
      destruct (grant_existing now _ _ dbName _ _ _ _ _ Hg Hadm He Ht Hf Hcol)
        as (db1 & tb1 & H1 & H2 & H3 & H4 & H5 & H6).
      exists db1, tb1, (reactivate now granterId r0).
      repeat split; try done. by rewrite reactivate_columns. }
  destruct Hfirst as (db1 & tb1 & r1 & H1 & Ht1 & Hf1 & Ha1 & Hc1 & Hu1 & Hr1).
  assert (Hg1 : findById db1 granterId = Some granter)
    by (by rewrite (findById_users _ _ _ Hu1)).
  assert (He1 : findById db1 granteeId = Some grantee)
    by (by rewrite (findById_users _ _ _ Hu1)).
  assert (Hadm1 : is_admin db1 granter = true)
    by (by rewrite (is_admin_roles _ _ _ Hr1)).
  destruct (grant_existing now' _ _ dbName _ _ _ _ _ Hg1 Hadm1 He1 Ht1 Hf1 Hc1)
    as (db2 & tb2 & H2 & Ht2 & Hf2 & Ha2 & _ & _).
  exists db1, db2, (reactivate now' granterId r1).
  repeat split; try done.
  - by rewrite (rows_of_lookup _ _ _ Ht2).
  - by rewrite Ha1.
Qed.

Lemma grant_twice_one_active_row_witness :
  ∃ db1 db2 r,
    grant 10 1 2 "sales_db" Fixtures.db_with_alice = (Ok tt, db1)
    ∧ grant 20 1 2 "sales_db" db1 = (Ok tt, db2)
    ∧ List.filter (grant_matches 2 "sales_db") (rows_of db2 user_db_access_table) = [r]
    ∧ active_grants db2 2 "sales_db" = [r]
    ∧ length (active_grants db1 2 "sales_db") = 1%nat.
Proof.
  apply (grant_twice_one_active_row 10 20 1 2 "sales_db" Fixtures.db_with_alice
           (seeded_admin_row 0) Fixtures.alice_row (Table user_db_access_def [] 0)).
  all: vm_compute; reflexivity.
Defined.

(** Revoking in between does not break it: the later grant reactivates. *)
Lemma grant_revoke_grant_reactivates :
  let db1 := (grant 10 1 2 "sales_db" Fixtures.db_with_alice).2 in
  let db2 := (revoke 15 1 2 "sales_db" db1).2 in
  let db3 := (grant 20 1 2 "sales_db" db2).2 in
  length (active_grants db1 2 "sales_db") = 1%nat
  ∧ active_grants db2 2 "sales_db" = []
  ∧ length (active_grants db3 2 "sales_db") = 1%nat
  ∧ length (rows_of db3 user_db_access_table) = 1%nat.
Proof. vm_compute. repeat split. Qed.

End RegistryFacts.

(** ** Session validation *)

Module SessionFacts.
Import Sql Schema Auth SessionManager SqlFacts AuthFacts.

Section Validation.
Context `{TokenScheme}.
Variable cfg : config.

(** What [validate] comes to on a token that verifies and whose session is
    stored with it. *)
Lemma validate_stored (db : database) (s owner : row) (tok : string) (c : claims)
    (uid expires now : Z) :
  verify_signature (signing_key cfg) tok = Some c →
  findSession db (sessionId c) = Some s →
  row_get s "jwt_token" = VText tok →
  get_int s "expires_at" = Some expires →
  get_int s "user_id" = Some uid →
  findById db uid = Some owner →
  validate cfg now tok db =
    if get_bool s "is_active" && bool_decide (now < expires)
    then Ok owner else Err Unauthorized.
Proof.
  intros Hc Hs Htok Hexp Huid Hown.
  unfold validate, not_expired. rewrite Hc, Hs, Htok, Hexp, Huid, Hown.
  rewrite bool_decide_eq_true_2 by done. cbn [andb].
  by destruct (get_bool s "is_active" && bool_decide (now < expires)).
Qed.

(** C4. For a stored session whose token was issued for it and whose owner
    exists, [validate] returns the owner exactly when the session is active
    and the time is strictly before [expires_at]; at [expires_at] itself and
    later, and whenever the session is inactive, it fails with
    [Unauthorized]; so does every other token that names this session. *)
Theorem validate_iff_active_unexpired_and_matching
    (db : database) (s owner : row) (sid tok : string) (c : claims)
    (uid expires now : Z) :
  findSession db sid = Some s →
  row_get s "jwt_token" = VText tok →
  verify_signature (signing_key cfg) tok = Some c →
  sessionId c = sid →
  get_int s "expires_at" = Some expires →
  get_int s "user_id" = Some uid →
  findById db uid = Some owner →
  (validate cfg now tok db = Ok owner ↔ get_bool s "is_active" = true ∧ now < expires)
  ∧ (get_bool s "is_active" = false ∨ expires ≤ now →
       validate cfg now tok db = Err Unauthorized)
  ∧ (∀ tok' c', tok' ≠ tok →
       verify_signature (signing_key cfg) tok' = Some c' → sessionId c' = sid →
       validate cfg now tok' db = Err Unauthorized).
Proof.
  intros Hs Htok Hc Hsid Hexp Huid Hown. subst sid.
  pose proof (validate_stored db s owner tok c uid expires now Hc Hs Htok Hexp Huid Hown)
    as Hv.
  split; [|split].
  - rewrite Hv. destruct (get_bool s "is_active"); cbn; case_bool_decide; split;
      try done; try (by intros []); intros [_ ?]; lia.
  - rewrite Hv. intros [->|Hle]; [done|].
    rewrite (bool_decide_eq_false_2 (now < expires)) by lia.
    by rewrite andb_false_r.
  - intros tok' c' Hne Hc' Hsid'. unfold validate. rewrite Hc', Hsid', Hs, Htok.
    rewrite bool_decide_eq_false_2; [done|]. congruence.
Qed.

(** Every session that [issue] hands out meets the conditions above: with a
    scheme whose tokens verify, the token just issued validates to its user
    exactly until the session's lifetime is over. *)
Lemma issue_then_validate (now0 : Z) (sid : string) (user : row) (uid : Z)
    (meta : client_meta) (db : database) (tb : table) :
  (∀ key c, verify_signature key (sign key c) = Some c) →
  get_int user "id" = Some uid →
  findById db uid = Some user →
  db_tables db !! sessions_table = Some tb →
  tbl_def tb = sessions_def →
  forallb (id_bounded (tbl_def tb) (tbl_seq tb)) (tbl_rows tb) = true →
  findSession db sid = None →
  ∃ tok db1,
    issue cfg now0 sid user meta db = (Ok (sid, tok), db1)
    ∧ ∀ now, validate cfg now tok db1 = Ok user ↔ now < now0 + sessionTTL cfg.
Proof.
  intros sign_then_verify Hid Hu Ht Hdef Hids Hfresh.
  set (tok := sign (signing_key cfg) (Claims uid sid now0 (now0 + sessionTTL cfg))).
  set (r := new_session_row cfg now0 (tbl_seq tb) uid sid tok meta).
  destruct (findById_exists _ _ _ Hu) as (utb & Hut & Huex).
  assert (Hins : insert_row now0 sessions_table
            [ ("session_id", VText sid); ("user_id", VInt uid);
              ("jwt_token", VText tok); ("expires_at", VInt (now0 + sessionTTL cfg));
              ("user_agent", text_or_null (user_agent meta));
              ("ip_address", text_or_null (ip_address meta)) ] db
          = Inserted (Database (<[sessions_table :=
                                   Table (tbl_def tb) (tbl_rows tb ++ [r]) (tbl_seq tb + 1)]>
                                  (db_tables db)) (db_indexes db)) r).
  { apply insert_row_ok; [done|unfold fill_row; by rewrite Hdef|by rewrite Hdef|].
    - rewrite Hdef. unfold violates_unique.
      change (unique_keys sessions_def) with [["id"]; ["session_id"]].
      cbn [existsb]. rewrite !existsb_false; [done| |].
      + intros r' Hin. unfold findSession in Hfresh.
        rewrite (rows_of_lookup _ _ _ Ht) in Hfresh.
        pose proof (find_none _ _ Hfresh r' Hin) as Hno. cbn in Hno.
        apply bool_decide_eq_false in Hno.
        unfold agree_on. cbn [forallb].
        change (row_get r "session_id") with (VText sid).
        rewrite (bool_decide_eq_true_2 (_ ≠ VNull)) by done.
        rewrite bool_decide_eq_false_2; [done|congruence].
      + intros r' Hin. rewrite forallb_forall in Hids. specialize (Hids r' Hin).
        unfold id_bounded in Hids. rewrite Hdef in Hids.
        change (autoincrement_columns sessions_def) with ["id"] in Hids.
        cbn [forallb] in Hids.
        unfold agree_on. cbn [forallb].
        change (row_get r "id") with (VInt (tbl_seq tb + 1)).
        destruct (row_get r' "id") as [|n|]; try done.
        rewrite andb_true_r in Hids. apply bool_decide_eq_true in Hids.
        rewrite (bool_decide_eq_true_2 (_ ≠ VNull)) by done.
        rewrite bool_decide_eq_false_2; [done|]. intros [=]. lia. }
  eexists tok, _. split.
  { unfold issue. rewrite Hid. cbn zeta. fold tok. by rewrite Hins. }
  intros now.
  erewrite validate_stored with (s := r) (owner := user) (uid := uid)
                                (expires := now0 + sessionTTL cfg).
  - cbn. case_bool_decide; split; done.
  - apply sign_then_verify.
  - cbn [sessionId]. unfold findSession, rows_of. cbn [db_tables].
    rewrite lookup_insert_eq. cbn [tbl_rows].
    unfold findSession in Hfresh. rewrite (rows_of_lookup _ _ _ Ht) in Hfresh.
    rewrite (find_app_none _ _ _ Hfresh). cbn. by rewrite bool_decide_eq_true_2.
  - done.
  - done.
  - done.
  - unfold findById, rows_of in *. cbn [db_tables]. by rewrite lookup_insert_ne.
Qed.

(** A token that does not verify, or that names no stored session, is
    refused in the same way. *)
Lemma validate_unknown_token (db : database) (now : Z) (tok : string) :
  verify_signature (signing_key cfg) tok = None →
  validate cfg now tok db = Err Unauthorized.
Proof. intros Hc. unfold validate. by rewrite Hc. Qed.

Lemma validate_is_owner_or_unauthorized (db : database) (now : Z) (tok : string) :
  (∃ u, validate cfg now tok db = Ok u) ∨ validate cfg now tok db = Err Unauthorized.
Proof.
  unfold validate.
  repeat match goal with
         | |- context [match ?x with _ => _ end] => destruct x
         end; eauto.
Qed.
End Validation.

(** The session issued to the administrator at time 1000 with the default
    thirty-day lifetime: valid one tick before its expiry, refused at it. *)
Lemma validate_iff_active_unexpired_and_matching_witness :
  @validate Fixtures.sample_scheme Fixtures.sample_config
            (1000 + thirty_days - 1) Fixtures.sample_token Fixtures.db_with_session
    = Ok (seeded_admin_row 0)
  ∧ @validate Fixtures.sample_scheme Fixtures.sample_config
              (1000 + thirty_days) Fixtures.sample_token Fixtures.db_with_session
    = Err Unauthorized.
Proof.
  assert (Hs : findSession Fixtures.db_with_session "sess-1" = Some Fixtures.sample_session)
    by (vm_compute; reflexivity).
  assert (Ht : row_get Fixtures.sample_session "jwt_token" = VText Fixtures.sample_token)
    by (vm_compute; reflexivity).
  assert (Hc : @verify_signature Fixtures.sample_scheme
                 (signing_key Fixtures.sample_config) Fixtures.sample_token
               = Some Fixtures.sample_claims) by (vm_compute; reflexivity).
  assert (He : get_int Fixtures.sample_session "expires_at" = Some (1000 + thirty_days))
    by (vm_compute; reflexivity).
  assert (Hu : get_int Fixtures.sample_session "user_id" = Some 1)
    by (vm_compute; reflexivity).
  assert (Ho : findById Fixtures.db_with_session 1 = Some (seeded_admin_row 0))
    by (vm_compute; reflexivity).
  split.
  - apply (@validate_iff_active_unexpired_and_matching Fixtures.sample_scheme
             Fixtures.sample_config Fixtures.db_with_session Fixtures.sample_session
             (seeded_admin_row 0) "sess-1" Fixtures.sample_token Fixtures.sample_claims
             1 (1000 + thirty_days) (1000 + thirty_days - 1) Hs Ht Hc eq_refl He Hu Ho).
    split; [vm_compute; reflexivity|lia].
  - apply (@validate_iff_active_unexpired_and_matching Fixtures.sample_scheme
             Fixtures.sample_config Fixtures.db_with_session Fixtures.sample_session
             (seeded_admin_row 0) "sess-1" Fixtures.sample_token Fixtures.sample_claims
             1 (1000 + thirty_days) (1000 + thirty_days) Hs Ht Hc eq_refl He Hu Ho).
    right. lia.
Defined.

(** After [revoke] the same token is refused, whatever time is left. *)
Lemma revoke_then_validate :
  @validate Fixtures.sample_scheme Fixtures.sample_config 2000 Fixtures.sample_token
            (revoke 1500 "sess-1" Fixtures.db_with_session)
  = Err Unauthorized.
Proof. vm_compute. reflexivity. Qed.

End SessionFacts.

(** ** The admin page's gate *)

Module AdminUsersPageFacts.
Import Js Browser AdminUsersPage.

Lemma me_result_flags (u : string) (s a : bool) :
  is_superuser_flag (me_result u s a) = s ∧ admin_flag (me_result u s a) = a.
Proof. by destruct s, a. Qed.

(** The ways the handler can end, by the answer to [/api/v1/auth/me]. *)
Lemma checkAdminAccess_run (net : network) (storage : gmap string string) :
  run (checkAdminAccess net) storage =
  (Done tt,
   Browser storage
     (Fetch me_request ::
      match net me_request with
      | NetworkError => [ConsoleError "Admin access check failed:"; RouterPush "/login"]
      | Response false _ => [RouterPush "/login"]
      | Response true None
      | Response true (Some JUndefined)
      | Response true (Some JNull) =>
          [ConsoleError "Admin access check failed:"; RouterPush "/login"]
      | Response true (Some result) =>
          if is_superuser_flag result || admin_flag result
          then [Spawn LoadUsers; Spawn LoadDatabases]
          else [MessageError (JStr "Admin access required"); RouterPush "/"]
      end)).
Proof.
  unfold checkAdminAccess, admin_gate. js_simpl.
  destruct (net me_request) as [|[] [result|]]; cbn; try done.
  unfold is_superuser_flag, admin_flag.
  destruct result; cbn; try done.
  all: match goal with
       | |- context [negb ?a && negb ?b] => destruct a, b; cbn; done
       end.
Qed.

(** Loading the user list is one request, to [/api/v1/auth/users]. *)
Lemma loadUsers_fetches (net : network) (storage : gmap string string) :
  fetched (run (loadUsers net) storage).2 = [GET "/api/v1/auth/users"].
Proof.
  unfold loadUsers. js_simpl.
  destruct (net (GET "/api/v1/auth/users")) as [|[] [result|]]; cbn; try done.
  unfold prop. destruct (nullish result) eqn:Hn; cbn; [done|].
  destruct (truthy (own result "success")); cbn; [|done].
  destruct (nullish (own result "data")); done.
Qed.

Lemma nullish_has_no_flags (result : json) :
  nullish result = true → is_superuser_flag result || admin_flag result = false.
Proof. by destruct result. Qed.

(** C1. For an authenticated visitor (an [ok] answer of [/api/v1/auth/me]
    carrying [result]) the page goes on to load its data exactly when the
    superuser flag or the admin capability flag is set. With neither, nothing
    is loaded and no request other than the check itself is sent; with
    either, both loads are started and there is no redirect. *)
Theorem admin_access_iff_superuser_or_admin
    (net : network) (storage : gmap string string) (result : json) :
  net me_request = Response true (Some result) →
  let b := (run (checkAdminAccess net) storage).2 in
  (spawned b = [LoadUsers; LoadDatabases]
     ↔ is_superuser_flag result || admin_flag result = true)
  ∧ (is_superuser_flag result || admin_flag result = false →
       spawned b = [] ∧ fetched b = [me_request])
  ∧ (is_superuser_flag result || admin_flag result = true →
       fetched b = [me_request] ∧ ∀ target, RouterPush target ∉ trace b).
Proof.
  intros Hnet b. subst b. rewrite checkAdminAccess_run, Hnet.
  pose proof (nullish_has_no_flags result) as Hnull.
  destruct (is_superuser_flag result || admin_flag result) eqn:Hflags.
  - assert (nullish result = false) as Hnn
        by (destruct (nullish result); [by specialize (Hnull eq_refl)|done]).
    destruct result; try done; cbn.
    all: repeat split; try done.
    all: intros target Hin; repeat (apply elem_of_cons in Hin as [?|Hin]; [done|]).
    all: by apply elem_of_nil in Hin.
  - destruct result; cbn; repeat split; try done.
Qed.

Lemma admin_access_iff_superuser_or_admin_witness :
  spawned (run (checkAdminAccess
                  (Fixtures.answering (Response true (Some (me_result "root" true false)))))
               ∅).2
  = [LoadUsers; LoadDatabases]
  ∧ spawned (run (checkAdminAccess
                    (Fixtures.answering (Response true (Some (me_result "alice" false false)))))
                 ∅).2
    = [].
Proof.
  split.
  - apply (admin_access_iff_superuser_or_admin
             (Fixtures.answering (Response true (Some (me_result "root" true false))))
             ∅ (me_result "root" true false) eq_refl).
    reflexivity.
  - apply (admin_access_iff_superuser_or_admin
             (Fixtures.answering (Response true (Some (me_result "alice" false false))))
             ∅ (me_result "alice" false false) eq_refl).
    reflexivity.
Defined.

(** C7. The page tells the two refusals apart. A visitor whom
    [/api/v1/auth/me] answers but who has neither flag is shown the error
    "Admin access required" and sent to "/"; a visitor whose
    [/api/v1/auth/me] fails is sent to "/login", with no such message. *)
Theorem forbidden_and_unauthorized_are_told_apart
    (net_in net_out : network) (storage : gmap string string)
    (result : json) (parsed : option json) :
  net_in me_request = Response true (Some result) →
  nullish result = false →
  is_superuser_flag result || admin_flag result = false →
  net_out me_request = Response false parsed →
  trace (run (checkAdminAccess net_in) storage).2
    = [Fetch me_request; MessageError (JStr "Admin access required"); RouterPush "/"]
  ∧ trace (run (checkAdminAccess net_out) storage).2
    = [Fetch me_request; RouterPush "/login"].
Proof.
  intros Hin Hnn Hflags Hout. rewrite !checkAdminAccess_run, Hin, Hout. cbn.
  rewrite Hflags. by destruct result.
Qed.

Lemma forbidden_and_unauthorized_are_told_apart_witness :
  trace (run (checkAdminAccess
                (Fixtures.answering (Response true (Some (me_result "alice" false false)))))
             ∅).2
    = [Fetch me_request; MessageError (JStr "Admin access required"); RouterPush "/"]
  ∧ trace (run (checkAdminAccess (Fixtures.answering (Response false None))) ∅).2
    = [Fetch me_request; RouterPush "/login"].
Proof.
  apply (forbidden_and_unauthorized_are_told_apart
           (Fixtures.answering (Response true (Some (me_result "alice" false false))))
           (Fixtures.answering (Response false None))
           ∅ (me_result "alice" false false) None); reflexivity.
Defined.

(** A request that does not come back at all also ends on "/login". *)
Lemma network_error_goes_to_login (net : network) (storage : gmap string string) :
  net me_request = NetworkError →
  trace (run (checkAdminAccess net) storage).2
  = [Fetch me_request; ConsoleError "Admin access check failed:"; RouterPush "/login"].
Proof. intros Hnet. by rewrite checkAdminAccess_run, Hnet. Qed.

End AdminUsersPageFacts.

(** ** The login handler *)

Module LoginPageFacts.
Import Js Browser LoginPage.


Lemma cookie_max_age_is_thirty_days : cookie_max_age = 30 * 86400.
Proof. reflexivity. Qed.

Section Handler.
Context `{Platform}.

Lemma login_succeeded_not_nullish (result : json) :
  login_succeeded result = true →
  nullish result = false ∧ nullish (own result "data") = false.
Proof.
  unfold login_succeeded. destruct result; cbn; try done.
  intros [_ Hd]%andb_true_iff. split; [done|].
  by destruct (lookup_field fields "data").
Qed.

(** The run of the handler on an answer that passes its success test. *)
Lemma handleLogin_success (net : network) (redirect : option string) (now : Z)
    (values result : json) (o : bool) (storage : gmap string string) :
  net (login_request values) = Response o (Some result) →
  login_succeeded result = true →
  let data := own result "data" in
  run (handleLogin net redirect now values) storage =
  (Done tt,
   Browser (<["undefined" := number_toString now]>
              (<["undefined" := JSON_stringify (own data "user")]> storage))
     ([ SetLoading true; Fetch (login_request values);
        StorageSet "undefined" (JSON_stringify (own data "user"));
        StorageSet "undefined" (number_toString now) ]
      ++ (if truthy (own data "session_id")
          then [CookieSet (session_cookie (own data "session_id"))] else [])
      ++ [ MessageSuccess (JStr (i18n_t "Login successful"));
           RouterPush (if some_truthy redirect
                       then default EmptyString redirect else "/");
           SetLoading false ])).
Proof.
  intros Hnet Hok data. subst data.
  destruct (login_succeeded_not_nullish _ Hok) as [Hr Hd].
  unfold login_succeeded in Hok. apply andb_true_iff in Hok as [Hs Hds].
  unfold handleLogin, login_body. js_simpl. rewrite Hnet. cbn.
  unfold prop. rewrite Hr. cbn. rewrite Hs, Hds. cbn.
  by destruct (truthy (own (own result "data") "session_id")).
Qed.


End Handler.



(** The token of an answer changes nothing in what the client does. *)
Lemma token_is_not_kept (token token' : json) :
  let answer t := JObj [ ("success", JBool true);
                         ("data", JObj [ ("success", JBool true);
                                         ("user", JObj [("username", JStr "alice")]);
                                         ("session_id", JStr "sess-1");
                                         ("token", t) ]) ] in
  run (@handleLogin Fixtures.sample_platform
         (Fixtures.answering (Response true (Some (answer token))))
         None 1700000000000 Fixtures.login_form) ∅
  = run (@handleLogin Fixtures.sample_platform
           (Fixtures.answering (Response true (Some (answer token'))))
           None 1700000000000 Fixtures.login_form) ∅.
Proof. reflexivity. Qed.

End LoginPageFacts.

(** ** The layout's login check *)

Module AppFacts.
Import Js Browser App.

Lemma parseInt_empty : parseInt EmptyString = None.
Proof. reflexivity. Qed.

Lemma thirty_days_ms_value : thirty_days_ms = 2592000000.
Proof. reflexivity. Qed.

Section Handler.
Context `{Platform}.

(** C9. Off the login route, with user info in local storage and a stored
    timestamp less than thirty days old, the check marks the client logged
    in and returns: it sends no request and leaves the storage as it is, and
    it does so whatever the server would have answered. *)
Theorem handleAuth_trusts_local_window
    (net : network) (pathname asPath : string) (now stored : Z)
    (storage : gmap string string) (userInfo validTime : string) :
  pathname ≠ "/login" →
  storage !! STORAGE_USERINFO_KEY = Some userInfo →
  userInfo ≠ EmptyString →
  storage !! STORAGE_USERINFO_VALID_TIME_KEY = Some validTime →
  parseInt validTime = Some stored →
  now - stored < thirty_days_ms →
  run (handleAuth net pathname asPath now) storage
    = (Done tt, Browser storage [SetIsLogin false; SetIsLogin true])
  ∧ fetched (run (handleAuth net pathname asPath now) storage).2 = []
  ∧ ∀ net' : network,
      run (handleAuth net' pathname asPath now) storage
      = run (handleAuth net pathname asPath now) storage.
Proof.
  intros Hpath Hu Hune Hv Hparse Hfresh.
  assert (Hrun : ∀ n : network,
             run (handleAuth n pathname asPath now) storage
             = (Done tt, Browser storage [SetIsLogin false; SetIsLogin true])).
  { intros n. unfold handleAuth. js_simpl.
    rewrite bool_decide_eq_false_2 by done. cbn.
    rewrite Hu, Hv. cbn. unfold within_window. rewrite Hparse.
    rewrite !bool_decide_eq_true_2; [done..| |done].
    intros ->. by rewrite parseInt_empty in Hparse. }
  split; [apply Hrun|]. split; [by rewrite Hrun|].
  intros net'. by rewrite !Hrun.
Qed.
(** Without a fresh local record the server is asked, once. *)
Lemma handleAuth_asks_server_otherwise
    (net : network) (pathname asPath : string) (now : Z)
    (storage : gmap string string) :
  pathname ≠ "/login" →
  some_truthy (storage !! STORAGE_USERINFO_KEY)
    && some_truthy (storage !! STORAGE_USERINFO_VALID_TIME_KEY)
    && within_window now (default EmptyString (storage !! STORAGE_USERINFO_VALID_TIME_KEY))
    = false →
  fetched (run (handleAuth net pathname asPath now) storage).2 = [GET "/api/v1/auth/me"].
Proof.
  intros Hpath Hstale. unfold handleAuth, authenticate_with_cookie. js_simpl.
  rewrite bool_decide_eq_false_2 by done. cbn. rewrite Hstale.
  destruct (net (GET "/api/v1/auth/me")) as [|[] [result|]]; cbn; try done.
  unfold prop. destruct (nullish result) eqn:Hn; cbn; [done|].
  destruct (truthy (own result "success")); cbn; [|done].
  destruct (truthy (opt_prop (own result "data") "user")) eqn:Hu; cbn; [|done].
  destruct (nullish (own result "data")) eqn:Hd; cbn; [|done].
  unfold opt_prop in Hu. by rewrite Hd in Hu.
Qed.
End Handler.

(** A client whose stored timestamp is one day old, while the server would
    answer 401. *)
Lemma handleAuth_trusts_local_window_witness :
  run (@handleAuth Fixtures.sample_platform (Fixtures.answering (Response false None))
         "/chat" "/chat?scene=chat_normal" (1700000000000 + 86400000))
      Fixtures.fresh_storage
  = (Done tt, Browser Fixtures.fresh_storage [SetIsLogin false; SetIsLogin true]).
Proof.
  apply (@handleAuth_trusts_local_window Fixtures.sample_platform
           (Fixtures.answering (Response false None))
           "/chat" "/chat?scene=chat_normal" (1700000000000 + 86400000) 1700000000000
           Fixtures.fresh_storage "{}" "1700000000000").
  - discriminate.
  - vm_compute. reflexivity.
  - discriminate.
  - vm_compute. reflexivity.
  - vm_compute. reflexivity.
  - vm_compute. reflexivity.
Defined.

(** Once the window has lapsed the server is asked, and its refusal sends
    the client to the login page. *)
Lemma handleAuth_after_window :
  trace (run (@handleAuth Fixtures.sample_platform
                (Fixtures.answering (Response false None))
                "/chat" "/chat" (1700000000000 + thirty_days_ms))
             Fixtures.fresh_storage).2
  = [ SetIsLogin false; Fetch (GET "/api/v1/auth/me");
      RouterPush "/login?redirect=/chat" ].
Proof. vm_compute. reflexivity. Qed.

End AppFacts.

(** * Further properties of the scripts and the pages *)

(** Closing the parts of a conjunction of run facts. *)
Ltac settle :=
  repeat split; try done; try lia; try (by left); try (by right).

(** Unfolding the component handlers down to the page state. *)
Ltac handler_unfold :=
  unfold Component.start, Component.try_catch, Component.try_finally, Component.act,
    Component.lift, Component.raise, Component.await_all,
    Browser.fetch, Browser.response_json, Browser.get, Browser.emit, Browser.throw,
    mbind, Component.handler_bind, Browser.js_bind, mret, Component.handler_ret,
    Browser.js_ret in *.

Ltac handler_simpl := handler_unfold;
  cbn [fst snd Browser.ok Browser.parsed Browser.localStorage Browser.trace
       Component.store Component.log app map negb andb orb] in *.

(** An action that is none of the listed ones. *)
Ltac not_in_event H :=
  repeat (apply elem_of_cons in H as [H|H]; [first [done | by injection H as ->]|]);
  by apply elem_of_nil in H.

Ltac not_in_log H :=
  repeat (apply elem_of_cons in H as [?|H]; [done|]); by apply elem_of_nil in H.

(** The cases of a name taken from one of the lists of auth names. *)
Ltac auth_name_cases H :=
  vm_compute in H;
  repeat (apply elem_of_cons in H as [->|H]); [..|by apply elem_of_nil in H].

(** ** The up script only adds, and may be run again *)

Module RerunFacts.
Import Sql Schema SqlFacts Migration Scenarios.

Lemma insert_row_inserted (now : Z) (tbl : string) (given : row) (db db' : database)
    (r : row) :
  insert_row now tbl given db = Inserted db' r →
  ∃ tb, db_tables db !! tbl = Some tb
        ∧ db' = Database (<[tbl := Table (tbl_def tb) (tbl_rows tb ++ [r]) (tbl_seq tb + 1)]>
                            (db_tables db)) (db_indexes db).
Proof.
  unfold insert_row. destruct (db_tables db !! tbl) as [tb|]; [|done].
  cbn zeta. repeat case_match; try done. intros [= <- <-]. eauto.
Qed.


(** Moving a counter leaves the indexes, the other tables, and the
    definition and the rows of the table itself as they are. *)
Lemma advance_seq_frame (tbl : string) (k : Z) (db : database) :
  db_indexes (advance_seq tbl k db) = db_indexes db
  ∧ (∀ n, n ≠ tbl → db_tables (advance_seq tbl k db) !! n = db_tables db !! n)
  ∧ (db_tables db !! tbl = None → db_tables (advance_seq tbl k db) !! tbl = None)
  ∧ (∀ tb, db_tables db !! tbl = Some tb →
       db_tables (advance_seq tbl k db) !! tbl
       = Some (Table (tbl_def tb) (tbl_rows tb) (tbl_seq tb + k))).
Proof.
  unfold advance_seq. destruct (db_tables db !! tbl) as [tb|] eqn:Ht; cbn.
  - split; [done|]. split; [intros n Hn; by rewrite lookup_insert_ne|].
    split; [done|]. intros tb' [= <-]. apply lookup_insert_eq.
  - by rewrite Ht.
Qed.


(** What an INSERT OR IGNORE can change: it appends rows to its table and
    moves the counter of that table, and nothing else. *)
Lemma insert_or_ignore_appends (now : Z) (tbl : string) (cols : list string)
    (rows : list (list expr)) (db db' : database) :
  insert_or_ignore now tbl cols rows db = Some db' →
  db_indexes db' = db_indexes db
  ∧ (∀ n, n ≠ tbl → db_tables db' !! n = db_tables db !! n)
  ∧ (db_tables db !! tbl = None → db_tables db' !! tbl = None)
  ∧ (∀ tb, db_tables db !! tbl = Some tb →
       ∃ tb', db_tables db' !! tbl = Some tb' ∧ tbl_def tb' = tbl_def tb
              ∧ tbl_rows tb `prefix_of` tbl_rows tb').
Proof.
  revert db. induction rows as [|es rows IH]; intros db; cbn.
  - intros [= <-]. repeat split; try done. intros tb Ht. by exists tb.
  - destruct (mapM (eval_expr db) es) as [vs|]; cbn; [|done].
    case_bool_decide; cbn; [|done].
    assert (Hskip : insert_or_ignore now tbl cols rows (advance_seq tbl 1 db) = Some db' →
              db_indexes db' = db_indexes db
              ∧ (∀ n, n ≠ tbl → db_tables db' !! n = db_tables db !! n)
              ∧ (db_tables db !! tbl = None → db_tables db' !! tbl = None)
              ∧ (∀ tb, db_tables db !! tbl = Some tb →
                   ∃ tb', db_tables db' !! tbl = Some tb' ∧ tbl_def tb' = tbl_def tb
                          ∧ tbl_rows tb `prefix_of` tbl_rows tb')).
    { intros (Hi & Hne & Hnone & Hsome)%IH.
      destruct (advance_seq_frame tbl 1 db) as (Fi & Fne & Fnone & Fsome).
      split; [congruence|]. split; [|split].
      - intros n Hn. rewrite Hne by done. by apply Fne.
      - intros Hn. by apply Hnone, Fnone.
      - intros tb Ht. destruct (Hsome _ (Fsome tb Ht)) as (tb' & Ht' & Hd & Hp).
        by exists tb'. }
    destruct (insert_row now tbl (zip cols vs) db) as [db1 r| | |] eqn:Hins;
      try done; try apply Hskip.
    apply insert_row_inserted in Hins as (tb & Ht & ->).
    intros (Hi & Hne & Hnone & Hsome)%IH. cbn [db_tables db_indexes] in *.
    split; [done|]. split; [|split].
    + intros n Hn. rewrite Hne by done. by rewrite lookup_insert_ne.
    + by rewrite Ht.
    + intros tb0 Ht0. rewrite Ht in Ht0. injection Ht0 as <-.
      destruct (Hsome _ (lookup_insert_eq _ _ _)) as (tb' & Ht' & Hd & Hp).
      exists tb'. split; [done|]. split; [done|].
      cbn in Hp. etrans; [|exact Hp]. by apply prefix_app_r.
Qed.

Lemma grown_refl (ts ixs : list string) (db : database) : grown ts ixs db db.
Proof. repeat split; try done. intros n tb Hn. by exists tb. Qed.

Lemma grown_trans (ts ixs : list string) (db1 db2 db3 : database) :
  grown ts ixs db1 db2 → grown ts ixs db2 db3 → grown ts ixs db1 db3.
Proof.
  intros (Ht & Hi & Hnt & Hni) (Ht' & Hi' & Hnt' & Hni'). repeat split.
  - intros n tb Hn. destruct (Ht n tb Hn) as (tb2 & H2 & Hd2 & Hp2 & He2).
    destruct (Ht' n tb2 H2) as (tb3 & H3 & Hd3 & Hp3 & He3).
    exists tb3. split; [done|]. split; [congruence|]. split; [by etrans|].
    intros Hnin. by rewrite (He3 Hnin), (He2 Hnin).
  - intros n ix Hn. by apply Hi', Hi.
  - intros n Hnin Hn. by apply Hnt', Hnt.
  - intros n Hnin Hn. by apply Hni', Hni.
Qed.

Lemma exec_stmt_grown (defs : list table_def) (ixs : list string) (now : Z) (s : stmt)
    (db db' : database) :
  adds_within defs ixs s = true → exec_stmt now s db = Some db' →
  grown (map td_name defs) ixs db db'.
Proof.
  destruct s as [td|name tbl col|tbl cols rows| |]; cbn; try done.
  - intros Hin%bool_decide_eq_true. apply (list_elem_of_fmap_2 td_name) in Hin.
    destruct (db_tables db !! td_name td) eqn:Ht; intros [= <-]; [apply grown_refl|].
    repeat split; cbn.
    + intros n tb Hn. exists tb. rewrite lookup_insert_ne by congruence. done.
    + done.
    + intros n Hnin Hn. rewrite lookup_insert_ne; [done|]. by intros <-.
    + done.
  - intros Hin%bool_decide_eq_true.
    destruct (db_indexes db !! name) eqn:Hi; [intros [= <-]; apply grown_refl|].
    destruct (db_tables db !! tbl) as [tb|]; cbn; [|done].
    destruct (has_column (tbl_def tb) col); [|done]. intros [= <-].
    repeat split; cbn.
    + intros n tb0 Hn. by exists tb0.
    + intros n ix Hn. rewrite lookup_insert_ne by congruence. done.
    + done.
    + intros n Hnin Hn. rewrite lookup_insert_ne; [done|]. by intros <-.
  - intros Hin%bool_decide_eq_true (Hi & Hne & Hnone & Hsome)%insert_or_ignore_appends.
    repeat split.
    + intros n tb Hn. destruct (decide (n = tbl)) as [->|Hn'].
      * destruct (Hsome tb Hn) as (tb' & Ht' & Hd & Hp). exists tb'. by repeat split.
      * exists tb. rewrite Hne by done. done.
    + intros n ix. by rewrite Hi.
    + intros n Hnin Hn. rewrite Hne; [done|]. by intros ->.
    + intros n _. by rewrite Hi.
Qed.

Lemma exec_script_grown (defs : list table_def) (ixs : list string) (now : Z)
    (script : list stmt) (db db' : database) :
  forallb (adds_within defs ixs) script = true →
  exec_script now script db = Some db' → grown (map td_name defs) ixs db db'.
Proof.
  revert db. induction script as [|s script IH]; intros db; cbn.
  - intros _ [= <-]. apply grown_refl.
  - intros [Hs Hk]%andb_true_iff.
    destruct (exec_stmt now s db) as [db1|] eqn:H1; cbn; [|done].
    intros H2. eapply grown_trans; [by eapply exec_stmt_grown|by apply IH].
Qed.

(** X1. The up script only adds. Whatever database it is run on, if it
    succeeds then every table that was there is still there with its
    definition, and the rows it had are an initial segment of the rows it
    has afterwards (a table other than the four auth tables is exactly as it
    was); every index that was there is still there; and nothing is created
    beyond the four auth tables and the eight auth indexes. *)
Theorem up_script_only_adds (now : Z) (db0 db1 : database) :
  exec_script now up_script db0 = Some db1 →
  (∀ n tb, db_tables db0 !! n = Some tb →
     ∃ tb', db_tables db1 !! n = Some tb' ∧ tbl_def tb' = tbl_def tb
            ∧ tbl_rows tb `prefix_of` tbl_rows tb' ∧ (n ∉ auth_tables → tb' = tb))
  ∧ (∀ n ix, db_indexes db0 !! n = Some ix → db_indexes db1 !! n = Some ix)
  ∧ (∀ n, n ∉ auth_tables → db_tables db0 !! n = None → db_tables db1 !! n = None)
  ∧ (∀ n, n ∉ auth_indexes → db_indexes db0 !! n = None → db_indexes db1 !! n = None).
Proof.
  intros Hrun. apply (exec_script_grown auth_defs auth_indexes now up_script); [|done].
  vm_compute. reflexivity.
Qed.

Lemma up_script_only_adds_witness :
  (∀ n tb, db_tables db_legacy !! n = Some tb →
     ∃ tb', db_tables db_legacy_migrated !! n = Some tb' ∧ tbl_def tb' = tbl_def tb
            ∧ tbl_rows tb `prefix_of` tbl_rows tb' ∧ (n ∉ auth_tables → tb' = tb))
  ∧ (∀ n ix, db_indexes db_legacy !! n = Some ix → db_indexes db_legacy_migrated !! n = Some ix)
  ∧ (∀ n, n ∉ auth_tables → db_tables db_legacy !! n = None →
          db_tables db_legacy_migrated !! n = None)
  ∧ (∀ n, n ∉ auth_indexes → db_indexes db_legacy !! n = None →
          db_indexes db_legacy_migrated !! n = None).
Proof.
  apply (up_script_only_adds 5 db_legacy db_legacy_migrated). vm_compute. reflexivity.
Defined.









End RerunFacts.

(** ** The down script undoes partial runs *)

Module DownFacts.
Import Sql Schema SqlFacts MigrationFacts Migration RerunFacts Scenarios.

Lemma forallb_take {A} (p : A → bool) (k : nat) (l : list A) :
  forallb p l = true → forallb p (take k l) = true.
Proof.
  rewrite !forallb_forall. intros Hl x Hx%list_elem_of_In.
  apply Hl, list_elem_of_In. by apply (subseteq_take k).
Qed.

Lemma auth_defs_by_name (td td' : table_def) :
  td ∈ auth_defs → td' ∈ auth_defs → td_name td = td_name td' → td = td'.
Proof.
  unfold auth_defs. intros H1 H2.
  repeat (apply elem_of_cons in H1 as [->|H1]); [..|by apply elem_of_nil in H1].
  all: repeat (apply elem_of_cons in H2 as [->|H2]); [..|by apply elem_of_nil in H2].
  all: first [done | by intros ?%(f_equal String.length)].
Qed.

Lemma partly_migrated_start (db0 : database) :
  unrelated db0 = true → partly_migrated db0 db0.
Proof.
  intros (HT & _)%unrelated_spec. repeat split; try done.
  intros td tb Htd Hn. rewrite HT in Hn; [done|].
  change auth_tables with (map td_name auth_defs). by apply list_elem_of_fmap_2.
Qed.

Lemma partly_migrated_step (now : Z) (s : stmt) (db0 db db' : database) :
  adds_within auth_defs auth_indexes s = true →
  partly_migrated db0 db → exec_stmt now s db = Some db' → partly_migrated db0 db'.
Proof.
  intros Hs (HT & HI & HD) Hex.
  pose proof (exec_stmt_grown _ _ _ _ _ _ Hs Hex) as (Gt & Gi & Gnt & Gni).
  change (map td_name auth_defs) with auth_tables in *.
  split; [|split].
  - intros n Hn. rewrite <- (HT n Hn).
    destruct (db_tables db !! n) as [tb|] eqn:Htb.
    + destruct (Gt n tb Htb) as (tb' & -> & _ & _ & ->); done.
    + by apply Gnt.
  - intros n Hn. rewrite <- (HI n Hn).
    destruct (db_indexes db !! n) as [ix|] eqn:Hix; [by apply Gi|by apply Gni].
  - intros td tb' Htd Hn.
    destruct (db_tables db !! td_name td) as [tb|] eqn:Htb.
    + destruct (Gt _ tb Htb) as (tb2 & H2 & Hd & _). rewrite Hn in H2.
      injection H2 as <-. rewrite Hd. by apply (HD td).
    + destruct s as [td0|name tbl col|tbl cols rows| |]; cbn in Hs, Hex; try done.
      * apply bool_decide_eq_true in Hs.
        destruct (db_tables db !! td_name td0) eqn:H0; injection Hex as <-;
          [congruence|]. cbn in Hn.
        destruct (decide (td_name td0 = td_name td)) as [Heq|Hne].
        -- rewrite Heq, lookup_insert_eq in Hn. injection Hn as <-. cbn.
           by apply auth_defs_by_name.
        -- rewrite lookup_insert_ne in Hn by done. congruence.
      * destruct (db_indexes db !! name); [injection Hex as <-; congruence|].
        destruct (db_tables db !! tbl) as [tb0|]; cbn in Hex; [|done].
        destruct (has_column (tbl_def tb0) col); [|done].
        injection Hex as <-. cbn in Hn. congruence.
      * apply insert_or_ignore_appends in Hex as (_ & Hne & Hnone & _).
        destruct (decide (td_name td = tbl)) as [<-|Hd].
        -- rewrite Hnone in Hn; done.
        -- rewrite Hne in Hn by done. congruence.
Qed.

Lemma partly_migrated_script (now : Z) (script : list stmt) (db0 db db' : database) :
  forallb (adds_within auth_defs auth_indexes) script = true →
  partly_migrated db0 db → exec_script now script db = Some db' → partly_migrated db0 db'.
Proof.
  revert db. induction script as [|s script IH]; intros db; cbn.
  - by intros _ ? [= <-].
  - intros [Hs Hk]%andb_true_iff Hp.
    destruct (exec_stmt now s db) as [db1|] eqn:H1; cbn; [|done].
    apply IH; [done|]. by eapply partly_migrated_step.
Qed.

(** DROP TABLE IF EXISTS, where no index sits on the table. *)
Lemma exec_drop_table_if_exists (now : Z) (name : string) (T : gmap string table)
    (I : gmap string index_def) :
  filter (λ kv : string * index_def, ix_table kv.2 ≠ name) I = I →
  exec_stmt now (DropTableIfExists name) (Database T I) = Some (Database (delete name T) I).
Proof.
  intros Hfilter. destruct (T !! name) as [tb|] eqn:Ht.
  - erewrite exec_drop_table; [|exact Ht]. cbn. by rewrite Hfilter.
  - cbn. rewrite Ht. by rewrite delete_id.
Qed.

(** The down script, from any state between a database and its migrated
    form, gives the database back. *)
Lemma down_script_from_partly_migrated (now : Z) (db0 db : database) :
  unrelated db0 = true → partly_migrated db0 db →
  exec_script now down_script db = Some db0.
Proof.
  intros Hun (HT & HI & HD). destruct db0 as [T I], db as [T' I'].
  destruct (unrelated_spec _ Hun) as (HTn & HIn & Hother & Hfilter).
  cbn [db_tables db_indexes] in *.
  unfold down_script.
  do 8 (erewrite exec_script_step; [|apply exec_drop_index]; cbn [db_tables db_indexes]).
  match goal with
  | |- exec_script _ _ (Database _ ?I8) = _ =>
      assert (I8 = I) as ->
  end.
  { apply map_eq. intros k. destruct (decide (k ∈ auth_indexes)) as [Hk|Hk].
    - rewrite (HIn k Hk). auth_name_cases Hk.
      all: repeat first [apply lookup_delete_eq | rewrite lookup_delete_ne by done].
    - rewrite <- (HI k Hk).
      assert (∀ n, n ∈ auth_indexes → n ≠ k) as Hne by (intros n Hn ->; done).
      rewrite !lookup_delete_ne; [done|apply Hne; in_list..]. }
  do 4 (erewrite exec_script_step;
        [|apply exec_drop_table_if_exists; apply Hfilter; in_list]).
  cbn [exec_script]. f_equal. f_equal.
  apply map_eq. intros k. destruct (decide (k ∈ auth_tables)) as [Hk|Hk].
  - rewrite (HTn k Hk). auth_name_cases Hk.
    all: repeat first [apply lookup_delete_eq | rewrite lookup_delete_ne by done].
  - rewrite <- (HT k Hk).
    assert (∀ n, n ∈ auth_tables → n ≠ k) as Hne by (intros n Hn ->; done).
    rewrite !lookup_delete_ne; [done|apply Hne; in_list..].
Qed.

(** X3. The down script undoes every partial run of the up script: if
    the first [k] statements of the up script have been run on a database
    without auth objects, for any [k], the down script succeeds on the
    result and gives that database back. *)
Theorem down_script_undoes_partial_up (now now' : Z) (k : nat) (db0 dbk : database) :
  unrelated db0 = true →
  exec_script now (take k up_script) db0 = Some dbk →
  exec_script now' down_script dbk = Some db0.
Proof.
  intros Hun Hk. apply down_script_from_partly_migrated; [done|].
  apply (partly_migrated_script now (take k up_script) db0 db0 dbk); [|by apply partly_migrated_start|done].
  apply forallb_take. vm_compute. reflexivity.
Qed.

Lemma down_script_undoes_partial_up_witness :
  exec_script 9 down_script
    (default empty_db (exec_script 0 (take 5 up_script) db_projects))
  = Some db_projects.
Proof.
  apply (down_script_undoes_partial_up 0 9 5 db_projects); vm_compute; reflexivity.
Defined.

End DownFacts.

(** ** The seeded administrator and the roles *)

Module SeedFacts.
Import Sql Schema SqlFacts MigrationFacts Migration RerunFacts Scenarios.




End SeedFacts.

(** ** Duplicates *)

Module IntegrityFacts.
Import Sql Schema SqlFacts Migration RerunFacts Scenarios.





End IntegrityFacts.

(** ** Timestamps as text *)

Module NumberFacts.
Import Js Numeral.

Lemma digit_value_digit_char (d : Z) :
  0 ≤ d < 10 → digit_value (digit_char d) = Some d.
Proof.
  intros Hd.
  assert (d = 0 ∨ d = 1 ∨ d = 2 ∨ d = 3 ∨ d = 4 ∨ d = 5 ∨ d = 6 ∨ d = 7 ∨ d = 8 ∨ d = 9)
    as Hcases by lia.
  repeat (destruct Hcases as [->|Hcases]; [reflexivity|]). by subst.
Qed.

Lemma is_digit_not_white (c : ascii) : is_digit c → is_white c = false.
Proof.
  intros (d & Hd & ->).
  assert (d = 0 ∨ d = 1 ∨ d = 2 ∨ d = 3 ∨ d = 4 ∨ d = 5 ∨ d = 6 ∨ d = 7 ∨ d = 8 ∨ d = 9)
    as Hcases by lia.
  repeat (destruct Hcases as [->|Hcases]; [reflexivity|]). by subst.
Qed.

Lemma is_digit_plain (c : ascii) :
  is_digit c → c ≠ "-"%char ∧ c ≠ "+"%char ∧ c ≠ "x"%char ∧ c ≠ "X"%char.
Proof.
  intros (d & Hd & ->).
  assert (d = 0 ∨ d = 1 ∨ d = 2 ∨ d = 3 ∨ d = 4 ∨ d = 5 ∨ d = 6 ∨ d = 7 ∨ d = 8 ∨ d = 9)
    as Hcases by lia.
  repeat (destruct Hcases as [->|Hcases]; [by repeat split|]). subst. by repeat split.
Qed.

(** Reading back the digits [decimal_digits] writes in front of [acc]. *)
Lemma read_decimal_digits (fuel : nat) (n : Z) (acc : string) (p : option Z) :
  0 ≤ n < 10 ^ Z.of_nat (S fuel) →
  ∃ (c : ascii) (cs : list ascii) (k : Z),
    list_ascii_of_string (decimal_digits (S fuel) n acc) = c :: cs
    ∧ is_digit c
    ∧ (cs = list_ascii_of_string acc ∨ ∃ c' cs', cs = c' :: cs' ∧ is_digit c')
    ∧ 0 ≤ k
    ∧ read_digits 10 (c :: cs) p
      = read_digits 10 (list_ascii_of_string acc) (Some (default 0 p * 10 ^ k + n)).
Proof.
  revert n acc p. induction fuel as [|fuel IH]; intros n acc p Hn.
  - cbn [decimal_digits]. assert (n / 10 = 0) as Hq by (apply Z.div_small; lia).
    rewrite bool_decide_eq_true_2 by done.
    assert (n mod 10 = n) as Hm by (apply Z.mod_small; lia). rewrite Hm.
    exists (digit_char n), (list_ascii_of_string acc), 1.
    split; [done|]. split; [exists n; split; [lia|done]|]. split; [by left|].
    split; [lia|]. cbn [read_digits]. rewrite digit_value_digit_char by lia.
    rewrite bool_decide_eq_true_2 by lia. do 2 f_equal; lia.
  - cbn [decimal_digits].
    assert (Hmod : 0 ≤ n mod 10 < 10) by (apply Z.mod_pos_bound; lia).
    case_bool_decide as Hq.
    + assert (n mod 10 = n) as Hm by (pose proof (Z.div_mod n 10 ltac:(lia)); lia).
      rewrite Hm.
      exists (digit_char n), (list_ascii_of_string acc), 1.
      split; [done|]. split; [exists n; split; [lia|done]|]. split; [by left|].
      split; [lia|]. cbn [read_digits]. rewrite digit_value_digit_char by lia.
      rewrite bool_decide_eq_true_2 by lia. do 2 f_equal; lia.
    + destruct (IH (n / 10) (String (digit_char (n mod 10)) acc) p)
        as (c & cs & k & Hs & Hc & Hcs & Hk & Hread).
      { split; [apply Z.div_pos; lia|].
        apply Z.div_lt_upper_bound; [lia|].
        replace (Z.of_nat (S (S fuel))) with (Z.succ (Z.of_nat (S fuel))) in Hn by lia.
        rewrite Z.pow_succ_r in Hn by lia. lia. }
      exists c, cs, (k + 1). split; [done|]. split; [done|]. split.
      { right. destruct Hcs as [->|Hcs]; [|done].
        cbn. eexists _, _. split; [done|]. by exists (n mod 10). }
      split; [lia|]. rewrite Hread. cbn [list_ascii_of_string read_digits].
      rewrite digit_value_digit_char by done.
      rewrite bool_decide_eq_true_2 by lia. cbn [default]. do 2 f_equal.
      rewrite Z.pow_add_r by lia. change (10 ^ 1) with 10.
      pose proof (Z.div_mod n 10 ltac:(lia)) as Hdm.
      unfold id. rewrite Z.mul_assoc. lia.
Qed.

Lemma log2_fuel (n : Z) : 0 ≤ n → n < 10 ^ Z.of_nat (S (Z.to_nat (Z.log2 n))).
Proof.
  intros Hn. destruct (decide (n = 0)) as [->|Hne]; [done|].
  pose proof (Z.log2_spec n ltac:(lia)) as [_ Hlt].
  pose proof (Z.log2_nonneg n) as Hl.
  replace (Z.of_nat (S (Z.to_nat (Z.log2 n)))) with (Z.succ (Z.log2 n)) by lia.
  eapply Z.lt_le_trans; [exact Hlt|].
  apply Z.pow_le_mono_l. lia.
Qed.

(** [parseInt] reads back what [toString] wrote. *)
Lemma parseInt_number_toString (n : Z) : parseInt (number_toString n) = Some n.
Proof.
  unfold number_toString.
  destruct (read_decimal_digits (Z.to_nat (Z.log2 (Z.abs n))) (Z.abs n) EmptyString None)
    as (c & cs & k & Hs & Hc & Hcs & Hk & Hread).
  { split; [lia|]. apply log2_fuel. lia. }
  cbn [list_ascii_of_string read_digits default] in Hread.
  assert (Hun : read_unsigned (c :: cs) = Some (Z.abs n)).
  { replace (0 * 10 ^ k + Z.abs n) with (Z.abs n) in Hread by lia. rewrite <- Hread.
    unfold read_unsigned.
    destruct Hcs as [->|(c' & cs' & -> & Hc')].
    - by destruct c as [[] [] [] [] [] [] [] []].
    - destruct (is_digit_plain c' Hc') as (_ & _ & Hx & HX).
      rewrite (bool_decide_eq_false_2 (c' = "x"%char ∨ c' = "X"%char)) by tauto.
      by destruct c as [[] [] [] [] [] [] [] []]. }
  pose proof (is_digit_not_white c Hc) as Hw.
  destruct (is_digit_plain c Hc) as (Hm & Hp & _).
  unfold parseInt. case_bool_decide as Hneg.
  - cbn [list_ascii_of_string skip_white]. change (is_white "-") with false. cbn iota.
    rewrite Hs, Hun. cbn. f_equal. lia.
  - rewrite Hs. cbn [skip_white]. rewrite Hw.
    assert (Z.abs n = n) as Habs by lia. rewrite Habs in Hun. rewrite <- Hun.
    by destruct c as [[] [] [] [] [] [] [] []].
Qed.

End NumberFacts.

(** ** The layout's check, in full *)

Module LayoutFacts.
Import Js Browser App Layout NumberFacts.

Section Handler.
Context `{Platform}.

(** The run of the layout's check, by what it finds. *)
Lemma handleAuth_run (net : network) (pathname asPath : string) (now : Z)
    (storage : gmap string string) :
  run (handleAuth net pathname asPath now) storage =
  if bool_decide (pathname = "/login")
  then (Done tt, Browser storage [SetIsLogin false; SetIsLogin true])
  else if some_truthy (storage !! STORAGE_USERINFO_KEY)
          && some_truthy (storage !! STORAGE_USERINFO_VALID_TIME_KEY)
          && within_window now (default EmptyString (storage !! STORAGE_USERINFO_VALID_TIME_KEY))
  then (Done tt, Browser storage [SetIsLogin false; SetIsLogin true])
  else
    let redirect := RouterPush ("/login?redirect=" +:+ encodeURIComponent asPath) in
    match net (GET "/api/v1/auth/me") with
    | NetworkError =>
        (Done tt, Browser storage [SetIsLogin false; Fetch (GET "/api/v1/auth/me");
                                   ConsoleLog "Auth check failed:"; redirect])
    | Response false _ =>
        (Done tt, Browser storage [SetIsLogin false; Fetch (GET "/api/v1/auth/me"); redirect])
    | Response true None =>
        (Done tt, Browser storage [SetIsLogin false; Fetch (GET "/api/v1/auth/me");
                                   ConsoleLog "Auth check failed:"; redirect])
    | Response true (Some result) =>
        if nullish result
        then (Done tt, Browser storage [SetIsLogin false; Fetch (GET "/api/v1/auth/me");
                                        ConsoleLog "Auth check failed:"; redirect])
        else if truthy (own result "success")
                && truthy (opt_prop (own result "data") "user")
        then
          let user := own (own result "data") "user" in
          (Done tt,
           Browser (<[STORAGE_USERINFO_VALID_TIME_KEY := number_toString now]>
                      (<[STORAGE_USERINFO_KEY := JSON_stringify user]> storage))
             [SetIsLogin false; Fetch (GET "/api/v1/auth/me");
              StorageSet STORAGE_USERINFO_KEY (JSON_stringify user);
              StorageSet STORAGE_USERINFO_VALID_TIME_KEY (number_toString now);
              SetIsLogin true])
        else (Done tt, Browser storage [SetIsLogin false; Fetch (GET "/api/v1/auth/me");
                                        redirect])
    end.
Proof.
  unfold handleAuth, authenticate_with_cookie. js_simpl.
  case_bool_decide; [done|]. cbn.
  destruct (some_truthy _ && some_truthy _ && within_window _ _); [done|].
  destruct (net (GET "/api/v1/auth/me")) as [|[] [result|]]; cbn; try done.
  unfold prop. destruct (nullish result) eqn:Hn; cbn; [done|].
  destruct (truthy (own result "success")); cbn; [|done].
  destruct (truthy (opt_prop (own result "data") "user")) eqn:Hu; cbn; [|done].
  destruct (nullish (own result "data")) eqn:Hd; cbn; [|done].
  unfold opt_prop in Hu. by rewrite Hd in Hu.
Qed.

(** X7. Every run of the layout's check completes, and it ends in one of
    two ways: the client is marked logged in and there is no navigation, or
    it is not, the one navigation goes to the login page carrying the
    current path, and local storage is as before. At most one request is
    sent, and on the login page itself none: there the client is marked
    logged in at once. *)
Theorem handleAuth_renders_or_redirects
    (net : network) (pathname asPath : string) (now : Z) (storage : gmap string string) :
  let r := run (handleAuth net pathname asPath now) storage in
  r.1 = Done tt
  ∧ ((isLogin_after (trace r.2) = true ∧ navigations r.2 = [])
     ∨ (isLogin_after (trace r.2) = false
        ∧ navigations r.2 = ["/login?redirect=" +:+ encodeURIComponent asPath]
        ∧ localStorage r.2 = storage))
  ∧ (length (fetched r.2) ≤ 1)%nat
  ∧ (pathname = "/login" →
       isLogin_after (trace r.2) = true ∧ fetched r.2 = [] ∧ localStorage r.2 = storage).
Proof.
  intros r. subst r. rewrite handleAuth_run.
  case_bool_decide as Hp; [cbn; settle|].
  destruct (some_truthy _ && some_truthy _ && within_window _ _); [cbn; settle|].
  cbn zeta.
  destruct (net (GET "/api/v1/auth/me")) as [|[] [result|]]; cbn.
  2:{ destruct (nullish result); cbn; [settle|].
      destruct (truthy (own result "success")
                && truthy (opt_prop (own result "data") "user")); cbn; settle. }
  all: settle.
Qed.

(** A stale record fails the test of the layout. *)
Lemma stale_record_not_trusted (now : Z) (storage : gmap string string) :
  stale_record now storage →
  some_truthy (storage !! STORAGE_USERINFO_KEY)
    && some_truthy (storage !! STORAGE_USERINFO_VALID_TIME_KEY)
    && within_window now (default EmptyString (storage !! STORAGE_USERINFO_VALID_TIME_KEY))
  = false.
Proof.
  intros [->| [->| [->| (validTime & -> & Hv)]]]; cbn; try done.
  - by rewrite andb_false_r.
  - unfold within_window.
    destruct Hv as [[_ ->]|(stored & -> & Hold)]; [by rewrite andb_false_r|].
    rewrite (bool_decide_eq_false_2 (now - stored < thirty_days_ms)) by lia.
    by rewrite andb_false_r.
Qed.

(** X8. Off the login page, a record that is missing, empty, unreadable
    or thirty days old (to the millisecond) is not trusted: the server is
    asked. The client is then marked logged in only if the answer is [ok]
    and carries [success] and a user; otherwise the visitor is sent to the
    login page with local storage as it was. An unreadable time is ASCII
    text from which [parseInt] reads no number; [now] is a reading of
    [Date.now()]. *)
Theorem stale_record_asks_the_server
    (net : network) (pathname asPath : string) (now : Z) (storage : gmap string string) :
  pathname ≠ "/login" →
  time_value now = true →
  stale_record now storage →
  let r := run (handleAuth net pathname asPath now) storage in
  fetched r.2 = [GET "/api/v1/auth/me"]
  ∧ (isLogin_after (trace r.2) = true →
       ∃ result, net (GET "/api/v1/auth/me") = Response true (Some result)
                 ∧ truthy (own result "success") = true
                 ∧ truthy (own (own result "data") "user") = true)
  ∧ (isLogin_after (trace r.2) = false →
       navigations r.2 = ["/login?redirect=" +:+ encodeURIComponent asPath]
       ∧ localStorage r.2 = storage).
Proof.
  intros Hp _ Hstale r. subst r.
  rewrite handleAuth_run. rewrite bool_decide_eq_false_2 by done.
  rewrite (stale_record_not_trusted _ _ Hstale).
  cbn zeta.
  destruct (net (GET "/api/v1/auth/me")) as [|[] [result|]]; cbn; try done.
  destruct (nullish result) eqn:Hn; cbn; [done|].
  destruct (truthy (own result "success")) eqn:Hs; cbn; [|done].
  destruct (truthy (opt_prop (own result "data") "user")) eqn:Hu; cbn; [|done].
  repeat split; try done. intros _. exists result. repeat split; try done.
  unfold opt_prop in Hu. by destruct (nullish (own result "data")).
Qed.

(** What the check does depends on local storage through its two items
    only. *)
Lemma handleAuth_reads_two_items (net : network) (pathname asPath : string) (now : Z)
    (storage storage' : gmap string string) :
  storage' !! STORAGE_USERINFO_KEY = storage !! STORAGE_USERINFO_KEY →
  storage' !! STORAGE_USERINFO_VALID_TIME_KEY = storage !! STORAGE_USERINFO_VALID_TIME_KEY →
  (run (handleAuth net pathname asPath now) storage').1
  = (run (handleAuth net pathname asPath now) storage).1
  ∧ trace (run (handleAuth net pathname asPath now) storage').2
    = trace (run (handleAuth net pathname asPath now) storage).2.
Proof.
  intros Hk Hv. rewrite !handleAuth_run, Hk, Hv.
  case_bool_decide; [done|].
  destruct (some_truthy _ && some_truthy _ && within_window _ _); [done|].
  cbn zeta.
  destruct (net (GET "/api/v1/auth/me")) as [|[] [result|]]; try done.
  destruct (nullish result); [done|].
  by destruct (truthy (own result "success")
               && truthy (opt_prop (own result "data") "user")).
Qed.

(** A timestamp the check has written is inside the window for the next
    thirty days. *)
Lemma within_window_fresh (now now' : Z) :
  now' - now < thirty_days_ms → within_window now' (number_toString now) = true.
Proof.
  intros Hlt. unfold within_window. rewrite parseInt_number_toString.
  by apply bool_decide_eq_true.
Qed.

Lemma number_toString_nonempty (n : Z) : number_toString n ≠ EmptyString.
Proof.
  intros Heq. pose proof (parseInt_number_toString n) as Hp. by rewrite Heq in Hp.
Qed.

(** The check on a storage that holds a user record and a timestamp written
    at [now]. *)
Lemma handleAuth_after_record (net : network) (pathname asPath : string)
    (now now' : Z) (storage : gmap string string) (userInfo : string) :
  STORAGE_USERINFO_KEY ≠ STORAGE_USERINFO_VALID_TIME_KEY →
  userInfo ≠ EmptyString →
  now' - now < thirty_days_ms →
  let stored := <[STORAGE_USERINFO_VALID_TIME_KEY := number_toString now]>
                  (<[STORAGE_USERINFO_KEY := userInfo]> storage) in
  run (handleAuth net pathname asPath now') stored
  = (Done tt, Browser stored [SetIsLogin false; SetIsLogin true]).
Proof.
  intros Hkeys Hu Hlt stored. rewrite handleAuth_run.
  case_bool_decide; [done|]. subst stored.
  rewrite lookup_insert_ne by done. rewrite !lookup_insert_eq. cbn.
  rewrite bool_decide_eq_true_2 by done.
  rewrite bool_decide_eq_true_2 by apply number_toString_nonempty.
  by rewrite within_window_fresh.
Qed.

(** X9. What the server confirmed once is not asked again for thirty
    days. When the check finds a stale record, asks, and the server confirms
    the session, the user and the time of the check are stored; a later
    check, on any page and less than thirty days after, reads the time back,
    sends no request and marks the client logged in, whatever the server
    would answer by then. The two times are readings of [Date.now()]. *)
Theorem confirmed_session_is_trusted_for_thirty_days
    (net net' : network) (pathname asPath pathname' asPath' : string)
    (now now' : Z) (storage : gmap string string) (result : json) :
  STORAGE_USERINFO_KEY ≠ STORAGE_USERINFO_VALID_TIME_KEY →
  pathname ≠ "/login" →
  time_value now = true → time_value now' = true →
  stale_record now storage →
  net (GET "/api/v1/auth/me") = Response true (Some result) →
  truthy (own result "success") = true →
  truthy (own (own result "data") "user") = true →
  JSON_stringify (own (own result "data") "user") ≠ EmptyString →
  now' - now < thirty_days_ms →
  let first := run (handleAuth net pathname asPath now) storage in
  let second := run (handleAuth net' pathname' asPath' now') (localStorage first.2) in
  localStorage first.2 !! STORAGE_USERINFO_KEY
    = Some (JSON_stringify (own (own result "data") "user"))
  ∧ localStorage first.2 !! STORAGE_USERINFO_VALID_TIME_KEY = Some (number_toString now)
  ∧ fetched first.2 = [GET "/api/v1/auth/me"]
  ∧ fetched second.2 = []
  ∧ isLogin_after (trace second.2) = true
  ∧ localStorage second.2 = localStorage first.2.
Proof.
  intros Hkeys Hp _ _ Hstale Hnet Hs Hu Hjson Hlt first second. subst second first.
  rewrite (handleAuth_run net). rewrite bool_decide_eq_false_2 by done.
  rewrite (stale_record_not_trusted _ _ Hstale), Hnet. cbn zeta.
  assert (nullish result = false) as -> by (by destruct result).
  assert (nullish (own result "data") = false) as Hd
      by (by destruct (own result "data")).
  unfold opt_prop. rewrite Hd, Hs, Hu. cbn [andb fst snd localStorage].
  rewrite handleAuth_after_record by done. cbn.
  rewrite lookup_insert_ne by done. by rewrite !lookup_insert_eq.
Qed.

End Handler.

Lemma stale_record_asks_the_server_witness :
  fetched (run (@handleAuth Fixtures.sample_platform
                  (Fixtures.answering (Response false None))
                  "/chat" "/chat" (1700000000000 + thirty_days_ms))
               Fixtures.fresh_storage).2
  = [GET "/api/v1/auth/me"].
Proof.
  apply (@stale_record_asks_the_server Fixtures.sample_platform
           (Fixtures.answering (Response false None))
           "/chat" "/chat" (1700000000000 + thirty_days_ms) Fixtures.fresh_storage).
  - discriminate.
  - reflexivity.
  - right. right. right. exists "1700000000000". split; [vm_compute; reflexivity|].
    right. exists 1700000000000. split; [vm_compute; reflexivity|]. lia.
Defined.

(** The server confirms the session at one instant; a day later, on another
    page and with a server that would refuse, nothing is asked. *)
Lemma confirmed_session_is_trusted_for_thirty_days_witness :
  let first := run (@handleAuth Fixtures.sample_platform
                      (Fixtures.answering
                         (Response true (Some (AdminUsersPage.me_result "root" true true))))
                      "/chat" "/chat" 1700000000000) ∅ in
  let second := run (@handleAuth Fixtures.sample_platform
                       (Fixtures.answering (Response false None))
                       "/explore" "/explore" (1700000000000 + 86400000))
                    (localStorage first.2) in
  localStorage first.2 !! "__db_gpt_uinfo_key" = Some "[object Object]"
  ∧ localStorage first.2 !! "__db_gpt_uinfo_vt_key" = Some "1700000000000"
  ∧ fetched first.2 = [GET "/api/v1/auth/me"]
  ∧ fetched second.2 = []
  ∧ isLogin_after (trace second.2) = true
  ∧ localStorage second.2 = localStorage first.2.
Proof.
  apply (@confirmed_session_is_trusted_for_thirty_days Fixtures.sample_platform
           (Fixtures.answering
              (Response true (Some (AdminUsersPage.me_result "root" true true))))
           (Fixtures.answering (Response false None))
           "/chat" "/chat" "/explore" "/explore" 1700000000000 (1700000000000 + 86400000)
           ∅ (AdminUsersPage.me_result "root" true true)).
  5: by left.
  all: first [discriminate | vm_compute; reflexivity].
Defined.
End LayoutFacts.

(** ** The login handler, in full *)

Module LoginFlowFacts.
Import Js Browser LoginPage Layout LoginPageFacts LayoutFacts App Scenarios.

Section Handler.
Context `{Platform}.

(** The run of the login handler on anything but an answer that passes its
    success test. *)
Lemma handleLogin_failure (net : network) (redirect : option string) (now : Z)
    (values : json) (storage : gmap string string) :
  (∀ o result, net (login_request values) = Response o (Some result) →
               login_succeeded result = false) →
  ∃ shown,
    run (handleLogin net redirect now values) storage
    = (Done tt, Browser storage ([SetLoading true; Fetch (login_request values)]
                                 ++ shown ++ [SetLoading false]))
    ∧ (shown = [ConsoleError "Login error:"; MessageError (JStr (i18n_t "Login failed"))]
       ∨ ∃ result o,
           net (login_request values) = Response o (Some result)
           ∧ shown = [MessageError (or_else (opt_prop (own result "data") "message")
                                            (JStr (i18n_t "Login failed")))]).
Proof.
  intros Hfail. unfold handleLogin, login_body. js_simpl.
  destruct (net (login_request values)) as [|o [result|]] eqn:Hnet; cbn.
  1,3: exists [ConsoleError "Login error:"; MessageError (JStr (i18n_t "Login failed"))];
    split; [reflexivity|by left].
  specialize (Hfail o result eq_refl). unfold login_succeeded in Hfail.
  unfold prop. destruct (nullish result) eqn:Hn; cbn.
  { exists [ConsoleError "Login error:"; MessageError (JStr (i18n_t "Login failed"))].
    split; [reflexivity|by left]. }
  rewrite Hfail. cbn.
  exists [MessageError (or_else (opt_prop (own result "data") "message")
                                (JStr (i18n_t "Login failed")))].
  split; [reflexivity|]. right. by exists result, o.
Qed.

(** X10. A login that does not succeed leaves nothing behind: whether
    the request fails, the body cannot be read or the answer does not pass
    the success test, the handler completes with local storage as it was,
    without a cookie, without navigating and without a success message; it
    shows one error message. *)
Theorem failed_login_leaves_nothing_behind
    (net : network) (redirect : option string) (now : Z)
    (values : json) (storage : gmap string string) :
  (∀ o result, net (login_request values) = Response o (Some result) →
               login_succeeded result = false) →
  let r := run (handleLogin net redirect now values) storage in
  r.1 = Done tt
  ∧ localStorage r.2 = storage
  ∧ cookies_set r.2 = []
  ∧ navigations r.2 = []
  ∧ success_messages r.2 = []
  ∧ length (error_messages r.2) = 1%nat
  ∧ fetched r.2 = [login_request values].
Proof.
  intros Hfail r. subst r.
  destruct (handleLogin_failure net redirect now values storage Hfail)
    as (shown & -> & [->|(result & o & _ & ->)]); cbn; done.
Qed.

(** X11. Whatever the network does, the login handler completes: it sends
    the one login request (a POST without credentials), shows exactly one
    message, and the loading flag it raises first is lowered last. The
    message is the success message only for an answer that passes the
    success test. *)
Theorem handleLogin_always_settles
    (net : network) (redirect : option string) (now : Z)
    (values : json) (storage : gmap string string) :
  let r := run (handleLogin net redirect now values) storage in
  r.1 = Done tt
  ∧ head (trace r.2) = Some (SetLoading true)
  ∧ last (trace r.2) = Some (SetLoading false)
  ∧ fetched r.2 = [POST "/api/v1/auth/login" false (JSON_stringify values)]
  ∧ length (success_messages r.2 ++ error_messages r.2) = 1%nat
  ∧ (success_messages r.2 ≠ [] →
       ∃ o result, net (login_request values) = Response o (Some result)
                   ∧ login_succeeded result = true).
Proof.
  intros r. subst r.
  destruct (net (login_request values)) as [|o [result|]] eqn:Hnet.
  1,3: destruct (handleLogin_failure net redirect now values storage) as (shown & -> & Hs);
    [intros ?? Heq; by rewrite Hnet in Heq
    |destruct Hs as [->|(result & o' & _ & ->)]; cbn; by repeat split..].
  destruct (login_succeeded result) eqn:Hok.
  - rewrite (handleLogin_success net redirect now values result o storage Hnet Hok).
    cbn zeta. destruct (truthy (own (own result "data") "session_id")); cbn.
    all: repeat split; try done; intros _; by exists o, result.
  - destruct (handleLogin_failure net redirect now values storage) as (shown & -> & Hs).
    { intros o' result' Heq. rewrite Hnet in Heq. by injection Heq as <- <-. }
    destruct Hs as [->|(result' & o' & _ & ->)]; cbn; by repeat split.
Qed.

(** X12. A successful login does not write the record the layout reads.
    The two keys of the login page are [undefined], so both its writes go
    to the item named [undefined], the time of the login replacing the
    user: after the login local storage holds that time there and is
    otherwise as before. A layout whose keys are other names finds its two
    items as they were, and its check runs as it would have run without the
    login: where there was no record, it asks the server. *)
Theorem login_leaves_the_layouts_record_alone
    (net : network) (redirect : option string) (now : Z)
    (values result : json) (o : bool) (storage : gmap string string) :
  Browser.STORAGE_USERINFO_KEY ≠ "undefined" →
  Browser.STORAGE_USERINFO_VALID_TIME_KEY ≠ "undefined" →
  time_value now = true →
  net (login_request values) = Response o (Some result) →
  login_succeeded result = true →
  let login := run (handleLogin net redirect now values) storage in
  localStorage login.2 = <["undefined" := number_toString now]> storage
  ∧ localStorage login.2 !! Browser.STORAGE_USERINFO_KEY
    = storage !! Browser.STORAGE_USERINFO_KEY
  ∧ localStorage login.2 !! Browser.STORAGE_USERINFO_VALID_TIME_KEY
    = storage !! Browser.STORAGE_USERINFO_VALID_TIME_KEY
  ∧ (∀ (net' : network) (pathname asPath : string) (now' : Z),
       let before := run (handleAuth net' pathname asPath now') storage in
       let after := run (handleAuth net' pathname asPath now') (localStorage login.2) in
       after.1 = before.1 ∧ trace after.2 = trace before.2)
  ∧ (∀ (net' : network) (pathname asPath : string) (now' : Z),
       pathname ≠ "/login" →
       storage !! Browser.STORAGE_USERINFO_KEY = None →
       fetched (run (handleAuth net' pathname asPath now') (localStorage login.2)).2
       = [GET "/api/v1/auth/me"]).
Proof.
  intros Hk Hv _ Hnet Hok login. subst login.
  rewrite (handleLogin_success net redirect now values result o storage Hnet Hok).
  cbn zeta. cbn [snd localStorage]. rewrite insert_insert_eq.
  assert (Hkey : (<["undefined" := number_toString now]> storage : gmap string string)
                   !! Browser.STORAGE_USERINFO_KEY
                 = storage !! Browser.STORAGE_USERINFO_KEY)
    by (by rewrite lookup_insert_ne).
  assert (Hval : (<["undefined" := number_toString now]> storage : gmap string string)
                   !! Browser.STORAGE_USERINFO_VALID_TIME_KEY
                 = storage !! Browser.STORAGE_USERINFO_VALID_TIME_KEY)
    by (by rewrite lookup_insert_ne).
  split; [done|]. split; [done|]. split; [done|]. split.
  - intros net' pathname asPath now'. cbn zeta.
    by apply handleAuth_reads_two_items.
  - intros net' pathname asPath now' Hp Hnone.
    apply AppFacts.handleAuth_asks_server_otherwise; [done|].
    by rewrite Hkey, Hnone.
Qed.

End Handler.

(** A wrong password, refused with a message. *)
Lemma failed_login_leaves_nothing_behind_witness :
  let r := run (@handleLogin Fixtures.sample_platform
                  (Fixtures.answering (Response false (Some (refusal "Invalid credentials"))))
                  (Some "/chat") 1700000000000 Fixtures.login_form)
               Fixtures.fresh_storage in
  r.1 = Done tt
  ∧ localStorage r.2 = Fixtures.fresh_storage
  ∧ cookies_set r.2 = []
  ∧ navigations r.2 = []
  ∧ success_messages r.2 = []
  ∧ length (error_messages r.2) = 1%nat
  ∧ fetched r.2 = [@login_request Fixtures.sample_platform Fixtures.login_form].
Proof.
  apply (@failed_login_leaves_nothing_behind Fixtures.sample_platform
           (Fixtures.answering (Response false (Some (refusal "Invalid credentials"))))
           (Some "/chat") 1700000000000 Fixtures.login_form Fixtures.fresh_storage).
  intros o result [= <- <-]. reflexivity.
Defined.

(** A first login on a browser without a record, followed a day later by
    the layout's check: the login time sits under [undefined], and the
    layout asks the server. *)
Lemma login_leaves_the_layouts_record_alone_witness :
  let login := run (@handleLogin Fixtures.sample_platform
                      (Fixtures.answering
                         (Response true (Some (Fixtures.login_answer (JStr "sess-1")))))
                      None 1700000000000 Fixtures.login_form) ∅ in
  localStorage login.2 = <["undefined" := "1700000000000"]> ∅
  ∧ localStorage login.2 !! "__db_gpt_uinfo_key" = None
  ∧ localStorage login.2 !! "__db_gpt_uinfo_vt_key" = None
  ∧ fetched (run (@handleAuth Fixtures.sample_platform
                    (Fixtures.answering (Response false None))
                    "/chat" "/chat" (1700000000000 + 86400000))
                 (localStorage login.2)).2
    = [GET "/api/v1/auth/me"].
Proof.
  destruct (@login_leaves_the_layouts_record_alone Fixtures.sample_platform
              (Fixtures.answering
                 (Response true (Some (Fixtures.login_answer (JStr "sess-1")))))
              None 1700000000000 Fixtures.login_form
              (Fixtures.login_answer (JStr "sess-1")) true ∅)
    as (Hstore & Hkey & Hval & _ & Hask);
    [discriminate|discriminate|reflexivity|reflexivity|reflexivity|].
  split; [exact Hstore|]. split; [exact Hkey|]. split; [exact Hval|].
  apply Hask; [discriminate|reflexivity].
Defined.
End LoginFlowFacts.

(** ** The register handler *)

Module RegisterFacts.
Import Js Browser Component RegisterTab Scenarios.

Lemma omit_cons (k k0 : string) (v : json) (fields : list (string * json)) :
  omit k ((k0, v) :: fields)
  = if bool_decide (k0 = k) then omit k fields else (k0, v) :: omit k fields.
Proof. unfold omit. cbn. by case_bool_decide. Qed.

Lemma lookup_field_omit_ne (k k' : string) (fields : list (string * json)) :
  k' ≠ k → lookup_field (omit k fields) k' = lookup_field fields k'.
Proof.
  intros Hne. induction fields as [|[k0 v] fields IH]; [done|].
  rewrite omit_cons. cbn [lookup_field]. case_bool_decide as Hk.
  - subst k0. rewrite bool_decide_eq_false_2 by done. exact IH.
  - cbn [lookup_field]. by rewrite IH.
Qed.

Lemma lookup_field_omit_eq (k : string) (fields : list (string * json)) :
  lookup_field (omit k fields) k = JUndefined.
Proof.
  induction fields as [|[k0 v] fields IH]; [done|].
  rewrite omit_cons. case_bool_decide as Hk; [done|].
  cbn [lookup_field]. by rewrite bool_decide_eq_false_2.
Qed.

Lemma omit_sublist (k : string) (fields : list (string * json)) :
  omit k fields `sublist_of` fields.
Proof.
  induction fields as [|[k0 v] fields IH]; [done|].
  rewrite omit_cons. case_bool_decide; by constructor.
Qed.

Section Handler.
Context `{Platform}.

(** The run of the handler once the two passwords agree. *)
Lemma handleRegister_submitted (net : network) (fields : list (string * json))
    (storage : gmap string string) :
  passwords_match fields = true →
  start (handleRegister net fields) storage =
  (Done tt,
   Page storage
     ([Ev (SetLoading true); Ev (Fetch (register_request fields))]
      ++ match net (register_request fields) with
         | Response _ (Some result) =>
             if nullish result
             then [Ev (ConsoleError "Registration error:");
                   Ev (MessageError (JStr (i18n_t "Registration failed")))]
             else if LoginPage.login_succeeded result
             then [Ev (MessageSuccess (JStr (i18n_t "Registration successful, please login")));
                   SetActiveTab "login"]
             else [Ev (MessageError (or_else (opt_prop (own result "data") "message")
                                             (JStr (i18n_t "Registration failed"))))]
         | _ => [Ev (ConsoleError "Registration error:");
                 Ev (MessageError (JStr (i18n_t "Registration failed")))]
         end
      ++ [Ev (SetLoading false)])).
Proof.
  unfold passwords_match. intros Hm. unfold handleRegister. rewrite Hm. cbn [negb].
  handler_simpl.
  destruct (net (register_request fields)) as [|o [result|]]; cbn; try done.
  unfold prop, LoginPage.login_succeeded. destruct (nullish result) eqn:Hn; cbn; [done|].
  by destruct (truthy (own result "success") && truthy (opt_prop (own result "data") "success")).
Qed.

(** X13. Registration never signs the visitor in. Whatever the form holds
    and the network does, the handler completes without touching local
    storage, without a cookie and without navigating. When the two passwords
    differ nothing is sent and the only effect is the message; otherwise the
    one request is the registration, and the tab switches to the login form
    exactly when the answer passes the success test. *)
Theorem registration_never_signs_in
    (net : network) (fields : list (string * json)) (storage : gmap string string) :
  let r := start (handleRegister net fields) storage in
  r.1 = Done tt
  ∧ store r.2 = storage
  ∧ (∀ e, e ∈ events r.2 →
       match e with
       | StorageSet _ _ | CookieSet _ | RouterPush _ | SetIsLogin _ => False
       | _ => True
       end)
  ∧ (passwords_match fields = false →
       log r.2 = [Ev (MessageError (JStr (i18n_t "Passwords do not match")))])
  ∧ (passwords_match fields = true →
       requests r.2 = [register_request fields]
       ∧ (SetActiveTab "login" ∈ log r.2 ↔
            ∃ o result, net (register_request fields) = Response o (Some result)
                        ∧ LoginPage.login_succeeded result = true)).
Proof.
  intros r. subst r. destruct (passwords_match fields) eqn:Hm.
  - rewrite handleRegister_submitted by done.
    assert (Hnone : ∀ l : list action,
               (∀ a, a ∈ l → a ≠ SetActiveTab "login") →
               (∀ o result, net (register_request fields) = Response o (Some result) →
                            nullish result = false →
                            LoginPage.login_succeeded result = false) →
               SetActiveTab "login" ∈ ([Ev (SetLoading true);
                                         Ev (Fetch (register_request fields))]
                                       ++ l ++ [Ev (SetLoading false)])%list ↔
               ∃ o result, net (register_request fields) = Response o (Some result)
                           ∧ LoginPage.login_succeeded result = true).
    { intros l Hl Hno. split.
      - intros Hin. exfalso. cbn in Hin.
        do 2 (apply elem_of_cons in Hin as [?|Hin]; [done|]).
        apply elem_of_app in Hin as [Hin|Hin]; [by apply (Hl _ Hin)|].
        apply elem_of_cons in Hin as [?|Hin]; [done|]. by apply elem_of_nil in Hin.
      - intros (o & result & Hnet & Hok). exfalso.
        assert (nullish result = false) as Hn by (by destruct result).
        by rewrite (Hno o result Hnet Hn) in Hok. }
    destruct (net (register_request fields)) as [|o [result|]] eqn:Hnet.
    2: destruct (nullish result) eqn:Hn;
         [|destruct (LoginPage.login_succeeded result) eqn:Hs].
    3:{ cbn. repeat split; try done.
        - intros e He. repeat (apply elem_of_cons in He as [->|He]; [done|]).
          by apply elem_of_nil in He.
        - intros _. by exists o, result.
        - intros _. in_list. }
    all: split; [done|]; split; [done|]; split;
      [cbn; intros e He; repeat (apply elem_of_cons in He as [->|He]; [done|]);
       by apply elem_of_nil in He|].
    all: split; [done|]; intros _; split; [done|].
    all: apply Hnone;
      [intros a Ha; repeat (apply elem_of_cons in Ha as [->|Ha]; [done|]);
       by apply elem_of_nil in Ha
      |intros o' result' Heq Hn'; try done; injection Heq as <- <-; congruence].
  - unfold passwords_match in Hm. unfold handleRegister. rewrite Hm. cbn.
    repeat split; try done.
    intros e He. apply elem_of_cons in He as [->|He]; [done|]. by apply elem_of_nil in He.
Qed.

(** X14. The confirmation field stays in the browser: what is sent is the
    form's object without [confirmPassword], every other property as the
    form has it and in the same order. *)
Theorem confirmPassword_is_not_sent
    (net : network) (fields : list (string * json)) (storage : gmap string string) :
  passwords_match fields = true →
  ∃ sent,
    requests (start (handleRegister net fields) storage).2
    = [POST "/api/v1/auth/register" false (JSON_stringify (JObj sent))]
    ∧ own (JObj sent) "confirmPassword" = JUndefined
    ∧ (∀ k, k ≠ "confirmPassword" → own (JObj sent) k = own (JObj fields) k)
    ∧ sent `sublist_of` fields.
Proof.
  intros Hm. exists (omit "confirmPassword" fields).
  rewrite handleRegister_submitted by done. split; [|split; [|split]].
  - cbn. by destruct (net (register_request fields)) as [|o [result|]];
      [| destruct (nullish result); [|destruct (LoginPage.login_succeeded result)] |].
  - apply lookup_field_omit_eq.
  - intros k Hk. by apply lookup_field_omit_ne.
  - apply omit_sublist.
Qed.

End Handler.

Lemma confirmPassword_is_not_sent_witness :
  ∃ sent,
    requests (start (@handleRegister Fixtures.sample_platform
                       (Fixtures.answering (Response true (Some (refusal "Username taken"))))
                       register_form) ∅).2
    = [POST "/api/v1/auth/register" false
            (@JSON_stringify Fixtures.sample_platform (JObj sent))]
    ∧ own (JObj sent) "confirmPassword" = JUndefined
    ∧ (∀ k, k ≠ "confirmPassword" → own (JObj sent) k = own (JObj register_form) k)
    ∧ sent `sublist_of` register_form.
Proof.
  apply (@confirmPassword_is_not_sent Fixtures.sample_platform
           (Fixtures.answering (Response true (Some (refusal "Username taken"))))
           register_form ∅).
  reflexivity.
Defined.

End RegisterFacts.

(** ** The database-access modal *)

Module AccessModalFacts.
Import Js Browser Component AccessModal NumberFacts.

Section Handler.
Context `{Platform}.

(** Starting the requests of a list, one after the other, without waiting
    for any of them. *)
Lemma fetch_promises_run (net : network) (make : json → request) (items : list json)
    (p : page) :
  mapM (λ item, fetch_promise net (make item)) items p
  = (Done (map (λ item, net (make item)) items),
     Page (store p) (log p ++ map (λ item, Ev (Fetch (make item))) items)).
Proof.
  revert p. induction items as [|item items IH]; intros [st lg].
  - cbn. by rewrite app_nil_r.
  - cbn [mapM map]. unfold mbind, handler_bind at 1.
    change (fetch_promise net (make item) (Page st lg))
      with (Done (net (make item)), Page st (lg ++ [Ev (Fetch (make item))])).
    cbn iota. unfold handler_bind at 1. rewrite IH. cbn. by rewrite <- app_assoc.
Qed.

Lemma requests_of_fetches (make : json → request) (items : list json) :
  omap (λ a, match a with Ev (Fetch r) => Some r | _ => None end)
       (map (λ item, Ev (Fetch (make item))) items)
  = map make items.
Proof. induction items as [|item items IH]; cbn; [done|by rewrite IH]. Qed.

(** X15. Granting sends one request per selected database, all of them
    whatever becomes of the earlier ones, and reports success unless one of
    them failed at the network level: the status of the answers is not
    looked at, so that a request the server refused still counts as
    granted. Without a selected user nothing happens. *)
Theorem grant_reports_success_whatever_the_answers
    (net : network) (selectedUser values : json) (items : list json)
    (storage : gmap string string) :
  let r := start (handleGrantAccess net selectedUser values) storage in
  (truthy selectedUser = false → r = (Done tt, Page storage []))
  ∧ (truthy selectedUser = true → own values "databases" = JArr items →
       r.1 = Done tt
       ∧ store r.2 = storage
       ∧ requests r.2 = map (grant_request selectedUser) items
       ∧ log r.2
         = (map (λ item, Ev (Fetch (grant_request selectedUser item))) items
            ++ if existsb rejected (map (λ item, net (grant_request selectedUser item)) items)
               then [ Ev (ConsoleError "Failed to grant database access:");
                      Ev (MessageError (JStr "Failed to grant database access")) ]
               else [ Ev (MessageSuccess (JStr "Database access granted successfully"));
                      LoadUserDatabases (own selectedUser "id");
                      ResetFields ])%list).
Proof.
  intros r. subst r. split.
  - unfold handleGrantAccess. intros ->. reflexivity.
  - intros Ht Hdb.
    assert (nullish values = false) as Hn by (by destruct values).
    assert (Hrun : start (handleGrantAccess net selectedUser values) storage
                   = (Done tt, Page storage
        (map (λ item, Ev (Fetch (grant_request selectedUser item))) items
         ++ if existsb rejected (map (λ item, net (grant_request selectedUser item)) items)
            then [ Ev (ConsoleError "Failed to grant database access:");
                   Ev (MessageError (JStr "Failed to grant database access")) ]
            else [ Ev (MessageSuccess (JStr "Database access granted successfully"));
                   LoadUserDatabases (own selectedUser "id");
                   ResetFields ]))).
    { unfold handleGrantAccess, array_map. rewrite Ht. cbn [negb]. handler_simpl.
      unfold prop. rewrite Hn, Hdb. cbn.
      rewrite fetch_promises_run. cbn.
      destruct (existsb rejected _); cbn; by rewrite <- ?app_assoc. }
    rewrite Hrun.
    cbn [fst snd store log]. repeat split.
    unfold requests. cbn [log]. rewrite omap_app, requests_of_fetches.
    destruct (existsb rejected _); cbn; by rewrite app_nil_r.
Qed.

Lemma handleRevokeAccess_run (net : network) (selectedUser dbName : json)
    (storage : gmap string string) :
  truthy selectedUser = true →
  start (handleRevokeAccess net selectedUser dbName) storage
  = (Done tt,
     Page storage
       (Ev (Fetch (revoke_request selectedUser dbName))
        :: match net (revoke_request selectedUser dbName) with
           | Response true _ =>
               [ Ev (MessageSuccess (JStr "Database access revoked successfully"));
                 LoadUserDatabases (own selectedUser "id") ]
           | Response false _ =>
               [ Ev (MessageError (JStr "Failed to revoke database access")) ]
           | NetworkError =>
               [ Ev (ConsoleError "Failed to revoke database access:");
                 Ev (MessageError (JStr "Failed to revoke database access")) ]
           end)).
Proof.
  intros Ht. unfold handleRevokeAccess. rewrite Ht. cbn [negb]. handler_simpl.
  by destruct (net (revoke_request selectedUser dbName)) as [|[] parsed].
Qed.

(** X16. Revoking reports success exactly when the server answered [ok],
    and only then reloads the user's list; otherwise it reports the failure.
    Without a selected user nothing happens. *)
Theorem revoke_reports_what_the_server_answered
    (net : network) (selectedUser dbName : json) (storage : gmap string string) :
  let r := start (handleRevokeAccess net selectedUser dbName) storage in
  let granted := Ev (MessageSuccess (JStr "Database access revoked successfully")) in
  let failed := Ev (MessageError (JStr "Failed to revoke database access")) in
  (truthy selectedUser = false → r = (Done tt, Page storage []))
  ∧ (truthy selectedUser = true →
       r.1 = Done tt
       ∧ store r.2 = storage
       ∧ requests r.2 = [revoke_request selectedUser dbName]
       ∧ (granted ∈ log r.2 ↔
            ∃ parsed, net (revoke_request selectedUser dbName) = Response true parsed)
       ∧ (LoadUserDatabases (own selectedUser "id") ∈ log r.2 ↔ granted ∈ log r.2)
       ∧ (failed ∈ log r.2 ↔ granted ∉ log r.2)).
Proof.
  intros r granted failed. subst r granted failed. split.
  - unfold handleRevokeAccess. intros ->. reflexivity.
  - intros Ht. rewrite handleRevokeAccess_run by done.
    destruct (net (revoke_request selectedUser dbName)) as [|[] parsed] eqn:Hnet;
      cbn [fst snd store log].
    + split; [done|]. split; [done|]. split; [done|]. split; [|split].
      * split; [intros Hin; not_in_log Hin|by intros (? & [=])].
      * split; intros Hin; not_in_log Hin.
      * split; [intros _ Hin; not_in_log Hin|intros _; in_list].
    + split; [done|]. split; [done|]. split; [done|]. split; [|split].
      * split; [intros _; by exists parsed|intros _; in_list].
      * split; intros _; in_list.
      * split; [intros Hin; not_in_log Hin|intros Hn; exfalso; apply Hn; in_list].
    + split; [done|]. split; [done|]. split; [done|]. split; [|split].
      * split; [intros Hin; not_in_log Hin|by intros (? & [=])].
      * split; intros Hin; not_in_log Hin.
      * split; [intros _ Hin; not_in_log Hin|intros _; in_list].
Qed.

Lemma string_app_inj (p a b : string) : p +:+ a = p +:+ b → a = b.
Proof. induction p as [|c p IH]; cbn; [done|]. intros [= ?]. by apply IH. Qed.

Lemma number_toString_inj (n m : Z) : number_toString n = number_toString m → n = m.
Proof.
  intros Heq. pose proof (parseInt_number_toString n) as Hn.
  rewrite Heq, parseInt_number_toString in Hn. by injection Hn.
Qed.

(** X17. Opening the modal for a user selects that user, shows the modal
    and asks for the list of that user: the request carries the user's id in
    decimal, so that two users never share it. Loading the list completes
    whatever the network does; the list is replaced only by an [ok] answer
    that reports success, and no message is ever shown. The ids are
    integers that JavaScript holds exactly. *)
Theorem modal_asks_for_the_selected_user
    (net : network) (user : json) (id : Z) (storage : gmap string string) :
  own user "id" = JNum id →
  safe_integer id = true →
  let opened := start (handleManageDatabases user) storage in
  let loaded := start (loadUserDatabases net (JNum id)) storage in
  let request := GET ("/api/v1/auth/database-access?user_id=" +:+ number_toString id) in
  opened = (Done tt, Page storage [ SetSelectedUser user; SetModalVisible true;
                                    LoadUserDatabases (JNum id) ])
  ∧ loaded.1 = Done tt
  ∧ store loaded.2 = storage
  ∧ requests loaded.2 = [request]
  ∧ (∀ e, Ev e ∈ log loaded.2 →
       match e with MessageError _ | MessageSuccess _ => False | _ => True end)
  ∧ (∀ v, SetUserDatabases v ∈ log loaded.2 →
       ∃ result, net request = Response true (Some result)
                 ∧ truthy (own result "success") = true
                 ∧ v = own (own result "data") "databases")
  ∧ (∀ id', safe_integer id' = true →
            GET ("/api/v1/auth/database-access?user_id=" +:+ number_toString id') = request →
            id' = id).
Proof.
  intros Hid _ opened loaded request. subst opened loaded request.
  assert (nullish user = false) as Hn by (by destruct user).
  split.
  { unfold handleManageDatabases. handler_simpl. unfold prop. rewrite Hn, Hid. done. }
  assert (Hinj : ∀ id', safe_integer id' = true →
                        GET ("/api/v1/auth/database-access?user_id=" +:+ number_toString id')
                        = GET ("/api/v1/auth/database-access?user_id=" +:+ number_toString id)
                        → id' = id).
  { intros id' _ [= Heq]. by apply number_toString_inj. }
  unfold loadUserDatabases. handler_simpl.
  change (to_string (JNum id)) with (number_toString id).
  destruct (net (GET _)) as [|[] [result|]] eqn:Hnet; cbn.
  2:{ unfold prop. destruct (nullish result) eqn:Hr; cbn.
      { repeat split; try done.
        - intros e He. not_in_event He.
        - intros v Hv. not_in_log Hv. }
      destruct (truthy (own result "success")) eqn:Hs; cbn.
      - destruct (nullish (own result "data")) eqn:Hd; cbn.
        + repeat split; try done.
          * intros e He. not_in_event He.
          * intros v Hv. not_in_log Hv.
        + repeat split; try done.
          * intros e He. not_in_event He.
          * intros v Hv. repeat (apply elem_of_cons in Hv as [Hv|Hv]; try done).
            -- injection Hv as ->. by exists result.
            -- by apply elem_of_nil in Hv.
      - repeat split; try done.
        + intros e He. not_in_event He.
        + intros v Hv. not_in_log Hv. }
  all: repeat split; try done.
  all: try (intros e He; not_in_event He).
  all: try (intros v Hv; not_in_log Hv).
Qed.

End Handler.

Lemma modal_asks_for_the_selected_user_witness :
  requests (start (@loadUserDatabases
                     (Fixtures.answering (Response false None)) (JNum 2)) ∅).2
  = [GET "/api/v1/auth/database-access?user_id=2"].
Proof.
  apply (modal_asks_for_the_selected_user
           (Fixtures.answering (Response false None))
           (JObj [("id", JNum 2); ("username", JStr "alice")]) 2 ∅);
    reflexivity.
Defined.

End AccessModalFacts.

(** ** The loads and the gate of the admin page *)

Module LoaderFacts.
Import Js Browser AdminUsersPage Layout AdminUsersPageFacts.

(** X18. Loading the users always completes, with local storage as it
    was, and lowers the loading flag it raised. A refusal by the server is
    silent: on an answer that is not [ok] nothing is shown and the table is
    left alone. The table is replaced only by an [ok] answer that reports
    success; a request that fails shows "Failed to load users". *)
Theorem loadUsers_settles_and_refusals_are_silent
    (net : network) (storage : gmap string string) :
  let r := run (loadUsers net) storage in
  r.1 = Done tt
  ∧ localStorage r.2 = storage
  ∧ head (trace r.2) = Some (SetLoading true)
  ∧ last (trace r.2) = Some (SetLoading false)
  ∧ fetched r.2 = [GET "/api/v1/auth/users"]
  ∧ (length (users_set r.2) + length (error_messages r.2) ≤ 1)%nat
  ∧ (∀ parsed, net (GET "/api/v1/auth/users") = Response false parsed →
       trace r.2 = [SetLoading true; Fetch (GET "/api/v1/auth/users"); SetLoading false])
  ∧ (users_set r.2 ≠ [] →
       ∃ result, net (GET "/api/v1/auth/users") = Response true (Some result)
                 ∧ truthy (own result "success") = true
                 ∧ users_set r.2 = [own (own result "data") "users"])
  ∧ (net (GET "/api/v1/auth/users") = NetworkError →
       error_messages r.2 = [JStr "Failed to load users"]).
Proof.
  intros r. subst r. unfold loadUsers. js_simpl.
  destruct (net (GET "/api/v1/auth/users")) as [|[] [result|]] eqn:Hnet; cbn.
  2:{ unfold prop. destruct (nullish result) eqn:Hn; cbn;
        [repeat split; try done; lia|].
      destruct (truthy (own result "success")) eqn:Hs; cbn;
        [|repeat split; try done; lia].
      destruct (nullish (own result "data")) eqn:Hd; cbn;
        [repeat split; try done; lia|].
      repeat split; try done; try lia. intros _. by exists result. }
  all: repeat split; try done; try lia.
Qed.

(** X19. Loading the databases always completes, never shows a message,
    and never hands a falsy value to the list: an answer that reports
    success without data yields the empty list. *)
Theorem loadDatabases_never_sets_a_falsy_list
    (net : network) (storage : gmap string string) :
  let r := run (loadDatabases net) storage in
  r.1 = Done tt
  ∧ localStorage r.2 = storage
  ∧ fetched r.2 = [GET "/api/v1/chat/db/list"]
  ∧ error_messages r.2 = [] ∧ success_messages r.2 = []
  ∧ (∀ v, v ∈ databases_set r.2 → truthy v = true)
  ∧ (∀ result, net (GET "/api/v1/chat/db/list") = Response true (Some result) →
       truthy (own result "success") = true →
       databases_set r.2
       = [if truthy (own result "data") then own result "data" else JArr []]).
Proof.
  intros r. subst r. unfold loadDatabases. js_simpl.
  destruct (net (GET "/api/v1/chat/db/list")) as [|[] [result|]] eqn:Hnet; cbn.
  2:{ unfold prop. destruct (nullish result) eqn:Hn; cbn.
      { repeat split; try done; [by intros v ?%elem_of_nil|].
        intros ? [= <-]. by destruct result. }
      destruct (truthy (own result "success")) eqn:Hs; cbn.
      - repeat split; try done.
        + intros v Hv%list_elem_of_singleton. subst v. unfold or_else.
          by destruct (truthy (own result "data")) eqn:Hd.
        + by intros ? [= <-] _.
      - repeat split; try done; [by intros v ?%elem_of_nil|].
        intros ? [= <-]. congruence. }
  all: repeat split; try done; by intros v ?%elem_of_nil.
Qed.

(** X20. The admin page fails closed. Its two loads are started only on
    an [ok] answer that carries one of the two flags; in every other case, a
    failed request and an unreadable body among them, nothing is loaded and
    the visitor is sent away, to "/" or to "/login". The handler never does
    both, always completes, sends the one request and never writes to local
    storage. *)
Theorem admin_page_fails_closed (net : network) (storage : gmap string string) :
  let r := run (checkAdminAccess net) storage in
  r.1 = Done tt
  ∧ localStorage r.2 = storage
  ∧ fetched r.2 = [me_request]
  ∧ (spawned r.2 ≠ [] →
       ∃ result, net me_request = Response true (Some result)
                 ∧ is_superuser_flag result || admin_flag result = true)
  ∧ ((spawned r.2 = [LoadUsers; LoadDatabases] ∧ navigations r.2 = [])
     ∨ (spawned r.2 = [] ∧ (navigations r.2 = ["/"] ∨ navigations r.2 = ["/login"]))).
Proof.
  intros r. subst r. rewrite checkAdminAccess_run.
  destruct (net me_request) as [|[] [result|]] eqn:Hnet; cbn.
  2:{ destruct (is_superuser_flag result || admin_flag result) eqn:Hf.
      - assert (nullish result = false) as Hn.
        { destruct (nullish result) eqn:Hn; [|done].
          by rewrite (nullish_has_no_flags _ Hn) in Hf. }
        destruct result; try done; cbn; repeat split; try done.
        all: first [intros _; eexists; by split | left; by split].
      - destruct result; cbn; repeat split; try done; right; split; try done.
        all: first [by left | by right]. }
  all: repeat split; try done; right; split; try done; by right.
Qed.

End LoaderFacts.

(** ** The theme class *)

Module ThemeFacts.
Import Js Theme.

Lemma elem_of_applyMode (m c : string) (classList : gset string) :
  m ≠ EmptyString →
  c ∈ applyMode (Some m) classList
  ↔ (c ∈ classList ∨ c = m) ∧ c ≠ (if bool_decide (m = "light") then "dark" else "light").
Proof.
  intros Hm. unfold applyMode. cbn. rewrite bool_decide_eq_true_2 by done.
  case_bool_decide; rewrite elem_of_difference, elem_of_union, !elem_of_singleton; done.
Qed.

(** X21. After the effect has run for [light] or [dark], the body carries
    that theme class and not the other one, whatever it carried before; the
    other classes are as they were; and only the latest mode counts: running
    the effect for one mode and then for another gives what the second
    alone gives. Without a mode the classes are left alone. *)
Theorem body_carries_the_latest_theme_only (m m' : string) (classList : gset string) :
  m ∈ ["light"; "dark"] → m' ∈ ["light"; "dark"] →
  let after := applyMode (Some m) classList in
  m ∈ after
  ∧ (∀ other, other ∈ ["light"; "dark"] → other ≠ m → other ∉ after)
  ∧ (∀ c, c ∉ ["light"; "dark"] → c ∈ after ↔ c ∈ classList)
  ∧ applyMode (Some m') after = applyMode (Some m') classList
  ∧ applyMode None classList = classList
  ∧ applyMode (Some EmptyString) classList = classList.
Proof.
  intros Hm Hm' after. subst after.
  assert (m ≠ EmptyString ∧ m' ≠ EmptyString) as [Hne Hne'].
  { repeat (apply elem_of_cons in Hm as [->|Hm]); [..|by apply elem_of_nil in Hm].
    all: repeat (apply elem_of_cons in Hm' as [->|Hm']); [..|by apply elem_of_nil in Hm'].
    all: done. }
  split; [|split; [|split; [|split; [|done]]]].
  - apply elem_of_applyMode; [done|]. split; [by right|].
    repeat (apply elem_of_cons in Hm as [->|Hm]); [..|by apply elem_of_nil in Hm]; done.
  - intros other Ho Hom. rewrite elem_of_applyMode by done. intros [_ Hother].
    repeat (apply elem_of_cons in Hm as [->|Hm]); [..|by apply elem_of_nil in Hm].
    all: repeat (apply elem_of_cons in Ho as [->|Ho]); [..|by apply elem_of_nil in Ho].
    all: done.
  - intros c Hc. rewrite elem_of_applyMode by done.
    assert (c ≠ "light") by (intros ->; apply Hc; in_list).
    assert (c ≠ "dark") by (intros ->; apply Hc; in_list).
    repeat (apply elem_of_cons in Hm as [->|Hm]); [..|by apply elem_of_nil in Hm].
    all: cbn; intuition congruence.
  - apply set_eq. intros c. rewrite !elem_of_applyMode by done.
    repeat (apply elem_of_cons in Hm as [->|Hm]); [..|by apply elem_of_nil in Hm].
    all: repeat (apply elem_of_cons in Hm' as [->|Hm']); [..|by apply elem_of_nil in Hm'].
    all: cbn; (destruct (decide (c = "light")) as [->|];
               [|destruct (decide (c = "dark")) as [->|]]); try tauto.
    all: intuition done.
Qed.

Lemma body_carries_the_latest_theme_only_witness :
  let after := applyMode (Some "dark") {[ "light"; "antialiased" ]} in
  "dark" ∈ after
  ∧ (∀ other, other ∈ ["light"; "dark"] → other ≠ "dark" → other ∉ after)
  ∧ (∀ c, c ∉ ["light"; "dark"] → c ∈ after ↔ c ∈ ({[ "light"; "antialiased" ]} : gset string))
  ∧ applyMode (Some "light") after = applyMode (Some "light") {[ "light"; "antialiased" ]}
  ∧ applyMode None {[ "light"; "antialiased" ]} = ({[ "light"; "antialiased" ]} : gset string)
  ∧ applyMode (Some EmptyString) {[ "light"; "antialiased" ]}
    = ({[ "light"; "antialiased" ]} : gset string).
Proof.
  apply (body_carries_the_latest_theme_only "dark" "light" {[ "light"; "antialiased" ]});
    in_list.
Defined.

End ThemeFacts.

(** ** Model icons *)

Module ModelIconFacts.
Import ModelIcons.

Lemma lower_char_idem (c : ascii) : lower_char (lower_char c) = lower_char c.
Proof. by destruct c as [[] [] [] [] [] [] [] []]. Qed.

Lemma toLowerCase_idem (s : string) : toLowerCase (toLowerCase s) = toLowerCase s.
Proof. induction s as [|c s IH]; cbn; [done|]. by rewrite lower_char_idem, IH. Qed.

Lemma toLowerCase_empty (s : string) : non_empty (toLowerCase s) = non_empty s.
Proof. by destruct s. Qed.

Lemma lookup_info_elem (entries : list (string * ModelIconInfo)) (k : string)
    (info : ModelIconInfo) :
  lookup_info entries k = Some info → (k, info) ∈ entries.
Proof.
  induction entries as [|[k' i] entries IH]; cbn; [done|].
  case_bool_decide as Hk.
  - intros [= ->]. subst k'. apply list_elem_of_here.
  - intros Hl. apply list_elem_of_further. by apply IH.
Qed.

(** Every key is in lower case, and every entry is found under its own key
    by its own patterns, ahead of any other entry. *)
Lemma registry_facts (k : string) (info : ModelIconInfo) :
  (k, info) ∈ MODEL_ICON_INFO →
  toLowerCase k = k
  ∧ matches_pattern (toLowerCase k) info = true
  ∧ (lookup_info MODEL_ICON_INFO k = Some info → icon_by_patterns k = icon info).
Proof.
  unfold MODEL_ICON_INFO. intros Hin.
  repeat (apply elem_of_cons in Hin as [[= -> ->]|Hin]); [..|by apply elem_of_nil in Hin].
  all: split; [vm_compute; reflexivity|split; [vm_compute; reflexivity|]].
  all: intros _; vm_compute; reflexivity.
Qed.

Lemma prefix_cons_inv (p s : string) (c : ascii) :
  String.prefix (String c p) s = true → ∃ s', s = String c s' ∧ String.prefix p s' = true.
Proof.
  destruct s as [|c' s']; cbn; [done|].
  destruct (ascii_dec c c') as [->|]; [|done]. intros Hp. by exists s'.
Qed.

Lemma prefix_trans (p a b : string) :
  String.prefix p a = true → String.prefix a b = true → String.prefix p b = true.
Proof.
  revert a b. induction p as [|x p IH]; intros a b Hpa Hab; [by destruct b|].
  apply prefix_cons_inv in Hpa as (a' & -> & Hpa).
  apply prefix_cons_inv in Hab as (b' & -> & Hab).
  cbn. destruct (ascii_dec x x); [|done]. by apply (IH a').
Qed.

(** A text that occurs in a prefix of [s] occurs in [s]. *)
Lemma includes_prefix (k s p : string) :
  String.prefix k s = true → includes k p = true → includes s p = true.
Proof.
  revert s. induction k as [|c k IH]; intros s Hk Hp.
  - cbn in Hp. rewrite orb_false_r in Hp. destruct p; [|done]. by destruct s.
  - pose proof Hk as Hk0. apply prefix_cons_inv in Hk as (s' & -> & Hk).
    cbn [includes] in Hp |- *. apply orb_true_iff in Hp as [Hp|Hp]; apply orb_true_iff.
    + left. by apply (prefix_trans p (String c k)).
    + right. by apply IH.
Qed.

Lemma first_part_prefix (s : string) : String.prefix (first_part s) s = true.
Proof.
  induction s as [|c s IH]; cbn; [done|].
  case_bool_decide; cbn; [done|]. by destruct (ascii_dec c c).
Qed.

Lemma matches_pattern_prefix (k s : string) (info : ModelIconInfo) :
  String.prefix k s = true → matches_pattern k info = true → matches_pattern s info = true.
Proof.
  unfold matches_pattern. intros Hk (p & Hin & Hp)%existsb_exists.
  apply existsb_exists. exists p. split; [done|]. by apply (includes_prefix k).
Qed.

(** After the patterns have found nothing, the prefix finds nothing
    either: every key contains one of its own patterns. *)
Lemma prefix_step_finds_nothing (formattedModelId : string) :
  List.find (λ entry, matches_pattern formattedModelId entry.2) MODEL_ICON_INFO = None →
  List.find (λ entry, bool_decide (first_part formattedModelId = toLowerCase entry.1))
            MODEL_ICON_INFO = None.
Proof.
  intros Hnone.
  destruct (List.find (λ entry, bool_decide (first_part _ = _)) MODEL_ICON_INFO)
    as [[k info]|] eqn:Hp; [|done].
  exfalso. apply find_some in Hp as [Hin Heq].
  pose proof (find_none _ _ Hnone _ Hin) as Hno. cbn [snd] in Hno.
  apply list_elem_of_In in Hin.
  apply bool_decide_eq_true in Heq. cbn [fst] in Heq.
  destruct (registry_facts k info Hin) as (_ & Hk & _).
  rewrite <- Heq in Hk.
  pose proof (matches_pattern_prefix _ _ info (first_part_prefix formattedModelId) Hk) as Hm.
  congruence.
Qed.

(** X22. The third step of [getModelIcon] never decides: an id that is no
    key and contains no pattern gets the default icon, whatever its prefix
    is. (A prefix equal to a key would contain one of that key's patterns.) *)
Theorem prefix_lookup_never_decides (modelId : string) :
  ascii_only modelId = true →
  direct_icon modelId = None →
  (∀ entry, entry ∈ MODEL_ICON_INFO →
            matches_pattern (toLowerCase modelId) entry.2 = false) →
  getModelIcon modelId = DEFAULT_ICON_URL.
Proof.
  intros _ Hdirect Hnone. unfold getModelIcon. destruct (non_empty modelId); [|done].
  cbn [negb]. rewrite Hdirect. unfold icon_by_patterns.
  destruct (List.find _ MODEL_ICON_INFO) as [entry|] eqn:Hf.
  { apply find_some in Hf as [Hin Hm]. apply list_elem_of_In in Hin.
    by rewrite (Hnone entry Hin) in Hm. }
  by rewrite (prefix_step_finds_nothing _ Hf).
Qed.

Lemma prefix_lookup_never_decides_witness :
  getModelIcon "mystery-7b" = DEFAULT_ICON_URL.
Proof.
  apply (prefix_lookup_never_decides "mystery-7b"); [reflexivity..|].
  intros entry Hin. unfold MODEL_ICON_INFO in Hin.
  repeat (apply elem_of_cons in Hin as [->|Hin]); [..|by apply elem_of_nil in Hin].
  all: vm_compute; reflexivity.
Defined.

(** X23. The icon does not depend on the case of the id: an id and its
    lower-case form get the same icon. *)
Theorem getModelIcon_ignores_case (modelId : string) :
  ascii_only modelId = true →
  getModelIcon (toLowerCase modelId) = getModelIcon modelId.
Proof.
  intros _. unfold getModelIcon. rewrite toLowerCase_empty, toLowerCase_idem.
  destruct (non_empty modelId); [|done]. cbn [negb].
  destruct (direct_icon modelId) as [url|] eqn:Hd.
  - assert (toLowerCase modelId = modelId) as ->; [|by rewrite Hd].
    unfold direct_icon in Hd.
    destruct (lookup_info MODEL_ICON_INFO modelId) as [info|] eqn:Hl; [|done].
    by destruct (registry_facts _ _ (lookup_info_elem _ _ _ Hl)) as (? & _).
  - unfold direct_icon.
    destruct (lookup_info MODEL_ICON_INFO (toLowerCase modelId)) as [info|] eqn:Hl; [|done].
    cbn. destruct (registry_facts _ _ (lookup_info_elem _ _ _ Hl)) as (_ & _ & Hscan).
    rewrite (Hscan Hl). by destruct (non_empty (icon info)).
Qed.

Lemma getModelIcon_ignores_case_witness :
  getModelIcon (toLowerCase "Qwen2.5-72B-Instruct") = getModelIcon "Qwen2.5-72B-Instruct".
Proof. apply (getModelIcon_ignores_case "Qwen2.5-72B-Instruct"). reflexivity. Defined.

Lemma prefix_app (a b : string) : String.prefix a (a +:+ b) = true.
Proof.
  induction a as [|c a IH]; [by destruct b|].
  change (String c a +:+ b) with (String c (a +:+ b)). cbn.
  by destruct (ascii_dec c c).
Qed.

Lemma prefix_refl (a : string) : String.prefix a a = true.
Proof. induction a as [|c a IH]; cbn; [done|]. by destruct (ascii_dec c c). Qed.

Lemma registry_non_empty (k : string) (info : ModelIconInfo) :
  (k, info) ∈ MODEL_ICON_INFO → non_empty (label info) = true ∧ non_empty (icon info) = true.
Proof.
  unfold MODEL_ICON_INFO. intros Hin.
  repeat (apply elem_of_cons in Hin as [[= -> ->]|Hin]); [..|by apply elem_of_nil in Hin].
  all: by split.
Qed.

(** X24. Label and icon go together. Either the id matches nothing, it is
    its own label and the icon is the default one; or one entry of the
    registry gives the icon and the label, the label followed at most by a
    version or size tag, whatever the two expressions extract. *)
Theorem label_and_icon_agree (version_tag size_tag : string → option string)
    (modelId : string) :
  ascii_only modelId = true →
  (getModelLabel version_tag size_tag modelId = modelId
   ∧ getModelIcon modelId = DEFAULT_ICON_URL)
  ∨ ∃ key info,
      (key, info) ∈ MODEL_ICON_INFO
      ∧ getModelIcon modelId = icon info
      ∧ String.prefix (label info) (getModelLabel version_tag size_tag modelId) = true
      ∧ (size_tag modelId = None → version_tag modelId = None →
           getModelLabel version_tag size_tag modelId = label info).
Proof.
  intros Hascii. unfold getModelLabel, getModelIcon.
  destruct (non_empty modelId) eqn:Hne; cbn [negb].
  2:{ left. split; [|done]. unfold non_empty in Hne.
      apply bool_decide_eq_false in Hne. destruct modelId; [done|].
      exfalso. by apply Hne. }
  unfold direct_label, direct_icon.
  destruct (lookup_info MODEL_ICON_INFO modelId) as [info|] eqn:Hl;
    cbn [mbind option_bind].
  { right. exists modelId, info. pose proof (lookup_info_elem _ _ _ Hl) as Hin.
    destruct (registry_non_empty _ _ Hin) as [-> ->].
    split; [done|]. split; [done|]. split; [apply prefix_refl|done]. }
  unfold icon_by_patterns.
  destruct (List.find _ MODEL_ICON_INFO) as [[key info]|] eqn:Hf.
  - right. exists key, info. pose proof (find_some _ _ Hf) as [Hin _].
    apply list_elem_of_In in Hin. split; [done|]. split; [done|]. cbn [snd].
    destruct (version_tag modelId), (size_tag modelId);
      rewrite ?prefix_app, ?prefix_refl; by split.
  - left. split; [done|].
    by rewrite (prefix_step_finds_nothing _ Hf).
Qed.

Lemma label_and_icon_agree_witness :
  (getModelLabel (λ _, Some "70b") (λ _, Some "70b") "Llama-3-70b" = "Llama-3-70b"
   ∧ getModelIcon "Llama-3-70b" = DEFAULT_ICON_URL)
  ∨ ∃ key info,
      (key, info) ∈ MODEL_ICON_INFO
      ∧ getModelIcon "Llama-3-70b" = icon info
      ∧ String.prefix (label info)
          (getModelLabel (λ _, Some "70b") (λ _, Some "70b") "Llama-3-70b") = true
      ∧ ((λ _ : string, Some "70b") "Llama-3-70b" = None →
         (λ _ : string, Some "70b") "Llama-3-70b" = None →
         getModelLabel (λ _, Some "70b") (λ _, Some "70b") "Llama-3-70b" = label info).
Proof.
  apply (label_and_icon_agree (λ _, Some "70b") (λ _, Some "70b") "Llama-3-70b").
  reflexivity.
Defined.

End ModelIconFacts.
